(** * Robinclaw: ledger store, exchange gateway and account lifecycle

    A shallow embedding of [models.py], [robinclaw/trading.py] and the
    authenticated handlers of [robinclaw/web/app.py], followed by the
    properties of the account lifecycle that the specification states.

    Conventions of the embedding.
    - A Python [float] is an exact rational ([Q]); NaN, infinities, signed
      zeros and rounding error are outside the model.  Python [==] on
      floats is [Qeq], written [==].  The one function whose result the
      rounding error of its argument can move by a whole step, [round], is
      a parameter of the gateway.
    - A Python [str] is the string of the bytes of its UTF-8 encoding;
      equality, concatenation and prefixes are those of the bytes, and the
      length, which Python counts in code points, is [len].
    - A [datetime] is a point in time ([Z]); the code stores it, as ISO text,
      and orders rows by it.
    - The SQLite tables are lists of rows in rowid order.
    - The remote exchange is an oracle: the answer to a call is a function
      of the calls made before it and of the call itself, and an answer is
      either a decoded payload or a raised exception. *)

From Stdlib Require Import List String Ascii ZArith QArith Qround Qabs Bool Lia Lqa.
From Stdlib Require Import Sorted Permutation.
Import ListNotations.

Local Open Scope string_scope.
Local Open Scope Z_scope.

(** ** Python helpers *)

Definition datetime := Z.

(** [x or d] on an optional number: [None] and [0] are both falsy. *)
Definition or_Z (x : option Z) (d : Z) : Z :=
  match x with
  | Some v => if Z.eqb v 0 then d else v
  | None => d
  end.

Definition or_Q (x : option Q) (d : Q) : Q :=
  match x with
  | Some v => if Qeq_bool v 0 then d else v
  | None => d
  end.

(** [len(s)] on a [str]: the number of code points, which are the bytes of
    the encoding that do not continue a character (those not of the form
    10xxxxxx). *)
Definition continues (c : Ascii.ascii) : bool :=
  match c with
  | Ascii.Ascii _ _ _ _ _ _ b6 b7 => b7 && negb b6
  end.

Fixpoint len (s : string) : nat :=
  match s with
  | EmptyString => 0%nat
  | String c rest => if continues c then len rest else S (len rest)
  end.

(** [abs(x)]. *)
Definition abs (x : Q) : Q := Qabs x.

(** [x > y] and [x != y] on floats. *)
Definition gtb (x y : Q) : bool := negb (Qle_bool x y).

Definition neb (x y : Q) : bool := negb (Qeq_bool x y).

(** ** models.py *)

Module Agent.
Record t := mk {
    id : string;
    name : string;
    wallet_address : string;
    private_key_encrypted : string;
    api_key_hash : string;
    deposit_amount : Q;
    deposit_tx : option string;
    created_at : datetime;
    status : string;
    closed_at : option datetime;
    final_equity : option Q;
    final_pnl : option Q;
    final_pnl_pct : option Q;
    withdrawal_tx : option string;
    withdrawal_address : option string
}.
End Agent.

Module Trade.
Record t := mk {
    id : Z;
    agent_id : string;
    symbol : string;
    side : string;
    size : Q;
    price : Q;
    realized_pnl : Q;
    timestamp : datetime
}.
End Trade.

(** The keyword arguments of [update_agent_status]: one for each column of
    the [agents] table, but for [status], which is a parameter of its own,
    and for the two keys [id] and [wallet_address].  [None] is a keyword
    that is absent or passed as [None]; the loop skips both.  A keyword
    that names a key, on which the statement can fail with an
    [IntegrityError], or no column at all, on which it does fail, has no
    counterpart here; no caller passes one. *)
Record Kwargs := {
  kw_name : option string;
  kw_private_key_encrypted : option string;
  kw_api_key_hash : option string;
  kw_deposit_amount : option Q;
  kw_deposit_tx : option string;
  kw_created_at : option datetime;
  kw_closed_at : option datetime;
  kw_final_equity : option Q;
  kw_final_pnl : option Q;
  kw_final_pnl_pct : option Q;
  kw_withdrawal_tx : option string;
  kw_withdrawal_address : option string
}.

Definition no_kwargs : Kwargs :=
  {| kw_name := None; kw_private_key_encrypted := None; kw_api_key_hash := None;
     kw_deposit_amount := None; kw_deposit_tx := None; kw_created_at := None;
     kw_closed_at := None; kw_final_equity := None; kw_final_pnl := None;
     kw_final_pnl_pct := None; kw_withdrawal_tx := None;
     kw_withdrawal_address := None |}.

(** The statements that the store commits. *)
Inductive Write :=
| InsertAgent (a : Agent.t)
| UpdateAgent (agent_id : string) (status : string) (kw : Kwargs)
| InsertTrade (t : Trade.t).

Record DB := {
  agents : list Agent.t;
  trades : list Trade.t;
  committed : list Write          (* newest first *)
}.

Definition commit (s : Write) (d : DB) (rows : list Agent.t) (ts : list Trade.t) : DB :=
  {| agents := rows; trades := ts; committed := s :: committed d |}.

(** An exception: [HTTPException(status_code, detail)], or any other
    [Exception], kept as its [str(e)]. *)
Inductive exn :=
| HTTPException (status_code : Z) (detail : string)
| Error (msg : string).

Inductive result (A : Type) :=
| Ok (a : A)
| Raise (e : exn).
Arguments Ok {A} a.
Arguments Raise {A} e.

(** [INSERT INTO agents]: the primary key [id] and the [UNIQUE] column
    [wallet_address] reject a duplicate; the closure columns other than
    [withdrawal_address] are not part of the statement and stay NULL. *)
Definition create_agent (agent : Agent.t) (d : DB) : result Agent.t * DB :=
  if existsb (fun r => String.eqb (Agent.id r) (Agent.id agent)
                       || String.eqb (Agent.wallet_address r) (Agent.wallet_address agent))
             (agents d)
  then (Raise (Error "IntegrityError"), d)
  else
    let row := {| Agent.id := Agent.id agent;
                  Agent.name := Agent.name agent;
                  Agent.wallet_address := Agent.wallet_address agent;
                  Agent.private_key_encrypted := Agent.private_key_encrypted agent;
                  Agent.api_key_hash := Agent.api_key_hash agent;
                  Agent.deposit_amount := Agent.deposit_amount agent;
                  Agent.deposit_tx := Agent.deposit_tx agent;
                  Agent.created_at := Agent.created_at agent;
                  Agent.status := Agent.status agent;
                  Agent.closed_at := None;
                  Agent.final_equity := None;
                  Agent.final_pnl := None;
                  Agent.final_pnl_pct := None;
                  Agent.withdrawal_tx := None;
                  Agent.withdrawal_address := Agent.withdrawal_address agent |} in
    (Ok agent, commit (InsertAgent agent) d (agents d ++ [row]) (trades d)).

(** [SELECT ... WHERE col = ?] followed by [fetchone]. *)
Definition get_agent (agent_id : string) (d : DB) : option Agent.t :=
  find (fun r => String.eqb (Agent.id r) agent_id) (agents d).

Definition get_agent_by_name (name : string) (d : DB) : option Agent.t :=
  find (fun r => String.eqb (Agent.name r) name) (agents d).

Definition get_agent_by_api_key_hash (api_key_hash : string) (d : DB) : option Agent.t :=
  find (fun r => String.eqb (Agent.api_key_hash r) api_key_hash) (agents d).

(** A sort in descending order that keeps elements of equal rank in the
    order it finds them: [list.sort(key=..., reverse=True)], and
    [ORDER BY ... DESC], for which SQLite leaves the order of equal rows
    open.  [gt y x] says that [y] ranks strictly above [x]. *)
Fixpoint insert_desc {A : Type} (gt : A -> A -> bool) (x : A) (l : list A) : list A :=
  match l with
  | [] => [x]
  | y :: rest => if gt y x then y :: insert_desc gt x rest else x :: y :: rest
  end.

Definition sort_desc {A : Type} (gt : A -> A -> bool) (l : list A) : list A :=
  fold_right (insert_desc gt) [] l.

(** The order of SQLite on a nullable REAL column: NULL is below every
    number. *)
Definition real_gt (y x : option Q) : bool :=
  match y, x with
  | Some b, Some a => gtb b a
  | Some _, None => true
  | None, _ => false
  end.

(** [WHERE status = 'active' ORDER BY created_at DESC]. *)
Definition get_active_agents (d : DB) : list Agent.t :=
  sort_desc (fun y x => Agent.created_at x <? Agent.created_at y)
    (filter (fun r => String.eqb (Agent.status r) "active") (agents d)).

(** [WHERE status = 'closed' ORDER BY final_pnl_pct DESC]. *)
Definition get_closed_agents (d : DB) : list Agent.t :=
  sort_desc (fun y x => real_gt (Agent.final_pnl_pct y) (Agent.final_pnl_pct x))
    (filter (fun r => String.eqb (Agent.status r) "closed") (agents d)).

(** The value of a column after the update: that of the keyword when it is
    given, the old one otherwise. *)
Definition set_col {A : Type} (new : option A) (old : option A) : option A :=
  match new with
  | Some v => Some v
  | None => old
  end.

Definition set_val {A : Type} (new : option A) (old : A) : A :=
  match new with
  | Some v => v
  | None => old
  end.

Definition update_row (status : string) (kw : Kwargs) (r : Agent.t) : Agent.t :=
  {| Agent.id := Agent.id r;
     Agent.name := set_val (kw_name kw) (Agent.name r);
     Agent.wallet_address := Agent.wallet_address r;
     Agent.private_key_encrypted :=
       set_val (kw_private_key_encrypted kw) (Agent.private_key_encrypted r);
     Agent.api_key_hash := set_val (kw_api_key_hash kw) (Agent.api_key_hash r);
     Agent.deposit_amount := set_val (kw_deposit_amount kw) (Agent.deposit_amount r);
     Agent.deposit_tx := set_col (kw_deposit_tx kw) (Agent.deposit_tx r);
     Agent.created_at := set_val (kw_created_at kw) (Agent.created_at r);
     Agent.status := status;
     Agent.closed_at := set_col (kw_closed_at kw) (Agent.closed_at r);
     Agent.final_equity := set_col (kw_final_equity kw) (Agent.final_equity r);
     Agent.final_pnl := set_col (kw_final_pnl kw) (Agent.final_pnl r);
     Agent.final_pnl_pct := set_col (kw_final_pnl_pct kw) (Agent.final_pnl_pct r);
     Agent.withdrawal_tx := set_col (kw_withdrawal_tx kw) (Agent.withdrawal_tx r);
     Agent.withdrawal_address :=
       set_col (kw_withdrawal_address kw) (Agent.withdrawal_address r) |}.

(** [UPDATE agents SET status = ?, ... WHERE id = ?]; returns [None]. *)
Definition update_agent_status (agent_id : string) (status : string) (kw : Kwargs)
    (d : DB) : result unit * DB :=
  let rows :=
    map (fun r => if String.eqb (Agent.id r) agent_id then update_row status kw r else r)
        (agents d) in
  (Ok tt, commit (UpdateAgent agent_id status kw) d rows (trades d)).

(** [INSERT INTO trades]: the id is assigned by AUTOINCREMENT. *)
Definition record_trade (trade : Trade.t) (d : DB) : result unit * DB :=
  let next := 1 + fold_right (fun t m => Z.max (Trade.id t) m) 0 (trades d) in
  let row := {| Trade.id := next;
                Trade.agent_id := Trade.agent_id trade;
                Trade.symbol := Trade.symbol trade;
                Trade.side := Trade.side trade;
                Trade.size := Trade.size trade;
                Trade.price := Trade.price trade;
                Trade.realized_pnl := Trade.realized_pnl trade;
                Trade.timestamp := Trade.timestamp trade |} in
  (Ok tt, commit (InsertTrade trade) d (agents d) (trades d ++ [row])).

(** [WHERE agent_id = ? ORDER BY timestamp DESC]. *)
Definition get_agent_trades (agent_id : string) (d : DB) : list Trade.t :=
  sort_desc (fun y x => Trade.timestamp x <? Trade.timestamp y)
    (filter (fun t => String.eqb (Trade.agent_id t) agent_id) (trades d)).

(** SQL aggregates over the selected rows: [COUNT] of no row is 0, [SUM]
    of no row is NULL. *)
Definition sql_count {A : Type} (rows : list A) : Z := Z.of_nat (List.length rows).

Definition sql_sum_int (xs : list Z) : option Z :=
  match xs with
  | [] => None
  | _ => Some (fold_left Z.add xs 0)
  end.

Definition sql_sum_real (xs : list Q) : option Q :=
  match xs with
  | [] => None
  | _ => Some (fold_left Qplus xs 0%Q)
  end.

Record Stats := {
  total_trades : Z;
  winning_trades : Z;
  win_rate : Q;
  total_pnl : Q
}.

Definition get_agent_stats (agent_id : string) (d : DB) : Stats :=
  let rows := filter (fun t => String.eqb (Trade.agent_id t) agent_id) (trades d) in
  let row_total_trades := Some (sql_count rows) in
  let row_winning_trades :=
    sql_sum_int (map (fun t => if gtb (Trade.realized_pnl t) 0 then 1 else 0) rows) in
  let row_total_pnl := sql_sum_real (map Trade.realized_pnl rows) in
  let total := or_Z row_total_trades 0 in
  let wins := or_Z row_winning_trades 0 in
  let pnl := or_Q row_total_pnl 0 in
  {| total_trades := total;
     winning_trades := wins;
     win_rate := if 0 <? total then (inject_Z wins / inject_Z total * 100)%Q else 0%Q;
     total_pnl := pnl |}.

(** ** The remote exchange (the Hyperliquid SDK) *)

(** The calls the gateway makes on its [info] and [exchange] clients. *)
Inductive Call :=
| user_state (address : string)
| open_orders (address : string)
| all_mids
| order (symbol : string) (is_buy : bool) (sz limit_px : Q) (tif : string) (reduceOnly : bool)
| cancel (symbol : string) (oid : Z)
| update_leverage (leverage : Z) (symbol : string) (is_cross : bool).

(** The answer to a call: the decoded payload, or an exception raised by
    the SDK call or by decoding one of the payload's members. *)
Inductive remote (A : Type) :=
| Returns (a : A)
| Raises (msg : string).
Arguments Returns {A} a.
Arguments Raises {A} msg.

(** Payloads.  An optional member is one the code reads with [.get] and a
    default. *)
Module HL.
Record AssetPosition := {
  szi : option Q;
  coin : option string;
  entryPx : option Q;
  positionValue : option Q;
  unrealizedPnl : option Q;
  leverage_value : option Z       (* [None]: no leverage dict, or no value in it *)
}.

Record UserState := {
  accountValue : option Q;
  totalMarginUsed : option Q;
  withdrawable : option Q;
  assetPositions : list AssetPosition
}.

Record OpenOrder := {
  oid : option Z;
  o_coin : option string;
  o_side : option string;
  sz : option Q;
  limitPx : option Q;
  orderType : option string
}.

Record Filled := {
  filled_oid : option string;     (* [str] of the member *)
  totalSz : option Q;
  avgPx : option Q
}.

Record OrderStatus := {
  filled : option Filled;
  resting : option (option string)  (* the resting order's oid *)
}.

Record OrderResponse := {
  status : option string;
  statuses : option (list OrderStatus);
  repr_statuses : string;         (* how Python prints [statuses] *)
  repr_result : string            (* how Python prints the whole result *)
}.
End HL.

Record Exchange := {
  info_user_state : list Call -> string -> remote HL.UserState;
  info_open_orders : list Call -> string -> remote (list HL.OpenOrder);
  info_all_mids : list Call -> remote (list (string * Q));
  exchange_order :
    list Call -> string -> bool -> Q -> Q -> string -> bool -> remote HL.OrderResponse;
  exchange_cancel : list Call -> string -> Z -> remote (option string);
  exchange_update_leverage : list Call -> Z -> string -> bool -> remote (option string)
}.

(** ** State and exceptions *)

Record World := {
  db : DB;
  calls : list Call               (* newest first *)
}.

Definition M (A : Type) : Type := World -> result A * World.

Definition ret {A : Type} (a : A) : M A := fun w => (Ok a, w).

Definition bind {A B : Type} (m : M A) (k : A -> M B) : M B :=
  fun w =>
    match m w with
    | (Ok a, w') => k a w'
    | (Raise e, w') => (Raise e, w')
    end.

Definition raise {A : Type} (e : exn) : M A := fun w => (Raise e, w).

Declare Scope py_scope.
Delimit Scope py_scope with py.
Notation "x <- m ;; k" := (bind m (fun x => k))
  (at level 100, m at next level, right associativity) : py_scope.
Notation "m ;;; k" := (bind m (fun _ => k))
  (at level 100, right associativity) : py_scope.

(** [try: body except Exception as e: handler(e)]. *)
Definition try_except {A : Type} (body : M A) (handler : exn -> M A) : M A :=
  fun w =>
    match body w with
    | (Ok a, w') => (Ok a, w')
    | (Raise e, w') => handler e w'
    end.

(** [str(e)]. *)
Definition str_exn (e : exn) : string :=
  match e with
  | HTTPException _ detail => detail
  | Error msg => msg
  end.

Definition query {A : Type} (f : DB -> A) : M A := fun w => (Ok (f (db w)), w).

Definition execute {A : Type} (f : DB -> result A * DB) : M A :=
  fun w =>
    let (r, d) := f (db w) in
    (r, {| db := d; calls := calls w |}).

(** One remote call: it is logged, then answered from the calls before it. *)
Definition logged (c : Call) (w : World) : World :=
  {| db := db w; calls := c :: calls w |}.

Definition remote_call {A : Type} (c : Call) (answer : list Call -> remote A) : M A :=
  fun w =>
    match answer (calls w) with
    | Returns a => (Ok a, logged c w)
    | Raises msg => (Raise (Error msg), logged c w)
    end.

Definition dflt {A : Type} (x : option A) (d : A) : A :=
  match x with
  | Some v => v
  | None => d
  end.

Fixpoint lookup {A : Type} (k : string) (kvs : list (string * A)) : option A :=
  match kvs with
  | [] => None
  | (k', v) :: rest => if String.eqb k' k then Some v else lookup k rest
  end.

(** ** robinclaw/trading.py *)

Record OrderResult := {
  success : bool;
  order_id : option string;
  message : string;
  filled_size : Q;
  avg_price : Q
}.

(** [OrderResult(success=False, message=msg)]. *)
Definition failed (msg : string) : OrderResult :=
  {| success := false; order_id := None; message := msg;
     filled_size := 0%Q; avg_price := 0%Q |}.

Module PositionInfo.
Record t := mk {
  symbol : string;
  size : Q;
  entry_price : Q;
  mark_price : Q;
  unrealized_pnl : Q;
  leverage : Z
}.
End PositionInfo.

Record Balance := {
  account_value : Q;
  total_margin_used : Q;
  bal_withdrawable : Q
}.

(** An entry of [get_open_orders].  [oo_order_id] is [str(oid)], kept as
    the number it prints; [None] is the empty string of a missing oid. *)
Record OpenOrderInfo := {
  oo_order_id : option Z;
  oo_symbol : string;
  oo_side : string;
  oo_size : Q;
  oo_price : Q;
  oo_order_type : string
}.

Record AgentTrader := {
  address : string
}.

Section Gateway.

(** The exchange behind the SDK clients. *)
Variable E : Exchange.

(** [Account.from_key(private_key).address]; [None] when the key is
    rejected. *)
Variable address_of_key : string -> option string.

(** [hashlib.sha256(s.encode()).hexdigest()]. *)
Variable sha256_hexdigest : string -> string.

(** [round(x, ndigits)].  Python rounds the binary double, which the
    rational stands for only up to rounding error, and next to a value
    halfway between two hundredths that error decides the result:
    [round(0.1 * (1 + 0.05), 2)] is 0.11 and [round(0.105, 2)] is 0.1.
    The function is therefore left open; a property that needs more than
    that says what it assumes of it. *)
Variable round : Q -> Z -> Q.

(** [float(s)] on a [str]: the number that Python reads from it, [None]
    when it raises [ValueError]. *)
Variable float_of_string : string -> option Q.

Local Open Scope py_scope.

(** [AgentTrader.__init__], through the factory [create_trader]; the
    [testnet] flag only selects the URL behind which [E] answers. *)
Definition create_trader (private_key : string) : M AgentTrader :=
  let private_key :=
    if negb (String.prefix "0x" private_key) then "0x" ++ private_key else private_key in
  match address_of_key private_key with
  | Some a => ret {| address := a |}
  | None => raise (Error "invalid private key")
  end.

Definition get_balance (self : AgentTrader) : M Balance :=
  state <- remote_call (user_state (address self))
             (fun h => info_user_state E h (address self)) ;;
  ret {| account_value := dflt (HL.accountValue state) 0%Q;
         total_margin_used := dflt (HL.totalMarginUsed state) 0%Q;
         bal_withdrawable := dflt (HL.withdrawable state) 0%Q |}.

Definition position_info (p : HL.AssetPosition) : list PositionInfo.t :=
  let size := dflt (HL.szi p) 0%Q in
  if neb size 0 then
    [ {| PositionInfo.symbol := dflt (HL.coin p) EmptyString;
         PositionInfo.size := size;
         PositionInfo.entry_price := dflt (HL.entryPx p) 0%Q;
         PositionInfo.mark_price :=
           if neb size 0 then (dflt (HL.positionValue p) 0 / abs size)%Q else 0%Q;
         PositionInfo.unrealized_pnl := dflt (HL.unrealizedPnl p) 0%Q;
         PositionInfo.leverage := dflt (HL.leverage_value p) 1 |} ]
  else [].

Definition get_positions (self : AgentTrader) : M (list PositionInfo.t) :=
  state <- remote_call (user_state (address self))
             (fun h => info_user_state E h (address self)) ;;
  ret (flat_map position_info (HL.assetPositions state)).

Definition open_order_info (o : HL.OpenOrder) : OpenOrderInfo :=
  {| oo_order_id := HL.oid o;
     oo_symbol := dflt (HL.o_coin o) EmptyString;
     oo_side := match HL.o_side o with
                | Some s => if String.eqb s "B" then "buy" else "sell"
                | None => "sell"
                end;
     oo_size := dflt (HL.sz o) 0%Q;
     oo_price := dflt (HL.limitPx o) 0%Q;
     oo_order_type := dflt (HL.orderType o) "limit" |}.

Definition get_open_orders (self : AgentTrader) : M (list OpenOrderInfo) :=
  orders <- remote_call (open_orders (address self))
              (fun h => info_open_orders E h (address self)) ;;
  ret (map open_order_info orders).

(** [result.get("status") == "ok"]. *)
Definition is_ok (status : option string) : bool :=
  match status with
  | Some s => String.eqb s "ok"
  | None => false
  end.

(** The reading of the exchange's answer to a market order. *)
Definition market_outcome (result : HL.OrderResponse) : OrderResult :=
  if is_ok (HL.status result) then
      let statuses :=
        dflt (HL.statuses result) [ {| HL.filled := None; HL.resting := None |} ] in
      match statuses with
      | s0 :: _ =>
          match HL.filled s0, HL.resting s0 with
          | Some filled, _ =>
              {| success := true;
                 order_id := Some (dflt (HL.filled_oid filled) EmptyString);
                 message := "Order filled";
                 filled_size := dflt (HL.totalSz filled) 0%Q;
                 avg_price := dflt (HL.avgPx filled) 0%Q |}
          | None, Some resting =>
              {| success := true;
                 order_id := Some (dflt resting EmptyString);
                 message := "Order placed (partial fill or resting)";
                 filled_size := 0%Q;
                 avg_price := 0%Q |}
          | None, None => failed ("Order not filled: " ++ HL.repr_statuses result)
          end
      | [] => failed ("Order not filled: " ++ HL.repr_statuses result)
      end
  else failed ("Order failed: " ++ HL.repr_result result).

Definition market_order (self : AgentTrader) (symbol side : string) (size : Q)
    (slippage : Q) : M OrderResult :=
  try_except
    (let is_buy := String.eqb side "buy" in
     mids <- remote_call all_mids (info_all_mids E) ;;
     match lookup symbol mids with
     | None => ret (failed ("Unknown symbol: " ++ symbol))
     | Some mid_price =>
         let limit_price :=
           if is_buy then (mid_price * (1 + slippage))%Q
           else (mid_price * (1 - slippage))%Q in
         let limit_price := round limit_price 2 in
         result <- remote_call (order symbol is_buy size limit_price "Ioc" false)
                     (fun h =>
                        exchange_order E h symbol is_buy size limit_price "Ioc" false) ;;
         ret (market_outcome result)
     end)
    (fun e => ret (failed ("Error: " ++ str_exn e))).

Definition limit_outcome (result : HL.OrderResponse) : OrderResult :=
  if is_ok (HL.status result) then
      let statuses :=
        dflt (HL.statuses result) [ {| HL.filled := None; HL.resting := None |} ] in
      match statuses with
      | s0 :: _ =>
          match HL.resting s0, HL.filled s0 with
          | Some resting, _ =>
              {| success := true;
                 order_id := Some (dflt resting EmptyString);
                 message := "Limit order placed";
                 filled_size := 0%Q;
                 avg_price := 0%Q |}
          | None, Some filled =>
              {| success := true;
                 order_id := Some (dflt (HL.filled_oid filled) EmptyString);
                 message := "Order filled immediately";
                 filled_size := dflt (HL.totalSz filled) 0%Q;
                 avg_price := dflt (HL.avgPx filled) 0%Q |}
          | None, None => failed ("Unexpected response: " ++ HL.repr_statuses result)
          end
      | [] => failed ("Unexpected response: " ++ HL.repr_statuses result)
      end
  else failed ("Order failed: " ++ HL.repr_result result).

Definition limit_order (self : AgentTrader) (symbol side : string) (size price : Q)
    (reduce_only : bool) : M OrderResult :=
  try_except
    (let is_buy := String.eqb side "buy" in
     result <- remote_call (order symbol is_buy size price "Gtc" reduce_only)
                 (fun h => exchange_order E h symbol is_buy size price "Gtc" reduce_only) ;;
     ret (limit_outcome result))
    (fun e => ret (failed ("Error: " ++ str_exn e))).

Definition close_position (self : AgentTrader) (symbol : string) (slippage : Q)
    : M OrderResult :=
  positions <- get_positions self ;;
  match find (fun p => String.eqb (PositionInfo.symbol p) symbol) positions with
  | None => ret (failed ("No position in " ++ symbol))
  | Some position =>
      let side := if gtb (PositionInfo.size position) 0 then "sell" else "buy" in
      let size := abs (PositionInfo.size position) in
      market_order self symbol side size slippage
  end.

Definition cancel_order (self : AgentTrader) (symbol : string) (order_id : Z) : M bool :=
  try_except
    (result <- remote_call (cancel symbol order_id)
                 (fun h => exchange_cancel E h symbol order_id) ;;
     ret (is_ok result))
    (fun _ => ret false).

(** The loop of [cancel_all_orders]; [int] of the empty string raises
    [ValueError]. *)
Fixpoint cancel_each (self : AgentTrader) (orders : list OpenOrderInfo) (cancelled : Z)
    : M Z :=
  match orders with
  | [] => ret cancelled
  | o :: rest =>
      match oo_order_id o with
      | None => raise (Error "invalid literal for int() with base 10: ''")
      | Some n =>
          ok <- cancel_order self (oo_symbol o) n ;;
          cancel_each self rest (if ok then cancelled + 1 else cancelled)
      end
  end.

Definition cancel_all_orders (self : AgentTrader) (symbol : option string) : M Z :=
  orders <- get_open_orders self ;;
  let orders :=
    match symbol with
    | Some s =>
        if String.eqb s EmptyString then orders
        else filter (fun o => String.eqb (oo_symbol o) s) orders
    | None => orders
    end in
  cancel_each self orders 0.

Definition set_leverage (self : AgentTrader) (symbol : string) (leverage : Z)
    (is_cross : bool) : M bool :=
  try_except
    (result <- remote_call (update_leverage leverage symbol is_cross)
                 (fun h => exchange_update_leverage E h leverage symbol is_cross) ;;
     ret (is_ok result))
    (fun _ => ret false).

(** ** robinclaw/web/app.py *)

(** What [register_agent] draws: [uuid.uuid4()], [Account.create()] and
    [secrets.token_urlsafe(32)]. *)
Record Fresh := {
  uuid4 : string;
  account_address : string;
  account_key_hex : string;
  token_urlsafe : string
}.

(** A member of a JSON body that a handler converts with [float]: a number,
    or a string that is not empty, given as its first character and the
    rest.  Both zero and the empty string are falsy; a string that is
    empty is counted with the member that is absent or null, which the
    handlers treat alike wherever they test the member at all. *)
Inductive json :=
| JNumber (x : Q)
| JString (c : Ascii.ascii) (rest : string).
Arguments JString c%_char rest%_string.

(** [bool(v)]. *)
Definition truthy (v : json) : bool :=
  match v with
  | JNumber x => neb x 0
  | JString _ _ => true
  end.

(** JSON request bodies.  A member read with [body.get(key)] is [None] when
    absent or null.  [symbol], [side], [type] and [margin_type] are strings
    when present; [size] and [price] are numbers or strings; [leverage] is
    a number.  A [price] that is the empty string, which the code hands on
    to the SDK as it is when the type is not "market", has no counterpart
    here. *)
Record OrderBody := {
  ob_symbol : option string;
  ob_side : option string;
  ob_size : option json;
  ob_price : option json;
  ob_type : option string
}.

Record CloseBody := {
  cb_symbol : option string
}.

Record LeverageBody := {
  lb_symbol : option string;
  lb_leverage : option Q;
  lb_margin_type : option string
}.

(** [int(x)] on a number: truncation toward zero. *)
Definition int (x : Q) : Z := Qnum x ÷ Zpos (Qden x).

Record ClosedPosition := {
  cp_symbol : string;
  cp_size : Q;
  cp_pnl : Q
}.

Record Withdrawal := {
  wd_address : option string;
  wd_account_value : Q;
  wd_withdrawable : Q;
  wd_note : string
}.

Record Results := {
  positions_closed : list ClosedPosition;
  orders_cancelled : Z;
  withdrawal : option Withdrawal;
  errors : list string
}.

(** The JSON and template responses of the handlers: the members that carry
    data; a message that is a constant of its constructor is left out.  The
    [Ok] constructors are the bodies with ["status": "ok"], the [Error]
    ones those with ["status": "error"]; [AccountClosed] carries its status,
    ["ok"] or ["partial"]. *)
Inductive Response :=
| RegisterForm (error : string)
| Registered (agent : Agent.t) (api_key : string)
| Account (name status wallet_address : string)
    (deposit_amount current_equity unrealized_pnl realized_pnl pnl_pct : Q)
    (total_trades : Z) (win_rate : Q)
| OrderOk (order_id : option string) (message : string) (filled_size avg_price : Q)
| OrderError (message : string)
| CloseOk (message symbol : string) (filled_size avg_price : Q)
| CloseError (message symbol : string)
| LeverageOk (symbol : string) (leverage : Q) (margin_type : string)
| LeverageError (symbol : string) (leverage : Q)
| AccountClosed (status message : string) (final_balance final_pnl : Q) (results : Results).

Definition register_agent (name : string) (deposit_amount : Q)
    (withdrawal_address : string) (fresh : Fresh) (now : datetime) : M Response :=
  if (len name <? 3)%nat || (32 <? len name)%nat then
    ret (RegisterForm "Agent name must be 3-32 characters.")
  else if gtb 10 deposit_amount || gtb deposit_amount 100 then
    ret (RegisterForm "Deposit must be between $10 and $100.")
  else
    taken <- query (get_agent_by_name name) ;;
    match taken with
    | Some _ => ret (RegisterForm ("Agent name '" ++ name ++ "' is already taken."))
    | None =>
        let wallet_address := account_address fresh in
        let private_key := account_key_hex fresh in
        let api_key := "rc_" ++ token_urlsafe fresh in
        let api_key_hash := sha256_hexdigest api_key in
        let agent :=
          {| Agent.id := uuid4 fresh;
             Agent.name := name;
             Agent.wallet_address := wallet_address;
             Agent.private_key_encrypted := private_key;
             Agent.api_key_hash := api_key_hash;
             Agent.deposit_amount := deposit_amount;
             Agent.deposit_tx := None;
             Agent.created_at := now;
             Agent.status := "pending_deposit";
             Agent.closed_at := None;
             Agent.final_equity := None;
             Agent.final_pnl := None;
             Agent.final_pnl_pct := None;
             Agent.withdrawal_tx := None;
             Agent.withdrawal_address := Some withdrawal_address |} in
        execute (create_agent agent) ;;;
        ret (Registered agent api_key)
    end.

(** An entry of the leaderboard. *)
Record LeaderboardRow := {
  lr_name : string;
  lr_deposit_amount : Q;
  lr_current_equity : Q;
  lr_pnl : Q;
  lr_pnl_pct : Q;
  lr_trades : Z;
  lr_win_rate : Q
}.

(** The dict that both leaderboards build for an agent from its stats. *)
Definition leaderboard_row (agent : Agent.t) (stats : Stats) : LeaderboardRow :=
  let current_equity := (Agent.deposit_amount agent + total_pnl stats)%Q in
  let pnl := total_pnl stats in
  let pnl_pct :=
    if gtb (Agent.deposit_amount agent) 0
    then (pnl / Agent.deposit_amount agent * 100)%Q else 0%Q in
  {| lr_name := Agent.name agent;
     lr_deposit_amount := Agent.deposit_amount agent;
     lr_current_equity := current_equity;
     lr_pnl := pnl;
     lr_pnl_pct := pnl_pct;
     lr_trades := total_trades stats;
     lr_win_rate := win_rate stats |}.

(** The context of the leaderboard page. *)
Record LeaderboardPage := {
  lp_agents : list LeaderboardRow;
  lp_total_equity : Q;
  lp_total_trades : Z
}.

(** The loop of [leaderboard]. *)
Fixpoint enrich (agents : list Agent.t) (enriched : list LeaderboardRow)
    (total_equity : Q) (total_trades_ : Z) : M (list LeaderboardRow * Q * Z) :=
  match agents with
  | [] => ret (enriched, total_equity, total_trades_)
  | agent :: rest =>
      stats <- query (get_agent_stats (Agent.id agent)) ;;
      let row := leaderboard_row agent stats in
      enrich rest (enriched ++ [row])
        (total_equity + lr_current_equity row)%Q
        (total_trades_ + total_trades stats)
  end.

Definition leaderboard : M LeaderboardPage :=
  agents <- query get_active_agents ;;
  looped <- enrich agents [] 0%Q 0 ;;
  let '(enriched, total_equity, total_trades_) := looped in
  let enriched := sort_desc (fun y x => gtb (lr_pnl_pct y) (lr_pnl_pct x)) enriched in
  ret {| lp_agents := enriched;
         lp_total_equity := total_equity;
         lp_total_trades := total_trades_ |}.

Definition hall_of_fame : M (list Agent.t) :=
  query get_closed_agents.

(** The loop of [api_leaderboard]. *)
Fixpoint api_leaderboard_rows (agents : list Agent.t) (result : list LeaderboardRow)
    : M (list LeaderboardRow) :=
  match agents with
  | [] => ret result
  | agent :: rest =>
      stats <- query (get_agent_stats (Agent.id agent)) ;;
      api_leaderboard_rows rest (result ++ [leaderboard_row agent stats])
  end.

Definition api_leaderboard : M (list LeaderboardRow) :=
  agents <- query get_active_agents ;;
  result <- api_leaderboard_rows agents [] ;;
  ret (sort_desc (fun y x => gtb (lr_pnl_pct y) (lr_pnl_pct x)) result).

Definition get_agent_from_api_key (api_key : option string) : M Agent.t :=
  match api_key with
  | None => raise (HTTPException 401 "Invalid API key format")
  | Some api_key =>
      if String.eqb api_key EmptyString || negb (String.prefix "rc_" api_key) then
        raise (HTTPException 401 "Invalid API key format")
      else
        let api_key_hash := sha256_hexdigest api_key in
        agent <- query (get_agent_by_api_key_hash api_key_hash) ;;
        match agent with
        | None => raise (HTTPException 401 "Invalid API key")
        | Some agent => ret agent
        end
  end.

Definition api_account (x_api_key : option string) : M Response :=
  agent <- get_agent_from_api_key x_api_key ;;
  stats <- query (get_agent_stats (Agent.id agent)) ;;
  let current_equity := (Agent.deposit_amount agent + total_pnl stats)%Q in
  let pnl := total_pnl stats in
  let pnl_pct :=
    if gtb (Agent.deposit_amount agent) 0
    then (pnl / Agent.deposit_amount agent * 100)%Q else 0%Q in
  ret (Account (Agent.name agent) (Agent.status agent) (Agent.wallet_address agent)
         (Agent.deposit_amount agent) current_equity 0%Q pnl pnl_pct
         (total_trades stats) (win_rate stats)).

(** [float(v)] on a member of a body: the identity on a number. *)
Definition float (v : json) : option Q :=
  match v with
  | JNumber x => Some x
  | JString c rest => float_of_string (String c rest)
  end.

Definition api_place_order (x_api_key : option string) (body : OrderBody) : M Response :=
  agent <- get_agent_from_api_key x_api_key ;;
  if negb (String.eqb (Agent.status agent) "active") then
    raise (HTTPException 400
             ("Agent is " ++ Agent.status agent ++ ", not active. Cannot trade."))
  else
    let order_type := dflt (ob_type body) "market" in
    match ob_symbol body, ob_side body, ob_size body with
    | Some symbol, Some side, Some size =>
        if String.eqb symbol EmptyString || String.eqb side EmptyString
           || negb (truthy size) then
          raise (HTTPException 400 "Missing required fields: symbol, side, size")
        else if negb (String.eqb side "buy" || String.eqb side "sell") then
          raise (HTTPException 400 "side must be 'buy' or 'sell'")
        else
          (* size = float(size); if price: price = float(price) *)
          converted <-
            match float size with
            | None => raise (HTTPException 400 "Invalid size or price")
            | Some size =>
                match ob_price body with
                | None => ret (size, None)
                | Some price =>
                    if truthy price then
                      match float price with
                      | None => raise (HTTPException 400 "Invalid size or price")
                      | Some price => ret (size, Some price)
                      end
                    else
                      (* a falsy price is a zero, and stays as it is *)
                      ret (size, float price)
                end
            end ;;
          let (size, price) := converted in
          trader <- create_trader (Agent.private_key_encrypted agent) ;;
          result <-
            match price with
            | Some price =>
                if String.eqb order_type "market"
                then market_order trader symbol side size (5 # 100)
                else limit_order trader symbol side size price false
            | None => market_order trader symbol side size (5 # 100)
            end ;;
          if success result then
            ret (OrderOk (order_id result) (message result)
                   (filled_size result) (avg_price result))
          else ret (OrderError (message result))
    | _, _, _ => raise (HTTPException 400 "Missing required fields: symbol, side, size")
    end.

Definition api_close_position (x_api_key : option string) (body : CloseBody) : M Response :=
  agent <- get_agent_from_api_key x_api_key ;;
  if negb (String.eqb (Agent.status agent) "active") then
    raise (HTTPException 400 ("Agent is " ++ Agent.status agent ++ ", not active."))
  else
    match cb_symbol body with
    | Some symbol =>
        if String.eqb symbol EmptyString then
          raise (HTTPException 400 "Missing required field: symbol")
        else
          trader <- create_trader (Agent.private_key_encrypted agent) ;;
          result <- close_position trader symbol (5 # 100) ;;
          if success result then
            ret (CloseOk (message result) symbol (filled_size result) (avg_price result))
          else ret (CloseError (message result) symbol)
    | None => raise (HTTPException 400 "Missing required field: symbol")
    end.

Definition api_set_leverage (x_api_key : option string) (body : LeverageBody) : M Response :=
  agent <- get_agent_from_api_key x_api_key ;;
  match lb_symbol body, lb_leverage body with
  | Some symbol, Some leverage =>
      if String.eqb symbol EmptyString then
        raise (HTTPException 400 "Missing required fields: symbol, leverage")
      else
        let margin_type := dflt (lb_margin_type body) "cross" in
        if negb (String.eqb margin_type "cross" || String.eqb margin_type "isolated") then
          raise (HTTPException 400 "margin_type must be 'cross' or 'isolated'")
        else
          trader <- create_trader (Agent.private_key_encrypted agent) ;;
          let is_cross := String.eqb margin_type "cross" in
          success <- set_leverage trader symbol (int leverage) is_cross ;;
          if success then ret (LeverageOk symbol leverage margin_type)
          else ret (LeverageError symbol leverage)
  | _, _ => raise (HTTPException 400 "Missing required fields: symbol, leverage")
  end.

(** Step 1 of [api_close_account]: the loop over the positions. *)
Fixpoint close_each (trader : AgentTrader) (positions : list PositionInfo.t)
    (closed : list ClosedPosition) (errs : list string)
    : M (list ClosedPosition * list string) :=
  match positions with
  | [] => ret (closed, errs)
  | pos :: rest =>
      if neb (PositionInfo.size pos) 0 then
        close_result <- close_position trader (PositionInfo.symbol pos) (5 # 100) ;;
        if success close_result then
          close_each trader rest
            (closed ++ [ {| cp_symbol := PositionInfo.symbol pos;
                            cp_size := PositionInfo.size pos;
                            cp_pnl := PositionInfo.unrealized_pnl pos |} ])
            errs
        else
          close_each trader rest closed
            (errs ++ [ "Failed to close " ++ PositionInfo.symbol pos ++ ": "
                       ++ message close_result ])
      else close_each trader rest closed errs
  end.

Definition api_close_account (x_api_key : option string) (now : datetime) : M Response :=
  agent <- get_agent_from_api_key x_api_key ;;
  if String.eqb (Agent.status agent) "closed" then
    raise (HTTPException 400 "Account already closed.")
  else
    trader <- create_trader (Agent.private_key_encrypted agent) ;;
    (* 1. Close all open positions *)
    positions <- get_positions trader ;;
    step1 <- close_each trader positions [] [] ;;
    let (closed, errs) := step1 in
    (* 2. Cancel all open orders *)
    cancelled_count <- cancel_all_orders trader None ;;
    (* 3. Get final balance *)
    balance_info <- get_balance trader ;;
    let final_balance := account_value balance_info in
    (* 4. Withdrawal note *)
    let results :=
      {| positions_closed := closed;
         orders_cancelled := cancelled_count;
         withdrawal :=
           Some {| wd_address := Agent.withdrawal_address agent;
                   wd_account_value := final_balance;
                   wd_withdrawable := bal_withdrawable balance_info;
                   wd_note := "Manual withdrawal may be required via Hyperliquid UI" |};
         errors := errs |} in
    (* 5. Calculate final P&L and update status *)
    let deposit :=
      if neb (Agent.deposit_amount agent) 0 then Agent.deposit_amount agent else 0%Q in
    let final_pnl := (final_balance - deposit)%Q in
    let final_pnl_pct := if gtb deposit 0 then (final_pnl / deposit * 100)%Q else 0%Q in
    execute (update_agent_status (Agent.id agent) "closed"
               {| kw_name := None;
                  kw_private_key_encrypted := None; kw_api_key_hash := None;
                  kw_deposit_amount := None; kw_deposit_tx := None;
                  kw_created_at := None;
                  kw_closed_at := Some now;
                  kw_final_equity := Some final_balance;
                  kw_final_pnl := Some final_pnl;
                  kw_final_pnl_pct := Some final_pnl_pct;
                  kw_withdrawal_tx := None;
                  kw_withdrawal_address := None |}) ;;;
    match errs with
    | _ :: _ =>
        ret (AccountClosed "partial" "Account closed with some errors"
               final_balance final_pnl results)
    | [] =>
        ret (AccountClosed "ok" "Account closed successfully"
               final_balance final_pnl results)
    end.

(** The requests served by a handler that writes the ledger or goes through
    the gateway, and the account page; the other handlers only read. *)
Inductive Request :=
| POST_register (name : string) (deposit_amount : Q) (withdrawal_address : string)
    (fresh : Fresh) (now : datetime)
| GET_api_account (x_api_key : option string)
| POST_api_order (x_api_key : option string) (body : OrderBody)
| POST_api_close (x_api_key : option string) (body : CloseBody)
| POST_api_leverage (x_api_key : option string) (body : LeverageBody)
| POST_api_close_account (x_api_key : option string) (now : datetime).

Definition handle (r : Request) : M Response :=
  match r with
  | POST_register name deposit_amount withdrawal_address fresh now =>
      register_agent name deposit_amount withdrawal_address fresh now
  | GET_api_account k => api_account k
  | POST_api_order k body => api_place_order k body
  | POST_api_close k body => api_close_position k body
  | POST_api_leverage k body => api_set_leverage k body
  | POST_api_close_account k now => api_close_account k now
  end.

(** The server: requests are handled one after the other. *)
Fixpoint serve (requests : list Request) (w : World) : World :=
  match requests with
  | [] => w
  | r :: rest => serve rest (snd (handle r w))
  end.

End Gateway.

(** * Vocabulary of the properties *)

(** The trades recorded for an agent, and the quantities the statistics are
    stated in. *)
Definition trades_of (agent_id : string) (d : DB) : list Trade.t :=
  filter (fun t => String.eqb (Trade.agent_id t) agent_id) (trades d).

Definition winning (t : Trade.t) : bool :=
  if Qlt_le_dec 0 (Trade.realized_pnl t) then true else false.

Definition Qsum (xs : list Q) : Q := fold_right Qplus 0%Q xs.

Definition no_stats : Stats :=
  {| total_trades := 0; winning_trades := 0; win_rate := 0%Q; total_pnl := 0%Q |}.


(** * Sample data

    The agent of the repository's tests, and a few exchanges. *)

Module Sample.

Definition sha256 (s : string) : string := "sha256:" ++ s.

(** A rounding to the nearest, halves to the even neighbour, for
    [ndigits >= 0].  Away from the halves, and so on every sample below,
    it is what Python's [round] returns. *)
Definition round_half_even (q : Q) : Z :=
  let f := Qfloor q in
  match Qcompare (q - inject_Z f) (1 # 2) with
  | Lt => f
  | Gt => f + 1
  | Eq => if Z.even f then f else f + 1
  end.

Definition round (x : Q) (ndigits : Z) : Q :=
  let scale := inject_Z (10 ^ ndigits) in
  (inject_Z (round_half_even (x * scale)) / scale)%Q.

Definition from_key (private_key : string) : option string :=
  Some ("wallet-of-" ++ private_key).

(** How Python reads the strings that the samples send; no other string
    is sent. *)
Definition float_of_string (s : string) : option Q :=
  if String.eqb s "0" then Some 0%Q
  else if String.eqb s "0.5" then Some (1 # 2)%Q
  else if String.eqb s "2" then Some 2%Q
  else None.

Definition api_key : string := "rc_test_api_key_12345".

(** The letter e with an acute accent: one code point, two bytes. *)
Definition e_acute : string :=
  String (ascii_of_nat 195) (String (ascii_of_nat 169) EmptyString).

Fixpoint repeated (s : string) (n : nat) : string :=
  match n with
  | O => EmptyString
  | S m => s ++ repeated s m
  end.

Definition agent (status : string) (deposit : Q) : Agent.t :=
  {| Agent.id := "test-agent-123";
     Agent.name := "TestAgent";
     Agent.wallet_address := "0x1234567890abcdef1234567890abcdef12345678";
     Agent.private_key_encrypted := "encrypted_key_here";
     Agent.api_key_hash := sha256 api_key;
     Agent.deposit_amount := deposit;
     Agent.deposit_tx := Some "0xdeposit123";
     Agent.created_at := 1700000000;
     Agent.status := status;
     Agent.closed_at := None;
     Agent.final_equity := None;
     Agent.final_pnl := None;
     Agent.final_pnl_pct := None;
     Agent.withdrawal_tx := None;
     Agent.withdrawal_address := None |}.

Definition ledger (a : Agent.t) : DB :=
  {| agents := [a]; trades := []; committed := [] |}.

Definition world (a : Agent.t) : World :=
  {| db := ledger a; calls := [] |}.

Definition trader : AgentTrader :=
  {| address := "wallet-of-0xencrypted_key_here" |}.

(** An exchange that cannot be reached. *)
Definition down : Exchange :=
  {| info_user_state := fun _ _ => Raises "timeout";
     info_open_orders := fun _ _ => Raises "timeout";
     info_all_mids := fun _ => Raises "timeout";
     exchange_order := fun _ _ _ _ _ _ _ => Raises "timeout";
     exchange_cancel := fun _ _ _ => Raises "timeout";
     exchange_update_leverage := fun _ _ _ _ => Raises "timeout" |}.

Definition fill (size price : Q) : HL.OrderResponse :=
  {| HL.status := Some "ok";
     HL.statuses :=
       Some [ {| HL.filled := Some {| HL.filled_oid := Some "77";
                                      HL.totalSz := Some size;
                                      HL.avgPx := Some price |};
                 HL.resting := None |} ];
     HL.repr_statuses := "[{'filled': {...}}]";
     HL.repr_result := "{'status': 'ok', ...}" |}.

(** An account worth [value] that holds the given positions; only BTC and
    SOL are quoted, and every order fills. *)
Definition holding (value : Q) (positions : list HL.AssetPosition) : Exchange :=
  {| info_user_state := fun _ _ =>
       Returns {| HL.accountValue := Some value;
                  HL.totalMarginUsed := Some 0%Q;
                  HL.withdrawable := Some value;
                  HL.assetPositions := positions |};
     info_open_orders := fun _ _ => Returns [];
     info_all_mids := fun _ => Returns [("BTC", 3 # 4); ("SOL", 200 # 1)]%Q;
     exchange_order := fun _ _ _ sz px _ _ => Returns (fill sz px);
     exchange_cancel := fun _ _ _ => Returns (Some "ok");
     exchange_update_leverage := fun _ _ _ _ => Returns (Some "ok") |}.

Definition position (coin : string) (szi : Q) : HL.AssetPosition :=
  {| HL.szi := Some szi;
     HL.coin := Some coin;
     HL.entryPx := Some 1%Q;
     HL.positionValue := Some 1%Q;
     HL.unrealizedPnl := Some 0%Q;
     HL.leverage_value := Some 1 |}.

Definition flat (value : Q) : Exchange := holding value [].

(** A long BTC position and a short ETH one; ETH is not quoted, so its
    close fails. *)
Definition two_positions : Exchange :=
  holding 1500 [position "BTC" (1 # 10); position "ETH" (-1)]%Q.

Definition wallet : string := "wallet-of-0xencrypted_key_here".

Definition trade (agent_id : string) (realized_pnl : Q) : Trade.t :=
  {| Trade.id := 0;
     Trade.agent_id := agent_id;
     Trade.symbol := "BTC";
     Trade.side := "buy";
     Trade.size := 1%Q;
     Trade.price := 100%Q;
     Trade.realized_pnl := realized_pnl;
     Trade.timestamp := 1700000100 |}.

(** Three trades of the test agent, one of them with no P&L, and one trade
    of somebody else. *)
Definition traded : DB :=
  {| agents := [agent "active" 1000];
     trades := [trade "test-agent-123" 30; trade "someone-else" 7;
                trade "test-agent-123" 0; trade "test-agent-123" (-10)]%Q;
     committed := [] |}.

Definition now : datetime := 1700000600.

(** An exchange that quotes prices but refuses every order. *)
Definition refusing : Exchange :=
  {| info_user_state := info_user_state (flat 1500);
     info_open_orders := info_open_orders (flat 1500);
     info_all_mids := info_all_mids (flat 1500);
     exchange_order := fun _ _ _ _ _ _ _ => Raises "insufficient margin";
     exchange_cancel := exchange_cancel (flat 1500);
     exchange_update_leverage := exchange_update_leverage (flat 1500) |}.

Definition open_order (oid : Z) (coin : string) : HL.OpenOrder :=
  {| HL.oid := Some oid;
     HL.o_coin := Some coin;
     HL.o_side := Some "B";
     HL.sz := Some 1%Q;
     HL.limitPx := Some 10%Q;
     HL.orderType := None |}.

(** Two orders are open; cancelling works for BTC and fails for the rest. *)
Definition resting : Exchange :=
  {| info_user_state := info_user_state (flat 1500);
     info_open_orders := fun _ _ => Returns [open_order 1 "ETH"; open_order 2 "BTC"];
     info_all_mids := info_all_mids (flat 1500);
     exchange_order := exchange_order (flat 1500);
     exchange_cancel := fun _ symbol _ =>
       if String.eqb symbol "BTC" then Returns (Some "ok") else Raises "timeout";
     exchange_update_leverage := exchange_update_leverage (flat 1500) |}.

End Sample.

(** * Vocabulary of the runs *)

(** A computation that leaves the ledger as it found it, whatever it
    returns or raises. *)
Definition preserves_db {A : Type} (m : M A) : Prop :=
  forall w, db (snd (m w)) = db w.

(** A computation that always returns. *)
Definition returns {A : Type} (m : M A) : Prop :=
  forall w, exists a w', m w = (Ok a, w').

(** The request carries a well-formed key whose hash selects [agent]. *)
Definition authenticates (sha256_hexdigest : string -> string)
    (x_api_key : option string) (d : DB) (agent : Agent.t) : Prop :=
  exists k,
    x_api_key = Some k /\
    String.prefix "rc_" k = true /\
    get_agent_by_api_key_hash (sha256_hexdigest k) d = Some agent.

(** The key that [AgentTrader.__init__] hands to [Account.from_key]. *)
Definition normalized (private_key : string) : string :=
  if negb (String.prefix "0x" private_key) then "0x" ++ private_key else private_key.

(** No read of the exchange raises: the account state and the open orders
    are always served, and every open order carries its oid. *)
Definition reads_succeed (E : Exchange) : Prop :=
  (forall h a, exists st, info_user_state E h a = Returns st) /\
  (forall h a, exists os,
      info_open_orders E h a = Returns os /\
      Forall (fun o => HL.oid o <> None) os).

(** The deposit as step 5 of the closure reads it, and the figures it
    derives from the final balance. *)
Definition deposit_of (agent : Agent.t) : Q :=
  if neb (Agent.deposit_amount agent) 0 then Agent.deposit_amount agent else 0%Q.

Definition closing_kwargs (agent : Agent.t) (final_balance : Q) (now : datetime) : Kwargs :=
  let deposit := deposit_of agent in
  let final_pnl := (final_balance - deposit)%Q in
  {| kw_name := None; kw_private_key_encrypted := None; kw_api_key_hash := None;
     kw_deposit_amount := None; kw_deposit_tx := None; kw_created_at := None;
     kw_closed_at := Some now;
     kw_final_equity := Some final_balance;
     kw_final_pnl := Some final_pnl;
     kw_final_pnl_pct :=
       Some (if gtb deposit 0 then (final_pnl / deposit * 100)%Q else 0%Q);
     kw_withdrawal_tx := None;
     kw_withdrawal_address := None |}.

(** The positions that [get_positions] derives from an account state. *)
Definition positions_of (st : HL.UserState) : list PositionInfo.t :=
  flat_map position_info (HL.assetPositions st).

(** The response of a completed closure. *)
Definition closure_response (agent : Agent.t) (st : HL.UserState)
    (closed : list ClosedPosition) (errs : list string) (cancelled : Z) : Response :=
  let final_balance := dflt (HL.accountValue st) 0%Q in
  let results :=
    {| positions_closed := closed;
       orders_cancelled := cancelled;
       withdrawal :=
         Some {| wd_address := Agent.withdrawal_address agent;
                 wd_account_value := final_balance;
                 wd_withdrawable := dflt (HL.withdrawable st) 0%Q;
                 wd_note := "Manual withdrawal may be required via Hyperliquid UI" |};
       errors := errs |} in
  match errs with
  | _ :: _ =>
      AccountClosed "partial" "Account closed with some errors"
        final_balance (final_balance - deposit_of agent)%Q results
  | [] =>
      AccountClosed "ok" "Account closed successfully"
        final_balance (final_balance - deposit_of agent)%Q results
  end.

(** The close attempts of step 1 of a closure: one for each position, in
    order, each made in the world that the one before it left, with the
    outcome that [close_position] returned for the position's symbol;
    [None] when an attempt raises. *)
Fixpoint close_attempts (E : Exchange) (round : Q -> Z -> Q) (trader : AgentTrader)
    (positions : list PositionInfo.t) (w : World)
    : option (list (PositionInfo.t * OrderResult) * World) :=
  match positions with
  | [] => Some ([], w)
  | pos :: rest =>
      match close_position E round trader (PositionInfo.symbol pos) (5 # 100) w with
      | (Ok outcome, w1) =>
          match close_attempts E round trader rest w1 with
          | Some (attempts, w2) => Some ((pos, outcome) :: attempts, w2)
          | None => None
          end
      | (Raise _, _) => None
      end
  end.

Definition succeeded (attempt : PositionInfo.t * OrderResult) : bool :=
  success (snd attempt).

(** What the response lists for an attempt that succeeded, and for one
    that failed. *)
Definition closed_entry (attempt : PositionInfo.t * OrderResult) : ClosedPosition :=
  {| cp_symbol := PositionInfo.symbol (fst attempt);
     cp_size := PositionInfo.size (fst attempt);
     cp_pnl := PositionInfo.unrealized_pnl (fst attempt) |}.

Definition failure_entry (attempt : PositionInfo.t * OrderResult) : string :=
  "Failed to close " ++ PositionInfo.symbol (fst attempt) ++ ": "
  ++ message (snd attempt).

(** The size of the account's position in [symbol]: that of the first asset
    position in this coin that is not flat. *)
Fixpoint held (symbol : string) (ps : list HL.AssetPosition) : option Q :=
  match ps with
  | [] => None
  | p :: rest =>
      if String.eqb (dflt (HL.coin p) EmptyString) symbol && neb (dflt (HL.szi p) 0%Q) 0
      then Some (dflt (HL.szi p) 0%Q)
      else held symbol rest
  end.


(** What one request may do to a stored agent: leave the row as it is, or
    close it, which takes a row that is not closed yet. *)
Definition row_step (r r' : Agent.t) : Prop :=
  r' = r \/
  (Agent.status r <> "closed" /\ Agent.status r' = "closed" /\ Agent.id r' = Agent.id r).

(** The primary key of the [agents] table. *)
Definition unique_ids (d : DB) : Prop := NoDup (map Agent.id (agents d)).

(** * Vocabulary of the further properties *)

(** The [UNIQUE] constraint on [wallet_address]. *)
Definition unique_wallets (d : DB) : Prop :=
  NoDup (map Agent.wallet_address (agents d)).

(** Two versions of a row agree on the columns that are fixed at
    registration. *)
Definition same_identity (r r' : Agent.t) : Prop :=
  Agent.id r' = Agent.id r /\
  Agent.name r' = Agent.name r /\
  Agent.wallet_address r' = Agent.wallet_address r /\
  Agent.private_key_encrypted r' = Agent.private_key_encrypted r /\
  Agent.api_key_hash r' = Agent.api_key_hash r /\
  Agent.deposit_amount r' = Agent.deposit_amount r /\
  Agent.created_at r' = Agent.created_at r /\
  Agent.withdrawal_address r' = Agent.withdrawal_address r.

(** Ranks, best first.  A closed agent without a final percentage ranks
    below every agent that has one. *)
Definition pct_ge (a b : Agent.t) : Prop :=
  match Agent.final_pnl_pct b with
  | None => True
  | Some q =>
      match Agent.final_pnl_pct a with
      | Some p => (q <= p)%Q
      | None => False
      end
  end.

Definition newer_agent (a b : Agent.t) : Prop := Agent.created_at b <= Agent.created_at a.

Definition newer_trade (a b : Trade.t) : Prop := Trade.timestamp b <= Trade.timestamp a.

Definition row_ge (a b : LeaderboardRow) : Prop := (lr_pnl_pct b <= lr_pnl_pct a)%Q.

(** The leaderboard entry of an agent, from the statistics of the store. *)
Definition row_of (d : DB) (agent : Agent.t) : LeaderboardRow :=
  leaderboard_row agent (get_agent_stats (Agent.id agent) d).

Definition Zsum (xs : list Z) : Z := fold_right Z.add 0 xs.

(** Agent names are kept unique by the registration handler. *)
Definition unique_names (d : DB) : Prop := NoDup (map Agent.name (agents d)).

(** The closure columns of a row are all set when it is closed and all
    empty when it is not. *)
Definition closure_consistent (r : Agent.t) : Prop :=
  if String.eqb (Agent.status r) "closed"
  then Agent.closed_at r <> None /\ Agent.final_equity r <> None /\
       Agent.final_pnl r <> None /\ Agent.final_pnl_pct r <> None
  else Agent.closed_at r = None /\ Agent.final_equity r = None /\
       Agent.final_pnl r = None /\ Agent.final_pnl_pct r = None.
(** * Properties *)

(** ** Ledger store: statistics *)

Lemma gtb_spec (x y : Q) : gtb x y = true <-> (y < x)%Q.
Proof.
  unfold gtb. rewrite negb_true_iff. split; intro H.
  - apply Qnot_le_lt. intro Hle. apply Qle_bool_iff in Hle. congruence.
  - destruct (Qle_bool x y) eqn:Hb; [|reflexivity].
    apply Qle_bool_iff in Hb. exfalso. exact (Qlt_not_le _ _ H Hb).
Qed.

Lemma gtb_winning (t : Trade.t) : gtb (Trade.realized_pnl t) 0 = winning t.
Proof.
  unfold winning. destruct (Qlt_le_dec 0 (Trade.realized_pnl t)) as [Hlt|Hle].
  - apply gtb_spec. exact Hlt.
  - destruct (gtb (Trade.realized_pnl t) 0) eqn:Hg; [|reflexivity].
    apply gtb_spec in Hg. exfalso. exact (Qlt_not_le _ _ Hg Hle).
Qed.

Lemma or_Z_some (x : Z) : or_Z (Some x) 0 = x.
Proof. unfold or_Z. destruct (Z.eqb_spec x 0); congruence. Qed.

Lemma or_Z_sum (xs : list Z) : or_Z (sql_sum_int xs) 0 = fold_left Z.add xs 0.
Proof. destruct xs; [reflexivity|]. unfold sql_sum_int. apply or_Z_some. Qed.

Lemma fold_wins (rows : list Trade.t) (acc : Z) :
  fold_left Z.add
    (map (fun t => if gtb (Trade.realized_pnl t) 0 then 1 else 0) rows) acc
  = acc + Z.of_nat (List.length (filter winning rows)).
Proof.
  revert acc. induction rows as [|t rows IH]; intro acc; simpl.
  - lia.
  - rewrite IH, gtb_winning. destruct (winning t); simpl List.length; lia.
Qed.

Lemma or_Q_some (x : Q) : (or_Q (Some x) 0 == x)%Q.
Proof.
  unfold or_Q. destruct (Qeq_bool x 0) eqn:Hx; [|reflexivity].
  apply Qeq_bool_eq in Hx. symmetry. exact Hx.
Qed.

Lemma fold_Qplus (xs : list Q) (acc : Q) :
  (fold_left Qplus xs acc == acc + Qsum xs)%Q.
Proof.
  revert acc. induction xs as [|x xs IH]; intro acc; simpl.
  - ring.
  - rewrite IH. ring.
Qed.

Lemma or_Q_sum (xs : list Q) : (or_Q (sql_sum_real xs) 0 == Qsum xs)%Q.
Proof.
  destruct xs as [|x xs]; [reflexivity|].
  unfold sql_sum_real. rewrite or_Q_some, fold_Qplus. ring.
Qed.

Example get_agent_stats_sample :
  total_trades (get_agent_stats "test-agent-123" Sample.traded) = 3 /\
  winning_trades (get_agent_stats "test-agent-123" Sample.traded) = 1 /\
  (win_rate (get_agent_stats "test-agent-123" Sample.traded) == 100 # 3)%Q /\
  (total_pnl (get_agent_stats "test-agent-123" Sample.traded) == 20)%Q /\
  get_agent_stats "nobody" Sample.traded = no_stats.
Proof. repeat split. Qed.

(** C8. [get_agent_stats] returns the number N of the agent's trades, the
    number w of those with [realized_pnl > 0], the win rate w/N*100 (0 when
    N = 0) and the sum of the realized P&L; with no trade it returns
    {0, 0, 0.0, 0}. *)
Theorem get_agent_stats_correct (agent_id : string) (d : DB) :
  let rows := trades_of agent_id d in
  let N := Z.of_nat (List.length rows) in
  let w := Z.of_nat (List.length (filter winning rows)) in
  let s := get_agent_stats agent_id d in
  total_trades s = N /\
  winning_trades s = w /\
  (win_rate s == if 0 <? N then inject_Z w / inject_Z N * 100 else 0)%Q /\
  (total_pnl s == Qsum (map Trade.realized_pnl rows))%Q /\
  match rows with
  | [] => s = no_stats
  | _ :: _ => True
  end.
Proof.
  intros rows N w s.
  assert (HN : total_trades s = N).
  { unfold s, get_agent_stats. cbn [total_trades]. apply or_Z_some. }
  assert (Hw : winning_trades s = w).
  { unfold s, get_agent_stats. cbn [winning_trades].
    rewrite or_Z_sum, fold_wins. reflexivity. }
  repeat split.
  - exact HN.
  - exact Hw.
  - change (win_rate s)
      with (if 0 <? total_trades s
            then (inject_Z (winning_trades s) / inject_Z (total_trades s) * 100)%Q
            else 0%Q).
    rewrite HN, Hw. reflexivity.
  - unfold s, get_agent_stats. cbn [total_pnl]. apply or_Q_sum.
  - destruct rows as [|t rows'] eqn:Hrows; [|exact I].
    unfold s, get_agent_stats. fold (trades_of agent_id d).
    fold rows. rewrite Hrows. reflexivity.
Qed.

(** ** Ledger store: status update *)

Lemma update_no_match (agent_id status : string) (kw : Kwargs) (rows : list Agent.t) :
  find (fun r => String.eqb (Agent.id r) agent_id) rows = None ->
  map (fun r => if String.eqb (Agent.id r) agent_id then update_row status kw r else r) rows
  = rows.
Proof.
  induction rows as [|r rows IH]; simpl; intro H; [reflexivity|].
  destruct (String.eqb (Agent.id r) agent_id); [discriminate|].
  rewrite IH by exact H. reflexivity.
Qed.

(** C10. For an id that matches no stored record, [update_agent_status]
    returns normally and leaves every row as it was; its result is the same
    [None] that any other update returns. *)
Theorem update_agent_status_unknown_id
    (agent_id status : string) (kw : Kwargs) (d : DB)
    (Hmiss : get_agent agent_id d = None) :
  fst (update_agent_status agent_id status kw d) = Ok tt /\
  agents (snd (update_agent_status agent_id status kw d)) = agents d /\
  trades (snd (update_agent_status agent_id status kw d)) = trades d /\
  forall agent_id' status' kw' d',
    fst (update_agent_status agent_id' status' kw' d')
    = fst (update_agent_status agent_id status kw d).
Proof.
  unfold get_agent in Hmiss. unfold update_agent_status. cbn.
  rewrite update_no_match by exact Hmiss. auto.
Qed.

Lemma update_agent_status_unknown_id_witness :
  get_agent "nobody" (Sample.ledger (Sample.agent "active" 1000)) = None /\
  agents (snd (update_agent_status "nobody" "closed" no_kwargs
                 (Sample.ledger (Sample.agent "active" 1000))))
  = agents (Sample.ledger (Sample.agent "active" 1000)).
Proof.
  split; [reflexivity|].
  apply (update_agent_status_unknown_id "nobody" "closed" no_kwargs
           (Sample.ledger (Sample.agent "active" 1000))).
  reflexivity.
Defined.

(** ** Rounding *)

Example round_samples :
  (Sample.round (15 # 16) 2 == 94 # 100)%Q /\
  (Sample.round (1 # 8) 2 == 12 # 100)%Q /\
  (Sample.round (3 # 8) 2 == 38 # 100)%Q /\
  (Sample.round (- (57 # 80)) 2 == - (71 # 100))%Q.
Proof. repeat split. Qed.

Lemma round_half_even_close (q : Q) :
  (Qabs (inject_Z (Sample.round_half_even q) - q) <= 1 # 2)%Q.
Proof.
  unfold Sample.round_half_even.
  pose proof (Qfloor_le q) as Hle.
  pose proof (Qlt_floor q) as Hlt.
  rewrite inject_Z_plus in Hlt. change (inject_Z 1) with 1%Q in Hlt.
  apply Qabs_Qle_condition.
  destruct (Qcompare_spec (q - inject_Z (Qfloor q)) (1 # 2)) as [He|Hl|Hg];
    [destruct (Z.even (Qfloor q))| |];
    rewrite ?inject_Z_plus; change (inject_Z 1) with 1%Q;
    generalize dependent (inject_Z (Qfloor q)); intros f Hle Hlt Hcmp; split; lra.
Qed.

(** The sample rounding to two decimals moves [x] by at most half a cent. *)
Lemma round_close (x : Q) : (Qabs (Sample.round x 2 - x) <= 1 # 200)%Q.
Proof.
  unfold Sample.round. change (inject_Z (10 ^ 2)) with 100%Q.
  pose proof (round_half_even_close (x * 100)) as H.
  apply Qabs_Qle_condition in H. apply Qabs_Qle_condition.
  set (r := inject_Z (Sample.round_half_even (x * 100))) in *.
  unfold Qdiv. change (/ 100)%Q with (1 # 100)%Q.
  split; lra.
Qed.

(** ** Runs of the state and exception monad *)

Lemma bind_ok {A B : Type} (m : M A) (k : A -> M B) (w w' : World) (a : A) :
  m w = (Ok a, w') -> bind m k w = k a w'.
Proof. intro H. unfold bind. rewrite H. reflexivity. Qed.

Lemma bind_raise {A B : Type} (m : M A) (k : A -> M B) (w w' : World) (e : exn) :
  m w = (Raise e, w') -> bind m k w = (Raise e, w').
Proof. intro H. unfold bind. rewrite H. reflexivity. Qed.

Lemma remote_call_returns {A : Type} (c : Call) (answer : list Call -> remote A)
    (w : World) (a : A) :
  answer (calls w) = Returns a -> remote_call c answer w = (Ok a, logged c w).
Proof. intro H. unfold remote_call. rewrite H. reflexivity. Qed.

Lemma remote_call_raises {A : Type} (c : Call) (answer : list Call -> remote A)
    (w : World) (msg : string) :
  answer (calls w) = Raises msg -> remote_call c answer w = (Raise (Error msg), logged c w).
Proof. intro H. unfold remote_call. rewrite H. reflexivity. Qed.

Lemma pd_ret {A : Type} (a : A) : preserves_db (ret a).
Proof. intro w. reflexivity. Qed.

Lemma pd_raise {A : Type} (e : exn) : preserves_db (@raise A e).
Proof. intro w. reflexivity. Qed.

Lemma pd_bind {A B : Type} (m : M A) (k : A -> M B) :
  preserves_db m -> (forall a, preserves_db (k a)) -> preserves_db (bind m k).
Proof.
  intros Hm Hk w. unfold bind. specialize (Hm w).
  destruct (m w) as [[a|e] w1]; cbn in *.
  - rewrite Hk. exact Hm.
  - exact Hm.
Qed.

Lemma pd_try {A : Type} (body : M A) (handler : exn -> M A) :
  preserves_db body -> (forall e, preserves_db (handler e)) ->
  preserves_db (try_except body handler).
Proof.
  intros Hb Hh w. unfold try_except. specialize (Hb w).
  destruct (body w) as [[a|e] w1]; cbn in *.
  - exact Hb.
  - rewrite Hh. exact Hb.
Qed.

Lemma pd_query {A : Type} (f : DB -> A) : preserves_db (query f).
Proof. intro w. reflexivity. Qed.

Lemma pd_remote {A : Type} (c : Call) (answer : list Call -> remote A) :
  preserves_db (remote_call c answer).
Proof. intro w. unfold remote_call. destruct (answer (calls w)); reflexivity. Qed.

Lemma returns_try {A : Type} (body : M A) (handler : exn -> M A) :
  (forall e, returns (handler e)) -> returns (try_except body handler).
Proof.
  intros Hh w. unfold try_except.
  destruct (body w) as [[a|e] w1].
  - exists a, w1. reflexivity.
  - apply Hh.
Qed.

Lemma returns_ret {A : Type} (a : A) : returns (ret a).
Proof. intro w. exists a, w. reflexivity. Qed.

Ltac pd_step :=
  first [ apply pd_bind; [|intro]
        | apply pd_try; [|intro]
        | apply pd_ret | apply pd_raise | apply pd_query | apply pd_remote ].

(** ** Exchange gateway *)

Section GatewayFacts.

Variable E : Exchange.
Variable address_of_key : string -> option string.
Variable round : Q -> Z -> Q.

Lemma get_positions_returns (self : AgentTrader) (w : World) (st : HL.UserState) :
  info_user_state E (calls w) (address self) = Returns st ->
  get_positions E self w
  = (Ok (flat_map position_info (HL.assetPositions st)),
     logged (user_state (address self)) w).
Proof.
  intro H. unfold get_positions.
  erewrite bind_ok by (apply remote_call_returns; exact H). reflexivity.
Qed.

Lemma get_positions_raises (self : AgentTrader) (w : World) (msg : string) :
  info_user_state E (calls w) (address self) = Raises msg ->
  get_positions E self w = (Raise (Error msg), logged (user_state (address self)) w).
Proof.
  intro H. unfold get_positions.
  erewrite bind_raise by (apply remote_call_raises; exact H). reflexivity.
Qed.

Lemma get_balance_returns (self : AgentTrader) (w : World) (st : HL.UserState) :
  info_user_state E (calls w) (address self) = Returns st ->
  get_balance E self w
  = (Ok {| account_value := dflt (HL.accountValue st) 0%Q;
           total_margin_used := dflt (HL.totalMarginUsed st) 0%Q;
           bal_withdrawable := dflt (HL.withdrawable st) 0%Q |},
     logged (user_state (address self)) w).
Proof.
  intro H. unfold get_balance.
  erewrite bind_ok by (apply remote_call_returns; exact H). reflexivity.
Qed.

(** The four guarded operations return an outcome whatever the exchange
    does. *)
Lemma market_order_returns (self : AgentTrader) (symbol side : string) (size slippage : Q) :
  returns (market_order E round self symbol side size slippage).
Proof. apply returns_try. intro e. apply returns_ret. Qed.

Lemma limit_order_returns (self : AgentTrader) (symbol side : string) (size price : Q)
    (reduce_only : bool) :
  returns (limit_order E self symbol side size price reduce_only).
Proof. apply returns_try. intro e. apply returns_ret. Qed.

Lemma cancel_order_returns (self : AgentTrader) (symbol : string) (order_id : Z) :
  returns (cancel_order E self symbol order_id).
Proof. apply returns_try. intro e. apply returns_ret. Qed.

Lemma set_leverage_returns (self : AgentTrader) (symbol : string) (leverage : Z)
    (is_cross : bool) :
  returns (set_leverage E self symbol leverage is_cross).
Proof. apply returns_try. intro e. apply returns_ret. Qed.

(** On a remote error the outcome of a market order is a failure that
    carries the error's text. *)
Lemma market_order_remote_error (self : AgentTrader) (symbol side : string)
    (size slippage : Q) (w : World) (msg : string) :
  info_all_mids E (calls w) = Raises msg ->
  market_order E round self symbol side size slippage w
  = (Ok (failed ("Error: " ++ msg)), logged all_mids w).
Proof.
  intro H. unfold market_order, try_except.
  erewrite bind_raise by (apply remote_call_raises; exact H). reflexivity.
Qed.

Lemma pd_market_order (self : AgentTrader) (symbol side : string) (size slippage : Q) :
  preserves_db (market_order E round self symbol side size slippage).
Proof.
  unfold market_order. repeat pd_step.
  destruct (lookup symbol a); repeat pd_step.
Qed.

Lemma pd_limit_order (self : AgentTrader) (symbol side : string) (size price : Q)
    (reduce_only : bool) :
  preserves_db (limit_order E self symbol side size price reduce_only).
Proof. unfold limit_order. repeat pd_step. Qed.

Lemma pd_get_positions (self : AgentTrader) : preserves_db (get_positions E self).
Proof. unfold get_positions. repeat pd_step. Qed.

Lemma pd_get_balance (self : AgentTrader) : preserves_db (get_balance E self).
Proof. unfold get_balance. repeat pd_step. Qed.

Lemma pd_get_open_orders (self : AgentTrader) : preserves_db (get_open_orders E self).
Proof. unfold get_open_orders. repeat pd_step. Qed.

Lemma pd_close_position (self : AgentTrader) (symbol : string) (slippage : Q) :
  preserves_db (close_position E round self symbol slippage).
Proof.
  unfold close_position. apply pd_bind; [apply pd_get_positions|]. intro positions.
  destruct (find _ positions); [apply pd_market_order|apply pd_ret].
Qed.

Lemma pd_cancel_order (self : AgentTrader) (symbol : string) (order_id : Z) :
  preserves_db (cancel_order E self symbol order_id).
Proof. unfold cancel_order. repeat pd_step. Qed.

Lemma pd_cancel_each (self : AgentTrader) (orders : list OpenOrderInfo) (cancelled : Z) :
  preserves_db (cancel_each E self orders cancelled).
Proof.
  revert cancelled. induction orders as [|o rest IH]; intro cancelled; simpl.
  - apply pd_ret.
  - destruct (oo_order_id o); [|apply pd_raise].
    apply pd_bind; [apply pd_cancel_order|]. intro ok. apply IH.
Qed.

Lemma pd_cancel_all_orders (self : AgentTrader) (symbol : option string) :
  preserves_db (cancel_all_orders E self symbol).
Proof.
  unfold cancel_all_orders. apply pd_bind; [apply pd_get_open_orders|].
  intro orders. apply pd_cancel_each.
Qed.

Lemma pd_set_leverage (self : AgentTrader) (symbol : string) (leverage : Z)
    (is_cross : bool) :
  preserves_db (set_leverage E self symbol leverage is_cross).
Proof. unfold set_leverage. repeat pd_step. Qed.

Lemma pd_create_trader (private_key : string) :
  preserves_db (create_trader address_of_key private_key).
Proof. unfold create_trader. destruct (address_of_key _); repeat pd_step. Qed.

(** C5. A trading operation must hand every remote error back as a failed
    outcome.  [close_position] does not: when the exchange fails on the
    position lookup, the exception leaves [close_position]. *)
Theorem close_position_propagates (self : AgentTrader) (symbol : string)
    (slippage : Q) (w : World) (msg : string)
    (Hdown : info_user_state E (calls w) (address self) = Raises msg) :
  close_position E round self symbol slippage w
  = (Raise (Error msg), logged (user_state (address self)) w).
Proof.
  unfold close_position.
  apply bind_raise. apply get_positions_raises. exact Hdown.
Qed.

Lemma find_held (symbol : string) (ps : list HL.AssetPosition) :
  option_map PositionInfo.size
    (find (fun p => String.eqb (PositionInfo.symbol p) symbol) (flat_map position_info ps))
  = held symbol ps.
Proof.
  induction ps as [|p ps IH]; simpl; [reflexivity|].
  unfold position_info at 1.
  destruct (neb (dflt (HL.szi p) 0%Q) 0) eqn:Hnz; simpl.
  - destruct (String.eqb (dflt (HL.coin p) EmptyString) symbol); simpl; [reflexivity|exact IH].
  - rewrite andb_false_r. exact IH.
Qed.

Lemma gtb_dec (x : Q) :
  (if gtb x 0 then "sell" else "buy") = (if Qlt_le_dec 0 x then "sell" else "buy").
Proof.
  destruct (Qlt_le_dec 0 x) as [Hlt|Hle].
  - apply gtb_spec in Hlt. rewrite Hlt. reflexivity.
  - destruct (gtb x 0) eqn:Hg; [|reflexivity].
    apply gtb_spec in Hg. exfalso. exact (Qlt_not_le _ _ Hg Hle).
Qed.

(** C6, as the code has it: when the account holds no position in the
    symbol, or a flat one, [close_position] sends no order and returns the
    failed outcome "No position in <symbol>"; when it holds a position of
    size s, [close_position] is the market order of size |s| on the
    opposite side, a sell for a long position and a buy for a short one. *)
Theorem close_position_by_holding (self : AgentTrader) (symbol : string)
    (slippage : Q) (w : World) (st : HL.UserState)
    (Hst : info_user_state E (calls w) (address self) = Returns st) :
  close_position E round self symbol slippage w
  = match held symbol (HL.assetPositions st) with
    | None =>
        (Ok {| success := false; order_id := None;
               message := "No position in " ++ symbol;
               filled_size := 0%Q; avg_price := 0%Q |},
         logged (user_state (address self)) w)
    | Some s =>
        market_order E round self symbol (if Qlt_le_dec 0 s then "sell" else "buy")
          (Qabs s) slippage (logged (user_state (address self)) w)
    end.
Proof.
  unfold close_position.
  rewrite (bind_ok _ _ _ _ _ (get_positions_returns self w st Hst)).
  rewrite <- find_held.
  destruct (find _ (flat_map position_info (HL.assetPositions st))) as [p|]; simpl.
  - rewrite gtb_dec. reflexivity.
  - reflexivity.
Qed.



End GatewayFacts.

Lemma close_position_propagates_witness :
  info_user_state Sample.down [] (address Sample.trader) = Raises "timeout" /\
  close_position Sample.down Sample.round Sample.trader "BTC" (5 # 100)
    (Sample.world (Sample.agent "active" 1000))
  = (Raise (Error "timeout"),
     logged (user_state (address Sample.trader))
       (Sample.world (Sample.agent "active" 1000))).
Proof.
  split; [reflexivity|].
  apply (close_position_propagates Sample.down Sample.round Sample.trader "BTC" (5 # 100)
           (Sample.world (Sample.agent "active" 1000)) "timeout").
  reflexivity.
Defined.

(** ** Account lifecycle *)

Section AppFacts.

Variable E : Exchange.
Variable address_of_key : string -> option string.
Variable sha256_hexdigest : string -> string.
Variable round : Q -> Z -> Q.
Variable float_of_string : string -> option Q.

Lemma prefix_nonempty (p k : string) :
  p <> EmptyString -> String.prefix p k = true -> String.eqb k EmptyString = false.
Proof. intros Hp H. destruct k; [destruct p; [congruence|discriminate]|reflexivity]. Qed.

Lemma authenticated (x_api_key : option string) (w : World) (agent : Agent.t) :
  authenticates sha256_hexdigest x_api_key (db w) agent ->
  get_agent_from_api_key sha256_hexdigest x_api_key w = (Ok agent, w).
Proof.
  intros (k & -> & Hp & Hfind). unfold get_agent_from_api_key.
  rewrite (prefix_nonempty "rc_" k) by (discriminate || exact Hp).
  rewrite Hp. cbn [negb orb].
  unfold bind, query. rewrite Hfind. reflexivity.
Qed.

(** A request either authenticates as a stored agent or is refused with
    401; the ledger and the call log are not touched. *)
Lemma get_agent_from_api_key_cases (x_api_key : option string) (w : World) :
  (exists agent,
      authenticates sha256_hexdigest x_api_key (db w) agent /\
      get_agent_from_api_key sha256_hexdigest x_api_key w = (Ok agent, w))
  \/ (exists detail,
      get_agent_from_api_key sha256_hexdigest x_api_key w
      = (Raise (HTTPException 401 detail), w)).
Proof.
  unfold get_agent_from_api_key.
  destruct x_api_key as [k|]; [|right; eexists; reflexivity].
  destruct (String.eqb k EmptyString) eqn:Hk; [right; eexists; reflexivity|].
  destruct (String.prefix "rc_" k) eqn:Hp; [|right; eexists; reflexivity].
  cbn [negb orb]. unfold bind, query.
  destruct (get_agent_by_api_key_hash (sha256_hexdigest k) (db w)) as [agent|] eqn:Hfind.
  - left. exists agent. split; [|reflexivity]. exists k. auto.
  - right. eexists. reflexivity.
Qed.

Lemma close_account_closed_run
    (x_api_key : option string) (now : datetime) (w : World) (agent : Agent.t) :
  authenticates sha256_hexdigest x_api_key (db w) agent ->
  Agent.status agent = "closed" ->
  api_close_account E address_of_key sha256_hexdigest round x_api_key now w
  = (Raise (HTTPException 400 "Account already closed."), w).
Proof.
  intros Hauth Hclosed. unfold api_close_account.
  rewrite (bind_ok _ _ w w agent) by (apply authenticated; exact Hauth).
  rewrite Hclosed. reflexivity.
Qed.

(** C1. A close-account request of an agent whose status is [closed] is
    refused with HTTP 400 "Account already closed."; the world after the
    call is the world before it: no exchange call is logged, no statement
    is committed and every ledger row, the agent's included, is as it
    was. *)
Theorem close_account_rejects_closed
    (x_api_key : option string) (now : datetime) (w : World) (agent : Agent.t)
    (Hauth : authenticates sha256_hexdigest x_api_key (db w) agent)
    (Hclosed : Agent.status agent = "closed") :
  api_close_account E address_of_key sha256_hexdigest round x_api_key now w
  = (Raise (HTTPException 400 "Account already closed."), w) /\
  calls (snd (api_close_account E address_of_key sha256_hexdigest round x_api_key now w))
  = calls w /\
  committed (db (snd (api_close_account E address_of_key sha256_hexdigest round x_api_key now w)))
  = committed (db w) /\
  get_agent (Agent.id agent)
    (db (snd (api_close_account E address_of_key sha256_hexdigest round x_api_key now w)))
  = get_agent (Agent.id agent) (db w).
Proof.
  rewrite (close_account_closed_run x_api_key now w agent Hauth Hclosed).
  repeat split.
Qed.

(** The two guarded trading handlers refuse an agent that is not active,
    naming its status, and touch neither the exchange nor the ledger. *)
Lemma place_order_requires_active
    (x_api_key : option string) (body : OrderBody) (w : World) (agent : Agent.t) :
  authenticates sha256_hexdigest x_api_key (db w) agent ->
  Agent.status agent <> "active" ->
  api_place_order E address_of_key sha256_hexdigest round float_of_string x_api_key body w
  = (Raise (HTTPException 400
              ("Agent is " ++ Agent.status agent ++ ", not active. Cannot trade.")), w).
Proof.
  intros Hauth Hst. unfold api_place_order.
  rewrite (bind_ok _ _ w w agent) by (apply authenticated; exact Hauth).
  destruct (String.eqb_spec (Agent.status agent) "active"); [contradiction|].
  reflexivity.
Qed.

Lemma close_position_requires_active
    (x_api_key : option string) (body : CloseBody) (w : World) (agent : Agent.t) :
  authenticates sha256_hexdigest x_api_key (db w) agent ->
  Agent.status agent <> "active" ->
  api_close_position E address_of_key sha256_hexdigest round x_api_key body w
  = (Raise (HTTPException 400 ("Agent is " ++ Agent.status agent ++ ", not active.")), w).
Proof.
  intros Hauth Hst. unfold api_close_position.
  rewrite (bind_ok _ _ w w agent) by (apply authenticated; exact Hauth).
  destruct (String.eqb_spec (Agent.status agent) "active"); [contradiction|].
  reflexivity.
Qed.

Lemma create_trader_returns (private_key addr : string) (w : World) :
  address_of_key (normalized private_key) = Some addr ->
  create_trader address_of_key private_key w = (Ok {| address := addr |}, w).
Proof. intro H. unfold create_trader. fold (normalized private_key). rewrite H. reflexivity. Qed.

Lemma set_leverage_run (self : AgentTrader) (symbol : string) (leverage : Z)
    (is_cross : bool) (w : World) :
  exists ok,
    set_leverage E self symbol leverage is_cross w
    = (Ok ok, logged (update_leverage leverage symbol is_cross) w).
Proof.
  unfold set_leverage, try_except, bind, remote_call, ret.
  destruct (exchange_update_leverage E (calls w) leverage symbol is_cross);
    eexists; reflexivity.
Qed.

(** C7. A trading request of an agent that is not active must be refused
    before the exchange is called.  [api_set_leverage] has no such check:
    whatever the agent's status, the leverage update is sent to the
    exchange. *)
Theorem set_leverage_ignores_status
    (x_api_key : option string) (body : LeverageBody) (w : World) (agent : Agent.t)
    (symbol addr : string) (leverage : Q)
    (Hauth : authenticates sha256_hexdigest x_api_key (db w) agent)
    (Hsymbol : lb_symbol body = Some symbol)
    (Hnonempty : symbol <> EmptyString)
    (Hleverage : lb_leverage body = Some leverage)
    (Hmargin : lb_margin_type body = None)
    (Hkey : address_of_key (normalized (Agent.private_key_encrypted agent)) = Some addr) :
  calls (snd (api_set_leverage E address_of_key sha256_hexdigest x_api_key body w))
  = update_leverage (int leverage) symbol true :: calls w.
Proof.
  unfold api_set_leverage.
  rewrite (bind_ok _ _ w w agent) by (apply authenticated; exact Hauth).
  rewrite Hsymbol, Hleverage, Hmargin.
  destruct (String.eqb_spec symbol EmptyString); [contradiction|].
  cbn [dflt String.eqb Ascii.eqb Bool.eqb orb negb].
  rewrite (bind_ok _ _ w w {| address := addr |})
    by (apply create_trader_returns; exact Hkey).
  destruct (set_leverage_run {| address := addr |} symbol (int leverage) true w)
    as [ok Hok].
  rewrite (bind_ok _ _ _ _ _ Hok). destruct ok; reflexivity.
Qed.

Lemma pd_run {A : Type} (m : M A) (w w' : World) (r : result A) :
  preserves_db m -> m w = (r, w') -> db w' = db w.
Proof. intros Hpd Hrun. specialize (Hpd w). rewrite Hrun in Hpd. exact Hpd. Qed.

Lemma pd_close_each (trader : AgentTrader) (positions : list PositionInfo.t)
    (closed : list ClosedPosition) (errs : list string) :
  preserves_db (close_each E round trader positions closed errs).
Proof.
  revert closed errs. induction positions as [|pos rest IH]; intros closed errs; simpl.
  - apply pd_ret.
  - destruct (neb (PositionInfo.size pos) 0); [|apply IH].
    apply pd_bind; [apply pd_close_position|]. intro r.
    destruct (success r); apply IH.
Qed.

Lemma close_position_returns (self : AgentTrader) (symbol : string) (slippage : Q)
    (w : World) :
  (exists st, info_user_state E (calls w) (address self) = Returns st) ->
  exists r w', close_position E round self symbol slippage w = (Ok r, w').
Proof.
  intros [st Hst]. unfold close_position.
  rewrite (bind_ok _ _ _ _ _ (get_positions_returns E self w st Hst)).
  destruct (find _ _).
  - apply market_order_returns.
  - eexists. eexists. reflexivity.
Qed.

Lemma positions_open (ps : list HL.AssetPosition) :
  Forall (fun p => neb (PositionInfo.size p) 0 = true) (flat_map position_info ps).
Proof.
  induction ps as [|p ps IH]; simpl; [constructor|].
  apply Forall_app. split; [|exact IH].
  unfold position_info. destruct (neb (dflt (HL.szi p) 0%Q) 0) eqn:Hnz; constructor.
  - exact Hnz.
  - constructor.
Qed.

(** Step 1 runs to its end when the account state can be read: it makes one
    close attempt for each open position, in order, and files the attempt
    among the closed positions when its outcome is a success and among the
    errors, with the message of the outcome, when it is not. *)
Lemma close_each_trace (trader : AgentTrader) (positions : list PositionInfo.t) :
  (forall h a, exists st, info_user_state E h a = Returns st) ->
  Forall (fun p => neb (PositionInfo.size p) 0 = true) positions ->
  forall closed errs w,
  exists attempts w',
    close_attempts E round trader positions w = Some (attempts, w') /\
    map fst attempts = positions /\
    close_each E round trader positions closed errs w
    = (Ok ((closed ++ map closed_entry (filter succeeded attempts))%list,
           (errs ++ map failure_entry
                      (filter (fun a => negb (succeeded a)) attempts))%list),
       w').
Proof.
  intros Hus Hopen. induction Hopen as [|pos rest Hpos _ IH]; intros closed errs w.
  - exists [], w. cbn. rewrite !app_nil_r. repeat split.
  - cbn [close_each close_attempts]. rewrite Hpos.
    destruct (close_position_returns trader (PositionInfo.symbol pos) (5 # 100) w
                (Hus _ _)) as (r & w1 & Hr).
    rewrite (bind_ok _ _ _ _ _ Hr), Hr.
    destruct (success r) eqn:Hsuccess.
    + destruct (IH (closed ++ [ {| cp_symbol := PositionInfo.symbol pos;
                                   cp_size := PositionInfo.size pos;
                                   cp_pnl := PositionInfo.unrealized_pnl pos |} ])%list
                  errs w1) as (attempts & w' & Hattempts & Hfst & Hrun).
      exists ((pos, r) :: attempts), w'. rewrite Hattempts, Hrun.
      split; [reflexivity|]. split; [cbn; rewrite Hfst; reflexivity|].
      assert (Hs : succeeded (pos, r) = success r) by reflexivity.
      cbn [filter]. rewrite Hs, Hsuccess. cbn [negb map].
      rewrite <- app_assoc. reflexivity.
    + destruct (IH closed
                  (errs ++ [ ("Failed to close " ++ PositionInfo.symbol pos ++ ": "
                              ++ message r)%string ])%list w1)
        as (attempts & w' & Hattempts & Hfst & Hrun).
      exists ((pos, r) :: attempts), w'. rewrite Hattempts, Hrun.
      split; [reflexivity|]. split; [cbn; rewrite Hfst; reflexivity|].
      assert (Hs : succeeded (pos, r) = success r) by reflexivity.
      cbn [filter]. rewrite Hs, Hsuccess. cbn [negb map].
      rewrite <- app_assoc. reflexivity.
Qed.

Lemma filter_split {A : Type} (f : A -> bool) (l : list A) :
  (List.length (filter f l) + List.length (filter (fun a => negb (f a)) l)
   = List.length l)%nat.
Proof.
  induction l as [|x l IH]; simpl; [reflexivity|].
  destruct (f x); simpl; lia.
Qed.

Lemma cancel_each_returns (self : AgentTrader) (orders : list OpenOrderInfo) :
  Forall (fun o => oo_order_id o <> None) orders ->
  forall cancelled w, exists n w', cancel_each E self orders cancelled w = (Ok n, w').
Proof.
  induction 1 as [|o rest Ho Hrest IH]; intros cancelled w; simpl.
  - exists cancelled, w. reflexivity.
  - destruct (oo_order_id o) as [n|]; [|congruence].
    destruct (cancel_order_returns E self (oo_symbol o) n w) as (ok & w1 & Hok).
    rewrite (bind_ok _ _ _ _ _ Hok). apply IH.
Qed.

Lemma cancel_all_orders_returns (self : AgentTrader) (w : World) :
  (forall h a, exists os,
      info_open_orders E h a = Returns os /\ Forall (fun o => HL.oid o <> None) os) ->
  exists n w', cancel_all_orders E self None w = (Ok n, w').
Proof.
  intro Hoo. destruct (Hoo (calls w) (address self)) as (os & Hos & Hoid).
  unfold cancel_all_orders, get_open_orders.
  rewrite (bind_ok _ _ w (logged (open_orders (address self)) w) (map open_order_info os)).
  - apply cancel_each_returns. apply Forall_map. exact Hoid.
  - rewrite (bind_ok _ _ _ _ _ (remote_call_returns _ _ w os Hos)). reflexivity.
Qed.

(** The run of a closure that no exchange read interrupts: the account
    state [st0] read first gives the positions, each of which is attempted
    once; the account state [st] read last gives the final balance; the
    ledger is untouched until the one update at the end. *)
Lemma close_account_trace
    (x_api_key : option string) (now : datetime) (w : World) (agent : Agent.t)
    (addr : string) :
  authenticates sha256_hexdigest x_api_key (db w) agent ->
  Agent.status agent <> "closed" ->
  address_of_key (normalized (Agent.private_key_encrypted agent)) = Some addr ->
  reads_succeed E ->
  exists st0 attempts w2 cancelled st w3,
    info_user_state E (calls w) addr = Returns st0 /\
    close_attempts E round {| address := addr |} (positions_of st0)
      (logged (user_state addr) w) = Some (attempts, w2) /\
    map fst attempts = positions_of st0 /\
    db w3 = db w /\
    info_user_state E (calls w3) addr = Returns st /\
    api_close_account E address_of_key sha256_hexdigest round x_api_key now w
    = (Ok (closure_response agent st
             (map closed_entry (filter succeeded attempts))
             (map failure_entry (filter (fun a => negb (succeeded a)) attempts))
             cancelled),
       {| db := snd (update_agent_status (Agent.id agent) "closed"
                       (closing_kwargs agent (dflt (HL.accountValue st) 0%Q) now) (db w));
          calls := user_state addr :: calls w3 |}).
Proof.
  intros Hauth Hopen Hkey [Hus Hoo].
  set (trader := {| address := addr |}).
  destruct (Hus (calls w) addr) as [st0 Hst0].
  pose proof (get_positions_returns E trader w st0 Hst0) as Hpos.
  destruct (close_each_trace trader (positions_of st0) Hus (positions_open _) [] []
              (logged (user_state addr) w))
    as (attempts & w2 & Hattempts & Hfst & Hstep1).
  destruct (cancel_all_orders_returns trader w2 Hoo) as (cancelled & w3 & Hcancel).
  destruct (Hus (calls w3) addr) as [st Hst].
  pose proof (get_balance_returns E trader w3 st Hst) as Hbal.
  assert (Hdb3 : db w3 = db w).
  { rewrite (pd_run _ _ _ _ (pd_cancel_all_orders E trader None) Hcancel).
    rewrite (pd_run _ _ _ _ (pd_close_each trader _ _ _) Hstep1). reflexivity. }
  exists st0, attempts, w2, cancelled, st, w3.
  repeat split; try assumption.
  unfold api_close_account.
  rewrite (bind_ok _ _ w w agent) by (apply authenticated; exact Hauth).
  destruct (String.eqb_spec (Agent.status agent) "closed"); [contradiction|].
  rewrite (bind_ok _ _ w w trader) by (apply create_trader_returns; exact Hkey).
  rewrite (bind_ok _ _ _ _ _ Hpos).
  rewrite (bind_ok _ _ _ _ _ Hstep1).
  rewrite (bind_ok _ _ _ _ _ Hcancel).
  rewrite (bind_ok _ _ _ _ _ Hbal).
  cbn [app].
  unfold bind, execute, update_agent_status, closure_response, closing_kwargs,
    deposit_of, logged, commit. cbn.
  rewrite Hdb3.
  destruct (map failure_entry (filter (fun a => negb (succeeded a)) attempts));
    reflexivity.
Qed.

Lemma close_account_run
    (x_api_key : option string) (now : datetime) (w : World) (agent : Agent.t)
    (addr : string) :
  authenticates sha256_hexdigest x_api_key (db w) agent ->
  Agent.status agent <> "closed" ->
  address_of_key (normalized (Agent.private_key_encrypted agent)) = Some addr ->
  reads_succeed E ->
  exists st0 closed errs cancelled st w3,
    info_user_state E (calls w) addr = Returns st0 /\
    (List.length closed + List.length errs = List.length (positions_of st0))%nat /\
    db w3 = db w /\
    info_user_state E (calls w3) addr = Returns st /\
    api_close_account E address_of_key sha256_hexdigest round x_api_key now w
    = (Ok (closure_response agent st closed errs cancelled),
       {| db := snd (update_agent_status (Agent.id agent) "closed"
                       (closing_kwargs agent (dflt (HL.accountValue st) 0%Q) now) (db w));
          calls := user_state addr :: calls w3 |}).
Proof.
  intros Hauth Hopen Hkey Hreads.
  destruct (close_account_trace x_api_key now w agent addr Hauth Hopen Hkey Hreads)
    as (st0 & attempts & w2 & cancelled & st & w3 & Hst0 & _ & Hfst & Hdb & Hst & Hrun).
  exists st0, (map closed_entry (filter succeeded attempts)),
    (map failure_entry (filter (fun a => negb (succeeded a)) attempts)),
    cancelled, st, w3.
  repeat split; try assumption.
  rewrite !length_map, filter_split, <- Hfst, length_map. reflexivity.
Qed.

Lemma find_updated (h : string) (status : string) (kw : Kwargs) (rows : list Agent.t)
    (agent : Agent.t) :
  kw_api_key_hash kw = None ->
  find (fun r => String.eqb (Agent.api_key_hash r) h) rows = Some agent ->
  find (fun r => String.eqb (Agent.api_key_hash r) h)
    (map (fun r => if String.eqb (Agent.id r) (Agent.id agent)
                   then update_row status kw r else r) rows)
  = Some (update_row status kw agent).
Proof.
  intro Hkw. induction rows as [|x rows IH]; simpl; intro Hfind; [discriminate|].
  assert (Hhash : Agent.api_key_hash
                    (if String.eqb (Agent.id x) (Agent.id agent)
                     then update_row status kw x else x)
                  = Agent.api_key_hash x).
  { destruct (String.eqb (Agent.id x) (Agent.id agent)); [|reflexivity].
    cbn. rewrite Hkw. reflexivity. }
  rewrite Hhash.
  destruct (String.eqb (Agent.api_key_hash x) h).
  - injection Hfind as ->. rewrite String.eqb_refl. reflexivity.
  - apply IH. exact Hfind.
Qed.

(** Closure happens once: after a closure that ran to its end, the same key
    is refused, and the refusal changes nothing. *)
Corollary close_account_twice
    (x_api_key : option string) (now later : datetime) (w : World) (agent : Agent.t)
    (addr : string) :
  authenticates sha256_hexdigest x_api_key (db w) agent ->
  Agent.status agent <> "closed" ->
  address_of_key (normalized (Agent.private_key_encrypted agent)) = Some addr ->
  reads_succeed E ->
  exists response w',
    api_close_account E address_of_key sha256_hexdigest round x_api_key now w
    = (Ok response, w') /\
    api_close_account E address_of_key sha256_hexdigest round x_api_key later w'
    = (Raise (HTTPException 400 "Account already closed."), w').
Proof.
  intros Hauth Hopen Hkey Hreads.
  destruct (close_account_run x_api_key now w agent addr Hauth Hopen Hkey Hreads)
    as (st0 & closed & errs & cancelled & st & w3 & _ & _ & _ & _ & Hrun).
  rewrite Hrun. do 2 eexists. split; [reflexivity|].
  apply (close_account_closed_run _ _ _
           (update_row "closed"
              (closing_kwargs agent (dflt (HL.accountValue st) 0%Q) now) agent));
    [|reflexivity].
  destruct Hauth as (k & Hk & Hprefix & Hfind).
  exists k. split; [exact Hk|]. split; [exact Hprefix|].
  unfold get_agent_by_api_key_hash in *. cbn. apply find_updated; [reflexivity|exact Hfind].
Qed.

Lemma no_failure (attempts : list (PositionInfo.t * OrderResult)) :
  map failure_entry (filter (fun a => negb (succeeded a)) attempts) = [] <->
  forall a, In a attempts -> success (snd a) = true.
Proof.
  induction attempts as [|x attempts IH]; cbn [filter map].
  - split; [intros _ a []|reflexivity].
  - unfold succeeded at 1. destruct (success (snd x)) eqn:Hx; cbn [negb map].
    + rewrite IH. split.
      * intros H a [<-|Ha]; [exact Hx|exact (H a Ha)].
      * intros H a Ha. apply H. right. exact Ha.
    + split; [discriminate|]. intro H. specialize (H x (or_introl eq_refl)). congruence.
Qed.

(** C2, as the code has it: when no read of the exchange raises, a closure
    of a not-yet-closed agent commits exactly one statement, the update
    that sets [status = 'closed'] with [closed_at], [final_equity],
    [final_pnl] and [final_pnl_pct], however the close attempts end.  One
    attempt is made for each position fetched; the closed positions of the
    response are the attempts whose outcome is a success and its errors are
    the others, each as "Failed to close <symbol>: <message of the
    outcome>".  The outcome is "partial" exactly when some attempt failed
    and "ok" exactly when none did, and it carries the final balance and
    the final P&L that were written. *)
Theorem close_account_writes_once
    (x_api_key : option string) (now : datetime) (w : World) (agent : Agent.t)
    (addr : string)
    (Hauth : authenticates sha256_hexdigest x_api_key (db w) agent)
    (Hopen : Agent.status agent <> "closed")
    (Hkey : address_of_key (normalized (Agent.private_key_encrypted agent)) = Some addr)
    (Hreads : reads_succeed E) :
  exists status message final_balance final_pnl final_pnl_pct results w' st0 attempts w2,
    let kw :=
      {| kw_name := None; kw_private_key_encrypted := None; kw_api_key_hash := None;
         kw_deposit_amount := None; kw_deposit_tx := None; kw_created_at := None;
         kw_closed_at := Some now;
         kw_final_equity := Some final_balance;
         kw_final_pnl := Some final_pnl;
         kw_final_pnl_pct := Some final_pnl_pct;
         kw_withdrawal_tx := None;
         kw_withdrawal_address := None |} in
    api_close_account E address_of_key sha256_hexdigest round x_api_key now w
    = (Ok (AccountClosed status message final_balance final_pnl results), w') /\
    committed (db w') = UpdateAgent (Agent.id agent) "closed" kw :: committed (db w) /\
    agents (db w')
    = map (fun r => if String.eqb (Agent.id r) (Agent.id agent)
                    then update_row "closed" kw r else r)
          (agents (db w)) /\
    info_user_state E (calls w) addr = Returns st0 /\
    close_attempts E round {| address := addr |} (positions_of st0)
      (logged (user_state addr) w) = Some (attempts, w2) /\
    map fst attempts = positions_of st0 /\
    positions_closed results = map closed_entry (filter succeeded attempts) /\
    errors results = map failure_entry (filter (fun a => negb (succeeded a)) attempts) /\
    (List.length (positions_closed results) + List.length (errors results)
     = List.length (positions_of st0))%nat /\
    (status = "partial" <-> exists a, In a attempts /\ success (snd a) = false) /\
    (status = "ok" <-> forall a, In a attempts -> success (snd a) = true) /\
    status = match errors results with
             | [] => "ok"
             | _ :: _ => "partial"
             end.
Proof.
  destruct (close_account_trace x_api_key now w agent addr Hauth Hopen Hkey Hreads)
    as (st0 & attempts & w2 & cancelled & st & w3 & Hst0 & Hattempts & Hfst & Hdb & Hst
        & Hrun).
  rewrite Hrun. unfold closure_response.
  pose proof (no_failure attempts) as Hnone.
  assert (Hlen : (List.length (map closed_entry (filter succeeded attempts))
                  + List.length (map failure_entry
                                   (filter (fun a => negb (succeeded a)) attempts))
                  = List.length (positions_of st0))%nat).
  { rewrite !length_map, filter_split, <- Hfst, length_map. reflexivity. }
  assert (Hsome : map failure_entry (filter (fun a => negb (succeeded a)) attempts) <> []
                  <-> exists a, In a attempts /\ success (snd a) = false).
  { split.
    - intro Hne. destruct (filter (fun a => negb (succeeded a)) attempts) as [|a l] eqn:Hf;
        [contradiction Hne; reflexivity|].
      assert (Hin : In a (filter (fun a => negb (succeeded a)) attempts))
        by (rewrite Hf; left; reflexivity).
      apply filter_In in Hin. destruct Hin as [Hin Hfail].
      exists a. split; [exact Hin|]. apply negb_true_iff in Hfail. exact Hfail.
    - intros (a & Hin & Hfail) Hempty.
      rewrite (proj1 Hnone Hempty a Hin) in Hfail. discriminate. }
  destruct (map failure_entry (filter (fun a => negb (succeeded a)) attempts))
    as [|e errs] eqn:Herrs;
    do 10 eexists; cbn zeta;
    (split; [reflexivity|]); cbn [positions_closed errors];
    (split; [reflexivity|]); (split; [reflexivity|]); (split; [exact Hst0|]);
    (split; [exact Hattempts|]); (split; [exact Hfst|]); (split; [reflexivity|]);
    (split; [symmetry; exact Herrs|]); (split; [exact Hlen|]).
  - split; [|split; [|reflexivity]].
    + split; [discriminate|]. intro H. apply Hsome in H. contradiction H. reflexivity.
    + split; [intros _; apply (proj1 Hnone); reflexivity|reflexivity].
  - split; [|split; [|reflexivity]].
    + split; [intros _; apply (proj1 Hsome); discriminate|reflexivity].
    + split; [discriminate|]. intro H. apply (proj2 Hnone) in H. discriminate H.
Qed.

Lemma In_updated (agent_id status : string) (kw : Kwargs) (rows : list Agent.t)
    (r' : Agent.t) :
  In r' (map (fun r => if String.eqb (Agent.id r) agent_id
                       then update_row status kw r else r) rows) ->
  Agent.id r' = agent_id ->
  exists r, In r rows /\ r' = update_row status kw r.
Proof.
  intros Hin Hid. apply in_map_iff in Hin. destruct Hin as (r & Hr & Hinr).
  exists r. split; [exact Hinr|].
  destruct (String.eqb_spec (Agent.id r) agent_id) as [Heq|Hne].
  - symmetry. exact Hr.
  - subst r'. contradiction.
Qed.

Lemma final_pnl_of_deposit (final_balance : Q) (agent : Agent.t) :
  (final_balance - deposit_of agent == final_balance - Agent.deposit_amount agent)%Q.
Proof.
  unfold deposit_of, neb.
  destruct (Qeq_bool (Agent.deposit_amount agent) 0) eqn:Hz; cbn [negb].
  - apply Qeq_bool_eq in Hz. rewrite Hz. reflexivity.
  - reflexivity.
Qed.

Lemma final_pnl_pct_of_deposit (final_balance : Q) (agent : Agent.t) :
  ((if gtb (deposit_of agent) 0
    then (final_balance - deposit_of agent) / deposit_of agent * 100 else 0)
   == if Qlt_le_dec 0 (Agent.deposit_amount agent)
      then (final_balance - deposit_of agent) / Agent.deposit_amount agent * 100
      else 0)%Q.
Proof.
  unfold deposit_of, neb.
  destruct (Qlt_le_dec 0 (Agent.deposit_amount agent)) as [Hpos|Hle].
  - destruct (Qeq_bool (Agent.deposit_amount agent) 0) eqn:Hz; cbn [negb].
    + apply Qeq_bool_eq in Hz. rewrite Hz in Hpos. discriminate Hpos.
    + apply gtb_spec in Hpos. rewrite Hpos. reflexivity.
  - destruct (Qeq_bool (Agent.deposit_amount agent) 0) eqn:Hz; cbn [negb].
    + reflexivity.
    + destruct (gtb (Agent.deposit_amount agent) 0) eqn:Hg; [|reflexivity].
      apply gtb_spec in Hg. exfalso. exact (Qlt_not_le _ _ Hg Hle).
Qed.

(** C3, as the code has it: the final P&L written by a closure is the
    account value fetched last minus the agent's deposit, and the
    percentage written is [final_pnl / deposit_amount * 100] when the
    deposit is positive and 0 when it is zero or negative; every row of the
    agent holds these figures afterwards. *)
Theorem close_account_final_pnl
    (x_api_key : option string) (now : datetime) (w : World) (agent : Agent.t)
    (addr : string)
    (Hauth : authenticates sha256_hexdigest x_api_key (db w) agent)
    (Hopen : Agent.status agent <> "closed")
    (Hkey : address_of_key (normalized (Agent.private_key_encrypted agent)) = Some addr)
    (Hreads : reads_succeed E) :
  exists response w' h st final_pnl final_pnl_pct,
    api_close_account E address_of_key sha256_hexdigest round x_api_key now w
    = (Ok response, w') /\
    calls w' = user_state addr :: h /\
    info_user_state E h addr = Returns st /\
    (final_pnl == dflt (HL.accountValue st) 0 - Agent.deposit_amount agent)%Q /\
    (final_pnl_pct
     == if Qlt_le_dec 0 (Agent.deposit_amount agent)
        then final_pnl / Agent.deposit_amount agent * 100 else 0)%Q /\
    forall r, In r (agents (db w')) -> Agent.id r = Agent.id agent ->
      Agent.final_equity r = Some (dflt (HL.accountValue st) 0%Q) /\
      Agent.final_pnl r = Some final_pnl /\
      Agent.final_pnl_pct r = Some final_pnl_pct.
Proof.
  destruct (close_account_run x_api_key now w agent addr Hauth Hopen Hkey Hreads)
    as (st0 & closed & errs & cancelled & st & w3 & Hst0 & Hlen & Hdb & Hst & Hrun).
  rewrite Hrun.
  exists (closure_response agent st closed errs cancelled).
  eexists. exists (calls w3), st.
  exists (dflt (HL.accountValue st) 0%Q - deposit_of agent)%Q.
  exists (if gtb (deposit_of agent) 0
          then ((dflt (HL.accountValue st) 0%Q - deposit_of agent)
                / deposit_of agent * 100)%Q
          else 0%Q).
  split; [reflexivity|]. split; [reflexivity|]. split; [exact Hst|].
  split; [apply final_pnl_of_deposit|].
  split; [apply final_pnl_pct_of_deposit|].
  intros r Hin Hid. cbn in Hin.
  destruct (In_updated _ _ _ _ _ Hin Hid) as (r0 & _ & ->).
  repeat split.
Qed.

(** *** The handlers and the ledger *)

Lemma pd_get_agent_from_api_key (x_api_key : option string) :
  preserves_db (get_agent_from_api_key sha256_hexdigest x_api_key).
Proof.
  unfold get_agent_from_api_key. destruct x_api_key as [k|]; [|apply pd_raise].
  destruct (_ || _); [apply pd_raise|].
  apply pd_bind; [apply pd_query|]. intros [a|]; [apply pd_ret|apply pd_raise].
Qed.

Lemma pd_api_account (x_api_key : option string) :
  preserves_db (api_account sha256_hexdigest x_api_key).
Proof.
  unfold api_account. apply pd_bind; [apply pd_get_agent_from_api_key|]. intro agent.
  apply pd_bind; [apply pd_query|]. intro stats. apply pd_ret.
Qed.

Lemma pd_api_place_order (x_api_key : option string) (body : OrderBody) :
  preserves_db
    (api_place_order E address_of_key sha256_hexdigest round float_of_string x_api_key body).
Proof.
  unfold api_place_order. apply pd_bind; [apply pd_get_agent_from_api_key|]. intro agent.
  destruct (negb _); [apply pd_raise|].
  destruct (ob_symbol body) as [symbol|]; [|apply pd_raise].
  destruct (ob_side body) as [side|]; [|apply pd_raise].
  destruct (ob_size body) as [size|]; [|apply pd_raise].
  destruct (_ || _); [apply pd_raise|].
  destruct (negb _); [apply pd_raise|].
  apply pd_bind.
  - destruct (float float_of_string size); [|apply pd_raise].
    destruct (ob_price body) as [price|]; [|apply pd_ret].
    destruct (truthy price); [|apply pd_ret].
    destruct (float float_of_string price); [apply pd_ret|apply pd_raise].
  - intros [size' price'].
    apply pd_bind; [apply pd_create_trader|]. intro trader.
    apply pd_bind.
    + destruct price' as [price|]; [destruct (String.eqb _ _)|];
        first [apply pd_market_order|apply pd_limit_order].
    + intro r. destruct (success r); apply pd_ret.
Qed.

Lemma pd_api_close_position (x_api_key : option string) (body : CloseBody) :
  preserves_db (api_close_position E address_of_key sha256_hexdigest round x_api_key body).
Proof.
  unfold api_close_position. apply pd_bind; [apply pd_get_agent_from_api_key|].
  intro agent. destruct (negb _); [apply pd_raise|].
  destruct (cb_symbol body) as [symbol|]; [|apply pd_raise].
  destruct (String.eqb symbol EmptyString); [apply pd_raise|].
  apply pd_bind; [apply pd_create_trader|]. intro trader.
  apply pd_bind; [apply pd_close_position|].
  intro r. destruct (success r); apply pd_ret.
Qed.

Lemma pd_api_set_leverage (x_api_key : option string) (body : LeverageBody) :
  preserves_db (api_set_leverage E address_of_key sha256_hexdigest x_api_key body).
Proof.
  unfold api_set_leverage. apply pd_bind; [apply pd_get_agent_from_api_key|].
  intro agent.
  destruct (lb_symbol body) as [symbol|]; [|apply pd_raise].
  destruct (lb_leverage body) as [leverage|]; [|apply pd_raise].
  destruct (String.eqb symbol EmptyString); [apply pd_raise|].
  destruct (negb _); [apply pd_raise|].
  apply pd_bind; [apply pd_create_trader|]. intro trader.
  apply pd_bind; [apply pd_set_leverage|].
  intro ok. destruct ok; apply pd_ret.
Qed.

(** A property of the ledger passes through a step that leaves the ledger
    alone. *)
Lemma bind_pd {A B : Type} (m : M A) (k : A -> M B) (d0 : DB) (P : DB -> Prop)
    (w : World) :
  preserves_db m -> db w = d0 -> P d0 ->
  (forall a w1, db w1 = d0 -> P (db (snd (k a w1)))) ->
  P (db (snd (bind m k w))).
Proof.
  intros Hm Hw HP Hk. unfold bind. specialize (Hm w).
  destruct (m w) as [[a|e] w1]; cbn in *.
  - apply Hk. congruence.
  - rewrite Hm, Hw. exact HP.
Qed.

(** The only statement a close-account request can commit is the closing
    update of the agent it authenticates, which is not closed yet. *)
Lemma close_account_db (x_api_key : option string) (now : datetime) (w : World) :
  db (snd (api_close_account E address_of_key sha256_hexdigest round x_api_key now w)) = db w
  \/ exists agent kw,
       authenticates sha256_hexdigest x_api_key (db w) agent /\
       Agent.status agent <> "closed" /\
       db (snd (api_close_account E address_of_key sha256_hexdigest round x_api_key now w))
       = snd (update_agent_status (Agent.id agent) "closed" kw (db w)).
Proof.
  unfold api_close_account.
  destruct (get_agent_from_api_key_cases x_api_key w)
    as [(agent & Hauth & Hrun)|(detail & Hrun)].
  2: { rewrite (bind_raise _ _ _ _ _ Hrun). left. reflexivity. }
  rewrite (bind_ok _ _ _ _ _ Hrun).
  destruct (String.eqb_spec (Agent.status agent) "closed") as [|Hopen];
    [left; reflexivity|].
  set (P := fun d : DB =>
              d = db w \/
              exists kw, d = snd (update_agent_status (Agent.id agent) "closed" kw (db w))).
  assert (HP : P (db w)) by (left; reflexivity).
  match goal with
  | |- db (snd ?run) = _ \/ _ => enough (Hgoal : P (db (snd run)))
  end.
  { destruct Hgoal as [Hsame|[kw Hkw]]; [left; exact Hsame|].
    right. exists agent, kw. auto. }
  apply (bind_pd _ _ (db w)); [apply pd_create_trader|reflexivity|exact HP|].
  intros trader w1 Hw1.
  apply (bind_pd _ _ (db w)); [apply pd_get_positions|exact Hw1|exact HP|].
  intros positions w2 Hw2.
  apply (bind_pd _ _ (db w)); [apply pd_close_each|exact Hw2|exact HP|].
  intros [closed errs] w3 Hw3.
  apply (bind_pd _ _ (db w)); [apply pd_cancel_all_orders|exact Hw3|exact HP|].
  intros cancelled_count w4 Hw4.
  apply (bind_pd _ _ (db w)); [apply pd_get_balance|exact Hw4|exact HP|].
  intros balance_info w5 Hw5.
  right. exists (closing_kwargs agent (account_value balance_info) now).
  unfold bind, execute, update_agent_status. cbn. rewrite Hw5.
  destruct errs; reflexivity.
Qed.

Lemma unique_row (rows : list Agent.t) (r a : Agent.t) :
  NoDup (map Agent.id rows) -> In r rows -> In a rows ->
  Agent.id r = Agent.id a -> r = a.
Proof.
  induction rows as [|x rows IH]; simpl; intros Hnd Hr Ha Hid; [contradiction|].
  inversion Hnd as [|? ? Hx Hrest]; subst.
  destruct Hr as [->|Hr], Ha as [->|Ha].
  - reflexivity.
  - exfalso. apply Hx. rewrite Hid. apply in_map. exact Ha.
  - exfalso. apply Hx. rewrite <- Hid. apply in_map. exact Hr.
  - apply IH; assumption.
Qed.

Lemma row_steps (f : Agent.t -> Agent.t) (rows : list Agent.t) :
  (forall r, In r rows -> row_step r (f r)) -> Forall2 row_step rows (map f rows).
Proof.
  induction rows as [|x rows IH]; simpl; intro H; constructor.
  - apply H. left. reflexivity.
  - apply IH. intros r Hr. apply H. right. exact Hr.
Qed.

Lemma rows_kept (rows : list Agent.t) : Forall2 row_step rows rows.
Proof.
  rewrite <- (map_id rows) at 2. apply row_steps. intros r _. left. reflexivity.
Qed.

Lemma NoDup_snoc {A : Type} (l : list A) (x : A) :
  NoDup l -> ~ In x l -> NoDup (l ++ [x]).
Proof.
  induction 1 as [|y l Hy Hl IH]; simpl; intro Hx.
  - constructor; [intros []|constructor].
  - constructor.
    + rewrite in_app_iff. intros [Hin|[->|[]]]; [exact (Hy Hin)|].
      apply Hx. left. reflexivity.
    + apply IH. intro Hin. apply Hx. right. exact Hin.
Qed.

Lemma authenticated_row (x_api_key : option string) (d : DB) (agent : Agent.t) :
  authenticates sha256_hexdigest x_api_key d agent -> In agent (agents d).
Proof.
  intros (k & _ & _ & Hfind). unfold get_agent_by_api_key_hash in Hfind.
  apply find_some in Hfind. exact (proj1 Hfind).
Qed.

(** Closing the authenticated agent is a [row_step] for every row. *)
Lemma closing_steps (x_api_key : option string) (d : DB) (agent : Agent.t) (kw : Kwargs) :
  unique_ids d ->
  authenticates sha256_hexdigest x_api_key d agent ->
  Agent.status agent <> "closed" ->
  Forall2 row_step (agents d)
    (agents (snd (update_agent_status (Agent.id agent) "closed" kw d))) /\
  unique_ids (snd (update_agent_status (Agent.id agent) "closed" kw d)).
Proof.
  intros Huniq Hauth Hopen. unfold update_agent_status, unique_ids. cbn. split.
  - apply row_steps. intros r Hr.
    destruct (String.eqb_spec (Agent.id r) (Agent.id agent)) as [Hid|Hid].
    + right.
      rewrite (unique_row (agents d) r agent Huniq Hr
                 (authenticated_row _ _ _ Hauth) Hid).
      repeat split. exact Hopen.
    + left. reflexivity.
  - rewrite map_map.
    erewrite map_ext; [exact Huniq|].
    intro r. destruct (String.eqb (Agent.id r) (Agent.id agent)); reflexivity.
Qed.

(** Registration appends at most one row, in status [pending_deposit] and
    under an id that is not in use. *)
Lemma register_agent_db (name : string) (deposit_amount : Q) (withdrawal_address : string)
    (fresh : Fresh) (now : datetime) (w : World) :
  db (snd (register_agent sha256_hexdigest name deposit_amount
             withdrawal_address fresh now w)) = db w
  \/ exists row,
       Agent.status row = "pending_deposit" /\
       ~ In (Agent.id row) (map Agent.id (agents (db w))) /\
       agents (db (snd (register_agent sha256_hexdigest name deposit_amount
                          withdrawal_address fresh now w)))
       = (agents (db w) ++ [row])%list.
Proof.
  remember (register_agent sha256_hexdigest name deposit_amount
              withdrawal_address fresh now w) as run eqn:Hrun.
  unfold register_agent in Hrun.
  destruct ((len name <? 3)%nat || (32 <? len name)%nat);
    [subst run; left; reflexivity|].
  destruct (gtb 10 deposit_amount || gtb deposit_amount 100);
    [subst run; left; reflexivity|].
  unfold bind, query, execute, create_agent in Hrun.
  destruct (get_agent_by_name name (db w)); [subst run; left; reflexivity|].
  cbn [Agent.id Agent.wallet_address] in Hrun.
  destruct (existsb
              (fun r => String.eqb (Agent.id r) (uuid4 fresh)
                        || String.eqb (Agent.wallet_address r) (account_address fresh))
              (agents (db w))) eqn:Hdup;
    [subst run; left; reflexivity|].
  subst run. right. cbn. eexists. split; [|split; [|reflexivity]]; [reflexivity|].
  cbn. intro Hin. apply in_map_iff in Hin. destruct Hin as (r & Hid & Hr).
  assert (Hex : existsb
                  (fun r => String.eqb (Agent.id r) (uuid4 fresh)
                            || String.eqb (Agent.wallet_address r) (account_address fresh))
                  (agents (db w)) = true).
  { apply existsb_exists. exists r. split; [exact Hr|].
    rewrite Hid, String.eqb_refl. reflexivity. }
  congruence.
Qed.

(** One request leaves every stored agent as it is or closes it, and it
    closes only an agent that is not closed yet; the rows it adds are in
    status [pending_deposit]; the ids stay unique. *)
Lemma handle_row_steps (request : Request) (w : World) :
  unique_ids (db w) ->
  exists kept added,
    agents (db (snd (handle E address_of_key sha256_hexdigest round float_of_string request w)))
    = (kept ++ added)%list /\
    Forall2 row_step (agents (db w)) kept /\
    Forall (fun r => Agent.status r = "pending_deposit") added /\
    unique_ids (db (snd (handle E address_of_key sha256_hexdigest
          round float_of_string request w))).
Proof.
  intro Huniq.
  assert (Hsame : forall m : M Response, preserves_db m ->
            exists kept added,
              agents (db (snd (m w))) = (kept ++ added)%list /\
              Forall2 row_step (agents (db w)) kept /\
              Forall (fun r => Agent.status r = "pending_deposit") added /\
              unique_ids (db (snd (m w)))).
  { intros m Hm. rewrite (Hm w). exists (agents (db w)), [].
    rewrite app_nil_r. repeat split; [apply rows_kept|constructor|exact Huniq]. }
  destruct request as [name deposit_amount withdrawal_address fresh now
                      | k | k body | k body | k body | k now]; cbn [handle].
  - destruct (register_agent_db name deposit_amount withdrawal_address fresh now w)
      as [Hdb|(row & Hpending & Hfresh & Hrows)].
    + rewrite Hdb. exists (agents (db w)), [].
      rewrite app_nil_r. repeat split; [apply rows_kept|constructor|exact Huniq].
    + exists (agents (db w)), [row]. unfold unique_ids. rewrite Hrows.
      repeat split; [apply rows_kept|constructor; [exact Hpending|constructor]|].
      rewrite map_app. apply NoDup_snoc; assumption.
  - apply Hsame, pd_api_account.
  - apply Hsame, pd_api_place_order.
  - apply Hsame, pd_api_close_position.
  - apply Hsame, pd_api_set_leverage.
  - destruct (close_account_db k now w) as [Hdb|(agent & kw & Hauth & Hopen & Hdb)].
    + rewrite Hdb. exists (agents (db w)), [].
      rewrite app_nil_r. repeat split; [apply rows_kept|constructor|exact Huniq].
    + rewrite Hdb.
      destruct (closing_steps k (db w) agent kw Huniq Hauth Hopen) as [Hsteps Hu].
      eexists. exists []. rewrite app_nil_r.
      repeat split; [exact Hsteps|constructor|exact Hu].
Qed.

Lemma row_step_trans (r1 r2 r3 : Agent.t) :
  row_step r1 r2 -> row_step r2 r3 -> row_step r1 r3.
Proof.
  intros [->|(Hopen & Hclosed & Hid)] H23; [exact H23|].
  destruct H23 as [->|(Hopen' & _)]; [|contradiction].
  right. auto.
Qed.

Lemma row_steps_trans (l1 l2 l3 : list Agent.t) :
  Forall2 row_step l1 l2 -> Forall2 row_step l2 l3 -> Forall2 row_step l1 l3.
Proof.
  intro H12. revert l3. induction H12 as [|x y l1 l2 Hxy _ IH]; intros l3 H23.
  - inversion H23. constructor.
  - inversion H23 as [|? z ? l3' Hyz Hrest]; subst.
    constructor; [exact (row_step_trans _ _ _ Hxy Hyz)|apply IH; exact Hrest].
Qed.

Lemma pending_steps (added later : list Agent.t) :
  Forall (fun r => Agent.status r = "pending_deposit") added ->
  Forall2 row_step added later ->
  Forall (fun r => Agent.status r = "pending_deposit" \/ Agent.status r = "closed") later.
Proof.
  intros Hpending Hsteps. induction Hsteps as [|x y added later Hxy _ IH].
  - constructor.
  - inversion Hpending as [|? ? Hx Hrest]; subst. constructor; [|apply IH; exact Hrest].
    destruct Hxy as [->|(_ & Hclosed & _)]; [left; exact Hx|right; exact Hclosed].
Qed.

(** C4, as the code has it: over any sequence of requests, every stored
    agent is left as it is or closed, and it is closed only from a status
    that is not [closed], be it [active] or still [pending_deposit]; the
    agents registered meanwhile are pending their deposit or closed.  So no
    handler moves an agent out of [closed], back to [pending_deposit] or on
    to [active], and none writes to a closed agent. *)
Theorem status_transitions (requests : list Request) (w : World)
    (Huniq : unique_ids (db w)) :
  exists kept added,
    agents (db (serve E address_of_key sha256_hexdigest round float_of_string requests w))
    = (kept ++ added)%list /\
    Forall2 row_step (agents (db w)) kept /\
    Forall (fun r => Agent.status r = "pending_deposit" \/ Agent.status r = "closed")
      added /\
    unique_ids (db (serve E address_of_key sha256_hexdigest round float_of_string requests w)).
Proof.
  revert w Huniq. induction requests as [|request rest IH]; intros w Huniq; cbn [serve].
  - exists (agents (db w)), []. rewrite app_nil_r.
    repeat split; [apply rows_kept|constructor|exact Huniq].
  - destruct (handle_row_steps request w Huniq)
      as (kept1 & added1 & Hrows1 & Hsteps1 & Hadded1 & Huniq1).
    destruct (IH _ Huniq1) as (kept2 & added2 & Hrows2 & Hsteps2 & Hadded2 & Huniq2).
    rewrite Hrows1 in Hsteps2.
    apply Forall2_app_inv_l in Hsteps2.
    destruct Hsteps2 as (kept & later & Hkept & Hlater & ->).
    exists kept, (later ++ added2)%list. rewrite Hrows2, app_assoc.
    repeat split.
    + exact (row_steps_trans _ _ _ Hsteps1 Hkept).
    + apply Forall_app. split; [exact (pending_steps _ _ Hadded1 Hlater)|exact Hadded2].
    + exact Huniq2.
Qed.

End AppFacts.

Lemma close_account_rejects_closed_witness :
  authenticates Sample.sha256 (Some Sample.api_key)
    (db (Sample.world (Sample.agent "closed" 1000))) (Sample.agent "closed" 1000) /\
  api_close_account (Sample.flat 1500) Sample.from_key Sample.sha256 Sample.round
    (Some Sample.api_key) Sample.now (Sample.world (Sample.agent "closed" 1000))
  = (Raise (HTTPException 400 "Account already closed."),
     Sample.world (Sample.agent "closed" 1000)).
Proof.
  assert (H : authenticates Sample.sha256 (Some Sample.api_key)
                (db (Sample.world (Sample.agent "closed" 1000)))
                (Sample.agent "closed" 1000)).
  { exists Sample.api_key. repeat split. }
  split; [exact H|].
  apply (close_account_rejects_closed (Sample.flat 1500) Sample.from_key Sample.sha256 Sample.round
           (Some Sample.api_key) Sample.now
           (Sample.world (Sample.agent "closed" 1000)) (Sample.agent "closed" 1000) H).
  reflexivity.
Defined.

Lemma set_leverage_ignores_status_witness :
  Agent.status (Sample.agent "closed" 1000) = "closed" /\
  calls (snd (api_set_leverage (Sample.flat 1500) Sample.from_key Sample.sha256
                (Some Sample.api_key)
                {| lb_symbol := Some "BTC"; lb_leverage := Some (5 # 1)%Q;
                   lb_margin_type := None |}
                (Sample.world (Sample.agent "closed" 1000))))
  = [update_leverage 5 "BTC" true].
Proof.
  split; [reflexivity|].
  apply (set_leverage_ignores_status (Sample.flat 1500) Sample.from_key Sample.sha256
           (Some Sample.api_key)
           {| lb_symbol := Some "BTC"; lb_leverage := Some (5 # 1)%Q;
              lb_margin_type := None |}
           (Sample.world (Sample.agent "closed" 1000)) (Sample.agent "closed" 1000)
           "BTC" "wallet-of-0xencrypted_key_here" (5 # 1)%Q).
  - exists Sample.api_key. repeat split.
  - reflexivity.
  - discriminate.
  - reflexivity.
  - reflexivity.
  - reflexivity.
Defined.

Lemma close_account_writes_once_witness :
  reads_succeed Sample.two_positions /\
  exists response w',
    api_close_account Sample.two_positions Sample.from_key Sample.sha256 Sample.round
      (Some Sample.api_key) Sample.now (Sample.world (Sample.agent "active" 1000))
    = (Ok response, w') /\
    List.length (committed (db w')) = 1%nat.
Proof.
  assert (Hreads : reads_succeed Sample.two_positions).
  { split; intros h a; eexists; [reflexivity|split; [reflexivity|constructor]]. }
  split; [exact Hreads|].
  destruct (close_account_writes_once Sample.two_positions Sample.from_key Sample.sha256
        Sample.round
              (Some Sample.api_key) Sample.now
              (Sample.world (Sample.agent "active" 1000))
              (Sample.agent "active" 1000) Sample.wallet)
    as (status & message & final_balance & final_pnl & final_pnl_pct & results & w'
        & st0 & attempts & w2 & Hrun & Hcommitted & _).
  - exists Sample.api_key. repeat split.
  - discriminate.
  - reflexivity.
  - exact Hreads.
  - eexists. exists w'. split; [exact Hrun|]. rewrite Hcommitted. reflexivity.
Defined.

(** The closure of the test agent with no open position and a balance of
    1500 against a deposit of 1000. *)
Example close_account_ok :
  exists results w' r,
    api_close_account (Sample.flat 1500) Sample.from_key Sample.sha256 Sample.round
      (Some Sample.api_key) Sample.now (Sample.world (Sample.agent "active" 1000))
    = (Ok (AccountClosed "ok" "Account closed successfully" 1500 500 results), w') /\
    agents (db w') = [r] /\
    Agent.status r = "closed" /\
    Agent.final_equity r = Some 1500%Q /\
    Agent.final_pnl r = Some 500%Q /\
    (exists pct, Agent.final_pnl_pct r = Some pct /\ (pct == 50)%Q) /\
    Agent.closed_at r = Some Sample.now.
Proof.
  do 3 eexists. split; [vm_compute; reflexivity|]. cbn.
  split; [reflexivity|]. repeat split. eexists. split; reflexivity.
Qed.

(** The closure of the test agent on an exchange where one of two positions
    cannot be closed: one error, one closed position, outcome "partial",
    one statement committed. *)
Example close_account_partial :
  exists results w',
    api_close_account Sample.two_positions Sample.from_key Sample.sha256 Sample.round
      (Some Sample.api_key) Sample.now (Sample.world (Sample.agent "active" 1000))
    = (Ok (AccountClosed "partial" "Account closed with some errors"
             1500 500 results), w') /\
    errors results = ["Failed to close ETH: Unknown symbol: ETH"] /\
    List.length (positions_closed results) = 1%nat /\
    List.length (committed (db w')) = 1%nat.
Proof. do 2 eexists. split; [vm_compute; reflexivity|]. repeat split. Qed.

Lemma close_account_aborts_without_write :
  authenticates Sample.sha256 (Some Sample.api_key)
    (db (Sample.world (Sample.agent "active" 1000))) (Sample.agent "active" 1000) /\
  Agent.status (Sample.agent "active" 1000) <> "closed" /\
  api_close_account Sample.down Sample.from_key Sample.sha256 Sample.round
    (Some Sample.api_key) Sample.now (Sample.world (Sample.agent "active" 1000))
  = (Raise (Error "timeout"),
     {| db := Sample.ledger (Sample.agent "active" 1000);
        calls := [user_state Sample.wallet] |}) /\
  committed (Sample.ledger (Sample.agent "active" 1000)) = [].
Proof.
  split; [exists Sample.api_key; repeat split|].
  split; [discriminate|]. split; reflexivity.
Qed.

Lemma close_account_final_pnl_witness :
  exists response w',
    api_close_account (Sample.flat 800) Sample.from_key Sample.sha256 Sample.round
      (Some Sample.api_key) Sample.now (Sample.world (Sample.agent "active" 1000))
    = (Ok response, w') /\
    forall r, In r (agents (db w')) ->
      exists pnl pct,
        Agent.final_pnl r = Some pnl /\ (pnl == -200)%Q /\
        Agent.final_pnl_pct r = Some pct /\ (pct == -20)%Q.
Proof.
  assert (Hreads : reads_succeed (Sample.flat 800)).
  { split; intros h a; eexists; [reflexivity|split; [reflexivity|constructor]]. }
  destruct (close_account_final_pnl (Sample.flat 800) Sample.from_key Sample.sha256 Sample.round
              (Some Sample.api_key) Sample.now
              (Sample.world (Sample.agent "active" 1000))
              (Sample.agent "active" 1000) Sample.wallet)
    as (response & w' & h & st & pnl & pct & Hrun & Hcalls & Hst & Hpnl & Hpct & Hrows).
  - exists Sample.api_key. repeat split.
  - discriminate.
  - reflexivity.
  - exact Hreads.
  - exists response, w'. split; [exact Hrun|].
    intros r Hin.
    assert (Hid : Agent.id r = "test-agent-123").
    { assert (H : snd (api_close_account (Sample.flat 800) Sample.from_key Sample.sha256
          Sample.round
                         (Some Sample.api_key) Sample.now
                         (Sample.world (Sample.agent "active" 1000))) = w')
        by (rewrite Hrun; reflexivity).
      rewrite <- H in Hin. cbn in Hin. destruct Hin as [<-|[]]. reflexivity. }
    destruct (Hrows r Hin Hid) as (_ & Hfp & Hfpp).
    assert (Hv : st = {| HL.accountValue := Some 800%Q;
                         HL.totalMarginUsed := Some 0%Q;
                         HL.withdrawable := Some 800%Q;
                         HL.assetPositions := [] |}).
    { cbn in Hst. congruence. }
    subst st. cbn [dflt HL.accountValue Sample.agent Agent.deposit_amount] in Hpnl, Hpct.
    exists pnl, pct.
    split; [exact Hfp|]. split; [rewrite Hpnl; reflexivity|]. split; [exact Hfpp|].
    destruct (Qlt_le_dec 0 1000) as [_|Hle]; [|exfalso; apply Hle; reflexivity].
    rewrite Hpct, Hpnl. reflexivity.
Defined.

Lemma close_account_negative_deposit :
  exists response w' r pnl pct,
    api_close_account (Sample.flat 100) Sample.from_key Sample.sha256 Sample.round
      (Some Sample.api_key) Sample.now (Sample.world (Sample.agent "active" (-50)))
    = (Ok response, w') /\
    agents (db w') = [r] /\
    Agent.final_pnl r = Some pnl /\
    Agent.final_pnl_pct r = Some pct /\
    ~ (Agent.deposit_amount r == 0)%Q /\
    ~ (pct == pnl / Agent.deposit_amount r * 100)%Q.
Proof.
  do 5 eexists. split; [vm_compute; reflexivity|]. cbn.
  split; [reflexivity|]. split; [reflexivity|]. split; [reflexivity|].
  split; intro H; vm_compute in H; discriminate H.
Qed.



Lemma close_position_by_holding_witness :
  close_position Sample.two_positions Sample.round Sample.trader "ETH" (5 # 100)
    (Sample.world (Sample.agent "active" 1000))
  = market_order Sample.two_positions Sample.round Sample.trader "ETH" "buy" (Qabs (-1)) (5 # 100)
      (logged (user_state Sample.wallet) (Sample.world (Sample.agent "active" 1000))).
Proof.
  exact (close_position_by_holding Sample.two_positions Sample.round Sample.trader "ETH" (5 # 100)
           (Sample.world (Sample.agent "active" 1000))
           {| HL.accountValue := Some 1500%Q;
              HL.totalMarginUsed := Some 0%Q;
              HL.withdrawable := Some 1500%Q;
              HL.assetPositions :=
                [Sample.position "BTC" (1 # 10); Sample.position "ETH" (-1)]%Q |}
           eq_refl).
Defined.

Lemma close_position_none_is_failure :
  held "BTC" [] = None /\
  (exists r,
      close_position (Sample.flat 1500) Sample.round Sample.trader "BTC" (5 # 100)
        (Sample.world (Sample.agent "active" 1000))
      = (Ok r, logged (user_state Sample.wallet)
                 (Sample.world (Sample.agent "active" 1000))) /\
      success r = false /\
      message r = "No position in BTC") /\
  api_close_position (Sample.flat 1500) Sample.from_key Sample.sha256 Sample.round
    (Some Sample.api_key) {| cb_symbol := Some "BTC" |}
    (Sample.world (Sample.agent "active" 1000))
  = (Ok (CloseError "No position in BTC" "BTC"),
     logged (user_state Sample.wallet) (Sample.world (Sample.agent "active" 1000))).
Proof.
  split; [reflexivity|]. split; [|reflexivity].
  eexists. split; [reflexivity|]. split; reflexivity.
Qed.

Lemma status_transitions_witness :
  unique_ids (Sample.ledger (Sample.agent "active" 1000)) /\
  exists kept added,
    agents (db (serve (Sample.flat 1500) Sample.from_key Sample.sha256
          Sample.round Sample.float_of_string
                  [POST_api_close_account (Some Sample.api_key) Sample.now;
                   POST_api_leverage (Some Sample.api_key)
                     {| lb_symbol := Some "BTC"; lb_leverage := Some (5 # 1)%Q;
                        lb_margin_type := None |};
                   POST_api_close_account (Some Sample.api_key) (Sample.now + 60)]
                  (Sample.world (Sample.agent "active" 1000))))
    = (kept ++ added)%list /\
    Forall2 row_step [Sample.agent "active" 1000] kept.
Proof.
  assert (Huniq : unique_ids (Sample.ledger (Sample.agent "active" 1000))).
  { unfold unique_ids. cbn. constructor; [intros []|constructor]. }
  split; [exact Huniq|].
  destruct (status_transitions (Sample.flat 1500) Sample.from_key Sample.sha256
        Sample.round Sample.float_of_string
              [POST_api_close_account (Some Sample.api_key) Sample.now;
               POST_api_leverage (Some Sample.api_key)
                 {| lb_symbol := Some "BTC"; lb_leverage := Some (5 # 1)%Q;
                    lb_margin_type := None |};
               POST_api_close_account (Some Sample.api_key) (Sample.now + 60)]
              (Sample.world (Sample.agent "active" 1000)) Huniq)
    as (kept & added & Hrows & Hsteps & _).
  exists kept, added. split; [exact Hrows|exact Hsteps].
Defined.

(** An agent that is still pending its deposit can close its account, which
    takes it to [closed] without passing through [active]; and the store
    lets a closed agent be written again. *)
Lemma close_account_skips_active :
  (exists response w' r,
      api_close_account (Sample.flat 50) Sample.from_key Sample.sha256 Sample.round
        (Some Sample.api_key) Sample.now
        (Sample.world (Sample.agent "pending_deposit" 50))
      = (Ok response, w') /\
      agents (db w') = [r] /\
      Agent.id r = Agent.id (Sample.agent "pending_deposit" 50) /\
      Agent.status (Sample.agent "pending_deposit" 50) = "pending_deposit" /\
      Agent.status r = "closed") /\
  (exists r,
      agents (snd (update_agent_status "test-agent-123" "active" no_kwargs
                     (Sample.ledger (Sample.agent "closed" 50)))) = [r] /\
      Agent.status r = "active").
Proof.
  split.
  - do 3 eexists. split; [vm_compute; reflexivity|]. cbn.
    split; [reflexivity|]. repeat split.
  - eexists. split; reflexivity.
Qed.

(** * Further properties of the code *)

(** ** Ledger store: insertion and lookup *)

Lemma find_snoc {A : Type} (p : A -> bool) (l : list A) (x : A) :
  find p (l ++ [x])
  = match find p l with
    | Some y => Some y
    | None => if p x then Some x else None
    end.
Proof.
  induction l as [|y l IH]; simpl; [reflexivity|].
  destruct (p y); [reflexivity|exact IH].
Qed.

Lemma no_duplicate_key (agent : Agent.t) (d : DB) :
  get_agent (Agent.id agent) d = None ->
  (forall r, In r (agents d) -> Agent.wallet_address r <> Agent.wallet_address agent) ->
  existsb (fun r => String.eqb (Agent.id r) (Agent.id agent)
                    || String.eqb (Agent.wallet_address r) (Agent.wallet_address agent))
    (agents d) = false.
Proof.
  intros Hid Hwallet. unfold get_agent in Hid.
  destruct (existsb _ (agents d)) eqn:Hex; [|reflexivity].
  apply existsb_exists in Hex. destruct Hex as (r & Hr & Hdup).
  apply orb_true_iff in Hdup. destruct Hdup as [Hdup|Hdup].
  - rewrite (find_none _ _ Hid r Hr) in Hdup. discriminate.
  - apply String.eqb_eq in Hdup. exfalso. exact (Hwallet r Hr Hdup).
Qed.

(** X1. An agent inserted under a fresh id and wallet address is found
    again by its id, with the columns of the INSERT as given and the
    closure columns empty whatever the object carried; the lookups of the
    other ids answer as before. *)
Theorem create_agent_then_get (agent : Agent.t) (d : DB)
    (Hid : get_agent (Agent.id agent) d = None)
    (Hwallet : forall r, In r (agents d) ->
               Agent.wallet_address r <> Agent.wallet_address agent) :
  fst (create_agent agent d) = Ok agent /\
  (exists row,
      get_agent (Agent.id agent) (snd (create_agent agent d)) = Some row /\
      same_identity agent row /\
      Agent.status row = Agent.status agent /\
      Agent.deposit_tx row = Agent.deposit_tx agent /\
      Agent.closed_at row = None /\
      Agent.final_equity row = None /\
      Agent.final_pnl row = None /\
      Agent.final_pnl_pct row = None /\
      Agent.withdrawal_tx row = None) /\
  forall other, other <> Agent.id agent ->
    get_agent other (snd (create_agent agent d)) = get_agent other d.
Proof.
  unfold create_agent. rewrite (no_duplicate_key agent d Hid Hwallet). cbn.
  split; [reflexivity|]. split.
  - eexists. split.
    + unfold get_agent in *. cbn. rewrite find_snoc, Hid. cbn.
      rewrite String.eqb_refl. reflexivity.
    + unfold same_identity. cbn. repeat split.
  - intros other Hother. unfold get_agent. cbn. rewrite find_snoc.
    destruct (find _ (agents d)); [reflexivity|]. cbn.
    destruct (String.eqb_spec (Agent.id agent) other); [congruence|reflexivity].
Qed.

Lemma create_agent_then_get_witness :
  exists row,
    get_agent "agent-2"
      (snd (create_agent
              {| Agent.id := "agent-2"; Agent.name := "Second";
                 Agent.wallet_address := "0xabc";
                 Agent.private_key_encrypted := "k"; Agent.api_key_hash := "h";
                 Agent.deposit_amount := 50; Agent.deposit_tx := None;
                 Agent.created_at := 1700000001; Agent.status := "pending_deposit";
                 Agent.closed_at := Some 5; Agent.final_equity := Some 1%Q;
                 Agent.final_pnl := None; Agent.final_pnl_pct := None;
                 Agent.withdrawal_tx := None; Agent.withdrawal_address := None |}
              (Sample.ledger (Sample.agent "active" 1000))))
    = Some row /\
    Agent.closed_at row = None.
Proof.
  destruct (create_agent_then_get
              {| Agent.id := "agent-2"; Agent.name := "Second";
                 Agent.wallet_address := "0xabc";
                 Agent.private_key_encrypted := "k"; Agent.api_key_hash := "h";
                 Agent.deposit_amount := 50; Agent.deposit_tx := None;
                 Agent.created_at := 1700000001; Agent.status := "pending_deposit";
                 Agent.closed_at := Some 5; Agent.final_equity := Some 1%Q;
                 Agent.final_pnl := None; Agent.final_pnl_pct := None;
                 Agent.withdrawal_tx := None; Agent.withdrawal_address := None |}
              (Sample.ledger (Sample.agent "active" 1000)))
    as (_ & (row & Hget & _ & _ & _ & Hclosed & _) & _).
  - reflexivity.
  - intros r [<-|[]]. discriminate.
  - exists row. split; [exact Hget|exact Hclosed].
Defined.

(** X2. An insertion whose id or wallet address is already stored raises
    and leaves the store as it was: no row is added and nothing is
    committed. *)
Theorem create_agent_duplicate (agent r : Agent.t) (d : DB)
    (Hstored : In r (agents d))
    (Hdup : Agent.id r = Agent.id agent
            \/ Agent.wallet_address r = Agent.wallet_address agent) :
  exists e, create_agent agent d = (Raise e, d).
Proof.
  unfold create_agent.
  assert (Hex : existsb
                  (fun r => String.eqb (Agent.id r) (Agent.id agent)
                            || String.eqb (Agent.wallet_address r)
                                 (Agent.wallet_address agent))
                  (agents d) = true).
  { apply existsb_exists. exists r. split; [exact Hstored|].
    apply orb_true_iff. destruct Hdup as [->| ->]; [left|right]; apply String.eqb_refl. }
  rewrite Hex. eexists. reflexivity.
Qed.

Lemma create_agent_duplicate_witness :
  exists e,
    create_agent (Sample.agent "pending_deposit" 20)
      (Sample.ledger (Sample.agent "active" 1000))
    = (Raise e, Sample.ledger (Sample.agent "active" 1000)).
Proof.
  apply (create_agent_duplicate (Sample.agent "pending_deposit" 20)
           (Sample.agent "active" 1000) (Sample.ledger (Sample.agent "active" 1000))).
  - left. reflexivity.
  - left. reflexivity.
Defined.

Lemma not_stored (agent : Agent.t) (d : DB) :
  existsb (fun r => String.eqb (Agent.id r) (Agent.id agent)
                    || String.eqb (Agent.wallet_address r) (Agent.wallet_address agent))
    (agents d) = false ->
  ~ In (Agent.id agent) (map Agent.id (agents d)) /\
  ~ In (Agent.wallet_address agent) (map Agent.wallet_address (agents d)).
Proof.
  intro Hex. split; intro Hin; apply in_map_iff in Hin; destruct Hin as (r & Heq & Hr);
    (assert (Htrue : existsb
                       (fun r => String.eqb (Agent.id r) (Agent.id agent)
                                 || String.eqb (Agent.wallet_address r)
                                      (Agent.wallet_address agent))
                       (agents d) = true);
     [apply existsb_exists; exists r; split; [exact Hr|];
      rewrite Heq, String.eqb_refl; auto using orb_true_r
     |congruence]).
Qed.

Lemma updated_keys (agent_id status : string) (kw : Kwargs) (rows : list Agent.t) :
  map Agent.id
    (map (fun r => if String.eqb (Agent.id r) agent_id then update_row status kw r else r)
       rows) = map Agent.id rows /\
  map Agent.wallet_address
    (map (fun r => if String.eqb (Agent.id r) agent_id then update_row status kw r else r)
       rows) = map Agent.wallet_address rows.
Proof.
  split; rewrite map_map; apply map_ext; intro r;
    destruct (String.eqb (Agent.id r) agent_id); reflexivity.
Qed.

(** X3. The store keeps its keys: from a table in which ids and wallet
    addresses are unique, every write of the store, whether it succeeds or
    raises, leads to a table in which they still are. *)
Theorem store_keeps_keys_unique (d : DB)
    (Hids : unique_ids d) (Hwallets : unique_wallets d) :
  (forall agent,
      unique_ids (snd (create_agent agent d)) /\
      unique_wallets (snd (create_agent agent d))) /\
  (forall agent_id status kw,
      unique_ids (snd (update_agent_status agent_id status kw d)) /\
      unique_wallets (snd (update_agent_status agent_id status kw d))) /\
  (forall trade,
      unique_ids (snd (record_trade trade d)) /\
      unique_wallets (snd (record_trade trade d))).
Proof.
  unfold unique_ids, unique_wallets in *. repeat split.
  - unfold create_agent. destruct (existsb _ (agents d)) eqn:Hex; [exact Hids|].
    cbn. rewrite map_app. apply NoDup_snoc; [exact Hids|].
    exact (proj1 (not_stored agent d Hex)).
  - unfold create_agent. destruct (existsb _ (agents d)) eqn:Hex; [exact Hwallets|].
    cbn. rewrite map_app. apply NoDup_snoc; [exact Hwallets|].
    exact (proj2 (not_stored agent d Hex)).
  - cbn. rewrite (proj1 (updated_keys _ _ _ _)). exact Hids.
  - cbn. rewrite (proj2 (updated_keys _ _ _ _)). exact Hwallets.
  - exact Hids.
  - exact Hwallets.
Qed.

Lemma store_keeps_keys_unique_witness :
  unique_ids (snd (create_agent (Sample.agent "pending_deposit" 20)
                     (Sample.ledger (Sample.agent "active" 1000)))).
Proof.
  apply (store_keeps_keys_unique (Sample.ledger (Sample.agent "active" 1000))).
  - unfold unique_ids. cbn. constructor; [intros []|constructor].
  - unfold unique_wallets. cbn. constructor; [intros []|constructor].
Defined.

Lemma find_updated_id (agent_id status : string) (kw : Kwargs) (rows : list Agent.t)
    (other : string) :
  find (fun r => String.eqb (Agent.id r) other)
    (map (fun r => if String.eqb (Agent.id r) agent_id then update_row status kw r else r)
       rows)
  = if String.eqb other agent_id
    then option_map (update_row status kw)
           (find (fun r => String.eqb (Agent.id r) agent_id) rows)
    else find (fun r => String.eqb (Agent.id r) other) rows.
Proof.
  destruct (String.eqb_spec other agent_id) as [->|Hother].
  - induction rows as [|x rows IH]; simpl; [reflexivity|].
    destruct (String.eqb (Agent.id x) agent_id) eqn:Hx; cbn [Agent.id update_row].
    + rewrite Hx. reflexivity.
    + rewrite Hx. exact IH.
  - induction rows as [|x rows IH]; simpl; [reflexivity|].
    destruct (String.eqb_spec (Agent.id x) agent_id) as [Hx|Hx]; cbn [Agent.id update_row].
    + destruct (String.eqb_spec (Agent.id x) other); [congruence|exact IH].
    + destruct (String.eqb (Agent.id x) other); [reflexivity|exact IH].
Qed.

(** X4. What [update_agent_status] writes is what [get_agent] reads: after
    an update whose keywords name no key, the agent comes back with the new
    status, and each of the twelve columns that a keyword can name holds
    the value of its keyword when that is given and what it held when the
    keyword is [None] or absent; every other agent reads as before. *)
Theorem update_agent_status_then_get
    (agent_id status : string) (kw : Kwargs) (d : DB) (r : Agent.t)
    (Hr : get_agent agent_id d = Some r) :
  (exists r',
      get_agent agent_id (snd (update_agent_status agent_id status kw d)) = Some r' /\
      Agent.status r' = status /\
      Agent.name r'
      = match kw_name kw with Some v => v | None => Agent.name r end /\
      Agent.private_key_encrypted r'
      = match kw_private_key_encrypted kw with
        | Some v => v
        | None => Agent.private_key_encrypted r
        end /\
      Agent.api_key_hash r'
      = match kw_api_key_hash kw with Some v => v | None => Agent.api_key_hash r end /\
      Agent.deposit_amount r'
      = match kw_deposit_amount kw with Some v => v | None => Agent.deposit_amount r end /\
      Agent.deposit_tx r'
      = match kw_deposit_tx kw with Some v => Some v | None => Agent.deposit_tx r end /\
      Agent.created_at r'
      = match kw_created_at kw with Some v => v | None => Agent.created_at r end /\
      Agent.closed_at r'
      = match kw_closed_at kw with Some v => Some v | None => Agent.closed_at r end /\
      Agent.final_equity r'
      = match kw_final_equity kw with Some v => Some v | None => Agent.final_equity r end /\
      Agent.final_pnl r'
      = match kw_final_pnl kw with Some v => Some v | None => Agent.final_pnl r end /\
      Agent.final_pnl_pct r'
      = match kw_final_pnl_pct kw with Some v => Some v | None => Agent.final_pnl_pct r end /\
      Agent.withdrawal_tx r'
      = match kw_withdrawal_tx kw with Some v => Some v | None => Agent.withdrawal_tx r end /\
      Agent.withdrawal_address r'
      = match kw_withdrawal_address kw with
        | Some v => Some v
        | None => Agent.withdrawal_address r
        end) /\
  forall other, other <> agent_id ->
    get_agent other (snd (update_agent_status agent_id status kw d)) = get_agent other d.
Proof.
  unfold get_agent in *. cbn. split.
  - exists (update_row status kw r). rewrite find_updated_id, String.eqb_refl, Hr.
    repeat split.
  - intros other Hother. rewrite find_updated_id.
    destruct (String.eqb_spec other agent_id); [contradiction|reflexivity].
Qed.

Lemma update_agent_status_then_get_witness :
  exists r',
    get_agent "test-agent-123"
      (snd (update_agent_status "test-agent-123" "closed"
              {| kw_name := Some "Renamed"; kw_private_key_encrypted := None;
                 kw_api_key_hash := None; kw_deposit_amount := None;
                 kw_deposit_tx := None; kw_created_at := None;
                 kw_closed_at := None; kw_final_equity := Some 1200%Q;
                 kw_final_pnl := None; kw_final_pnl_pct := None;
                 kw_withdrawal_tx := None; kw_withdrawal_address := None |}
              (Sample.ledger (Sample.agent "active" 1000))))
    = Some r' /\
    Agent.status r' = "closed" /\
    Agent.name r' = "Renamed" /\
    Agent.final_equity r' = Some 1200%Q /\
    Agent.final_pnl r' = None.
Proof.
  destruct (update_agent_status_then_get "test-agent-123" "closed"
              {| kw_name := Some "Renamed"; kw_private_key_encrypted := None;
                 kw_api_key_hash := None; kw_deposit_amount := None;
                 kw_deposit_tx := None; kw_created_at := None;
                 kw_closed_at := None; kw_final_equity := Some 1200%Q;
                 kw_final_pnl := None; kw_final_pnl_pct := None;
                 kw_withdrawal_tx := None; kw_withdrawal_address := None |}
              (Sample.ledger (Sample.agent "active" 1000))
              (Sample.agent "active" 1000) eq_refl)
    as ((r' & Hget & Hstatus & Hname & _ & _ & _ & _ & _ & _ & Hequity & Hpnl & _) & _).
  exists r'. repeat split; assumption.
Defined.

(** ** Ledger store: trades *)

Lemma max_id_bound (ts : list Trade.t) :
  0 <= fold_right (fun t m => Z.max (Trade.id t) m) 0 ts /\
  Forall (fun t => Trade.id t <= fold_right (fun t m => Z.max (Trade.id t) m) 0 ts) ts.
Proof.
  induction ts as [|t ts [IH0 IH]]; simpl.
  - split; [lia|constructor].
  - split; [lia|]. constructor; [lia|].
    eapply Forall_impl; [|exact IH]. intros u Hu. cbn in Hu. lia.
Qed.

(** X5. Trades are only appended: recording a trade leaves the stored
    trades and the agents as they are and adds one row, which carries the
    columns of the trade under an id of the store's own, positive and above
    every id in use, whatever id the object carried. *)
Theorem record_trade_appends (trade : Trade.t) (d : DB) :
  exists row,
    record_trade trade d
    = (Ok tt, {| agents := agents d;
                 trades := trades d ++ [row];
                 committed := InsertTrade trade :: committed d |}) /\
    0 < Trade.id row /\
    Forall (fun t => Trade.id t < Trade.id row) (trades d) /\
    Trade.agent_id row = Trade.agent_id trade /\
    Trade.symbol row = Trade.symbol trade /\
    Trade.side row = Trade.side trade /\
    Trade.size row = Trade.size trade /\
    Trade.price row = Trade.price trade /\
    Trade.realized_pnl row = Trade.realized_pnl trade /\
    Trade.timestamp row = Trade.timestamp trade.
Proof.
  destruct (max_id_bound (trades d)) as [H0 Hall].
  unfold record_trade, commit.
  set (m := fold_right (fun t m => Z.max (Trade.id t) m) 0 (trades d)) in *.
  eexists. split; [reflexivity|]. cbn [Trade.id Trade.agent_id Trade.symbol Trade.side
    Trade.size Trade.price Trade.realized_pnl Trade.timestamp].
  split; [lia|]. split; [|repeat split].
  eapply Forall_impl; [|exact Hall]. intros t Ht. cbn beta in Ht. lia.
Qed.

Lemma stats_rows_recorded (agent_id : string) (trade : Trade.t) (d : DB) :
  filter (fun t => String.eqb (Trade.agent_id t) agent_id)
    (trades (snd (record_trade trade d)))
  = (filter (fun t => String.eqb (Trade.agent_id t) agent_id) (trades d)
     ++ if String.eqb (Trade.agent_id trade) agent_id
        then [hd trade (rev (trades (snd (record_trade trade d))))]
        else [])%list.
Proof.
  cbn. rewrite filter_app, rev_app_distr. cbn.
  destruct (String.eqb (Trade.agent_id trade) agent_id); reflexivity.
Qed.

Lemma fold_Z_add_snoc (xs : list Z) (x : Z) :
  fold_left Z.add (xs ++ [x]) 0 = fold_left Z.add xs 0 + x.
Proof. rewrite fold_left_app. reflexivity. Qed.

(** X6. Recording a trade moves the statistics of its agent by that trade
    alone: one more trade, one more win exactly when its realized P&L is
    above zero, and a total P&L higher by its realized P&L; the statistics
    of every other agent are what they were. *)
Theorem record_trade_then_stats (agent_id : string) (trade : Trade.t) (d : DB) :
  let before := get_agent_stats agent_id d in
  let after := get_agent_stats agent_id (snd (record_trade trade d)) in
  if String.eqb (Trade.agent_id trade) agent_id then
    total_trades after = total_trades before + 1 /\
    winning_trades after
    = winning_trades before + (if Qlt_le_dec 0 (Trade.realized_pnl trade) then 1 else 0) /\
    (total_pnl after == total_pnl before + Trade.realized_pnl trade)%Q
  else after = before.
Proof.
  intros before after. unfold before, after, get_agent_stats.
  rewrite stats_rows_recorded.
  destruct (String.eqb (Trade.agent_id trade) agent_id).
  - set (rows := filter _ (trades d)).
    cbn [total_trades winning_trades total_pnl hd rev app trades snd record_trade commit].
    rewrite rev_app_distr. cbn [rev app hd].
    rewrite !or_Z_some, !or_Z_sum, !or_Q_sum, !map_app. cbn [map Trade.realized_pnl].
    unfold sql_count. rewrite length_app, fold_Z_add_snoc. cbn [List.length].
    split; [lia|]. split.
    + f_equal. fold (winning trade) . rewrite gtb_winning. unfold winning.
      destruct (Qlt_le_dec 0 (Trade.realized_pnl trade)); reflexivity.
    + unfold Qsum. rewrite fold_right_app. cbn [fold_right].
      generalize (map Trade.realized_pnl rows). intro xs.
      induction xs as [|x xs IH]; cbn [fold_right]; [ring|].
      rewrite IH. ring.
  - rewrite app_nil_r. reflexivity.
Qed.

Example record_trade_then_stats_sample :
  total_trades
    (get_agent_stats "test-agent-123"
       (snd (record_trade (Sample.trade "test-agent-123" 5) Sample.traded))) = 4 /\
  winning_trades
    (get_agent_stats "test-agent-123"
       (snd (record_trade (Sample.trade "test-agent-123" 5) Sample.traded))) = 2 /\
  get_agent_stats "someone-else"
    (snd (record_trade (Sample.trade "test-agent-123" 5) Sample.traded))
  = get_agent_stats "someone-else" Sample.traded.
Proof. repeat split. Qed.

(** ** Rankings *)

Section SortDesc.

Context {A : Type}.
Variable gt : A -> A -> bool.
Variable ge : A -> A -> Prop.

Hypothesis not_above : forall x y, gt y x = false -> ge x y.
Hypothesis above : forall x y, gt y x = true -> ge y x.
Hypothesis ge_trans : forall x y z, ge x y -> ge y z -> ge x z.

Lemma insert_desc_perm (x : A) (l : list A) : Permutation (insert_desc gt x l) (x :: l).
Proof.
  induction l as [|y l IH]; simpl; [reflexivity|].
  destruct (gt y x); [|reflexivity].
  rewrite IH. apply perm_swap.
Qed.

Lemma sort_desc_perm (l : list A) : Permutation (sort_desc gt l) l.
Proof.
  induction l as [|x l IH]; simpl; [reflexivity|].
  rewrite insert_desc_perm. constructor. exact IH.
Qed.

Lemma insert_desc_sorted (x : A) (l : list A) :
  StronglySorted ge l -> StronglySorted ge (insert_desc gt x l).
Proof.
  induction 1 as [|y l Hsorted IH Hy]; simpl.
  - constructor; constructor.
  - destruct (gt y x) eqn:Hgt.
    + constructor; [exact IH|].
      apply (Permutation_Forall (Permutation_sym (insert_desc_perm x l))).
      constructor; [exact (above _ _ Hgt)|exact Hy].
    + constructor; [constructor; assumption|].
      constructor; [exact (not_above _ _ Hgt)|].
      eapply Forall_impl; [|exact Hy].
      intros z Hz. exact (ge_trans _ _ _ (not_above _ _ Hgt) Hz).
Qed.

Lemma sort_desc_sorted (l : list A) : StronglySorted ge (sort_desc gt l).
Proof.
  induction l as [|x l IH]; simpl; [constructor|].
  apply insert_desc_sorted. exact IH.
Qed.

End SortDesc.

Lemma gtb_false (x y : Q) : gtb x y = false -> (x <= y)%Q.
Proof.
  intro H. destruct (Qlt_le_dec y x) as [Hlt|Hle]; [|exact Hle].
  apply gtb_spec in Hlt. congruence.
Qed.

Lemma pct_sorted (rows : list Agent.t) :
  StronglySorted pct_ge
    (sort_desc (fun y x => real_gt (Agent.final_pnl_pct y) (Agent.final_pnl_pct x)) rows).
Proof.
  apply sort_desc_sorted; unfold pct_ge, real_gt.
  - intros x y. destruct (Agent.final_pnl_pct y) as [b|]; [|trivial].
    destruct (Agent.final_pnl_pct x) as [a|]; [|discriminate]. apply gtb_false.
  - intros x y. destruct (Agent.final_pnl_pct x) as [a|]; [|trivial].
    destruct (Agent.final_pnl_pct y) as [b|]; [|discriminate].
    intro H. apply gtb_spec in H. apply Qlt_le_weak. exact H.
  - intros x y z. destruct (Agent.final_pnl_pct z) as [r|]; [|trivial].
    destruct (Agent.final_pnl_pct y) as [q|]; [|contradiction].
    destruct (Agent.final_pnl_pct x) as [p|]; [|contradiction].
    intros Hqp Hrq. exact (Qle_trans _ _ _ Hrq Hqp).
Qed.

(** X7. The listings of the store return exactly the rows they select, each
    as often as it is stored, best first: the closed agents by final P&L
    percentage, those without one last (the hall of fame shows this list as
    it is); the active agents and the trades of an agent by time, newest
    first. *)
Theorem listings_ranked (d : DB) :
  (Permutation (get_closed_agents d)
     (filter (fun r => String.eqb (Agent.status r) "closed") (agents d)) /\
   StronglySorted pct_ge (get_closed_agents d) /\
   forall w, hall_of_fame w = (Ok (get_closed_agents (db w)), w)) /\
  (Permutation (get_active_agents d)
     (filter (fun r => String.eqb (Agent.status r) "active") (agents d)) /\
   StronglySorted newer_agent (get_active_agents d)) /\
  (forall agent_id,
      Permutation (get_agent_trades agent_id d) (trades_of agent_id d) /\
      StronglySorted newer_trade (get_agent_trades agent_id d)).
Proof.
  split; [|split].
  - split; [apply sort_desc_perm|]. split; [apply pct_sorted|reflexivity].
  - split; [apply sort_desc_perm|].
    apply sort_desc_sorted; unfold newer_agent; intros x y; try intro z; lia.
  - intro agent_id. split; [apply sort_desc_perm|].
    apply sort_desc_sorted; unfold newer_trade; intros x y; try intro z; lia.
Qed.

(** ** Leaderboards *)

Lemma api_leaderboard_rows_run (agents : list Agent.t) (result : list LeaderboardRow)
    (w : World) :
  api_leaderboard_rows agents result w
  = (Ok (result ++ map (row_of (db w)) agents)%list, w).
Proof.
  revert result. induction agents as [|agent rest IH]; intro result; simpl.
  - rewrite app_nil_r. reflexivity.
  - unfold bind, query. rewrite IH, <- app_assoc. reflexivity.
Qed.

Lemma enrich_run (agents : list Agent.t) (enriched : list LeaderboardRow)
    (total_equity : Q) (total_trades_ : Z) (w : World) :
  enrich agents enriched total_equity total_trades_ w
  = (Ok ((enriched ++ map (row_of (db w)) agents)%list,
         fold_left Qplus (map lr_current_equity (map (row_of (db w)) agents)) total_equity,
         fold_left Z.add (map lr_trades (map (row_of (db w)) agents)) total_trades_),
     w).
Proof.
  revert enriched total_equity total_trades_.
  induction agents as [|agent rest IH]; intros enriched total_equity total_trades_; simpl.
  - rewrite app_nil_r. reflexivity.
  - unfold bind, query. rewrite IH, <- app_assoc. reflexivity.
Qed.

Lemma Qsum_perm (xs ys : list Q) : Permutation xs ys -> (Qsum xs == Qsum ys)%Q.
Proof.
  induction 1 as [|x xs ys _ IH|x y xs|xs ys zs _ IH1 _ IH2]; simpl.
  - reflexivity.
  - rewrite IH. reflexivity.
  - ring.
  - rewrite IH1. exact IH2.
Qed.

Lemma Zsum_perm (xs ys : list Z) : Permutation xs ys -> Zsum xs = Zsum ys.
Proof.
  induction 1 as [|x xs ys _ IH|x y xs|xs ys zs _ IH1 _ IH2]; simpl; lia.
Qed.

Lemma fold_Z_add (xs : list Z) (acc : Z) : fold_left Z.add xs acc = acc + Zsum xs.
Proof.
  revert acc. induction xs as [|x xs IH]; intro acc; simpl; [lia|]. rewrite IH. lia.
Qed.

Lemma rows_sorted (rows : list LeaderboardRow) :
  StronglySorted row_ge (sort_desc (fun y x => gtb (lr_pnl_pct y) (lr_pnl_pct x)) rows).
Proof.
  apply sort_desc_sorted; unfold row_ge.
  - intros x y. apply gtb_false.
  - intros x y H. apply gtb_spec in H. apply Qlt_le_weak. exact H.
  - intros x y z Hyx Hzy. exact (Qle_trans _ _ _ Hzy Hyx).
Qed.

(** X8. The leaderboard lists the active agents and nobody else, one entry
    each, by P&L percentage, best first; an entry shows the statistics of
    the store for its agent, with an equity of deposit plus realized P&L.
    The page shows the same ranking as the API, and its totals are the sums
    over the entries shown.  Neither touches the ledger or the exchange. *)
Theorem leaderboards_ranked (w : World) :
  exists rows page,
    api_leaderboard w = (Ok rows, w) /\
    leaderboard w = (Ok page, w) /\
    lp_agents page = rows /\
    Permutation rows
      (map (row_of (db w))
         (filter (fun r => String.eqb (Agent.status r) "active") (agents (db w)))) /\
    StronglySorted row_ge rows /\
    Forall (fun row => lr_current_equity row = (lr_deposit_amount row + lr_pnl row)%Q) rows /\
    (lp_total_equity page == Qsum (map lr_current_equity rows))%Q /\
    lp_total_trades page = Zsum (map lr_trades rows).
Proof.
  set (active := get_active_agents (db w)).
  set (rows := sort_desc (fun y x => gtb (lr_pnl_pct y) (lr_pnl_pct x))
                 (map (row_of (db w)) active)).
  assert (Hperm : Permutation rows (map (row_of (db w)) active))
    by apply sort_desc_perm.
  exists rows. eexists. split; [|split].
  - unfold api_leaderboard, bind at 1, query at 1.
    fold active. rewrite (bind_ok _ _ _ _ _ (api_leaderboard_rows_run active [] w)).
    reflexivity.
  - unfold leaderboard, bind at 1, query at 1.
    fold active. rewrite (bind_ok _ _ _ _ _ (enrich_run active [] 0%Q 0 w)).
    reflexivity.
  - cbn [lp_agents lp_total_equity lp_total_trades app].
    split; [reflexivity|]. split; [|split; [apply rows_sorted|split; [|split]]].
    + rewrite Hperm. apply Permutation_map. apply sort_desc_perm.
    + apply (Permutation_Forall (Permutation_sym Hperm)).
      apply Forall_forall. intros row Hrow.
      apply in_map_iff in Hrow. destruct Hrow as (agent & <- & _). reflexivity.
    + rewrite fold_Qplus, Qplus_0_l.
      apply Qsum_perm, Permutation_map, Permutation_sym, Hperm.
    + rewrite fold_Z_add, Z.add_0_l.
      apply Zsum_perm, Permutation_map, Permutation_sym, Hperm.
Qed.

Example leaderboard_sample :
  exists row,
    api_leaderboard {| db := Sample.traded; calls := [] |}
    = (Ok [row], {| db := Sample.traded; calls := [] |}) /\
    lr_name row = "TestAgent" /\
    lr_trades row = 3 /\
    (lr_pnl row == 20)%Q /\
    (lr_current_equity row == 1020)%Q /\
    (lr_pnl_pct row == 2)%Q.
Proof. eexists. split; [vm_compute; reflexivity|]. repeat split. Qed.

(** ** Exchange gateway: reads *)

Lemma neb_spec (x : Q) : neb x 0 = true <-> ~ (x == 0)%Q.
Proof.
  unfold neb. rewrite negb_true_iff. split.
  - intros H Heq. apply Qeq_bool_iff in Heq. congruence.
  - intro H. destruct (Qeq_bool x 0) eqn:Hb; [|reflexivity].
    apply Qeq_bool_iff in Hb. contradiction.
Qed.

Lemma Qabs_nonzero (x : Q) : ~ (x == 0)%Q -> ~ (Qabs x == 0)%Q.
Proof.
  intros Hx Habs. apply Hx.
  assert (Hle : (Qabs x <= 0)%Q) by (rewrite Habs; apply Qle_refl).
  apply Qabs_Qle_condition in Hle. destruct Hle as [Hlo Hhi].
  apply Qle_antisym; assumption.
Qed.

Section GatewayReads.

Variable E : Exchange.

(** X9. [get_positions] returns one entry for each asset position of the
    account whose size is not zero, in the order of the account state, and
    none for a flat one; the entry carries the coin and the signed size,
    and a mark price which, times the absolute size, gives back the
    position value that the exchange reported. *)
Theorem get_positions_open_only (self : AgentTrader) (w : World) (st : HL.UserState)
    (Hst : info_user_state E (calls w) (address self) = Returns st) :
  exists positions,
    get_positions E self w = (Ok positions, logged (user_state (address self)) w) /\
    Forall (fun p => ~ (PositionInfo.size p == 0)%Q) positions /\
    Forall2
      (fun raw p =>
         PositionInfo.symbol p = dflt (HL.coin raw) EmptyString /\
         PositionInfo.size p = dflt (HL.szi raw) 0%Q /\
         (PositionInfo.mark_price p * Qabs (PositionInfo.size p)
          == dflt (HL.positionValue raw) 0)%Q)
      (filter (fun raw => neb (dflt (HL.szi raw) 0%Q) 0) (HL.assetPositions st))
      positions.
Proof.
  exists (flat_map position_info (HL.assetPositions st)).
  split; [apply get_positions_returns; exact Hst|].
  generalize (HL.assetPositions st). intro raws.
  induction raws as [|raw raws [IHnz IHrel]]; simpl; [split; constructor|].
  unfold position_info at 1 3.
  destruct (neb (dflt (HL.szi raw) 0%Q) 0) eqn:Hnz; simpl; [|split; assumption].
  apply neb_spec in Hnz. split; constructor; try assumption.
  cbn. split; [reflexivity|]. split; [reflexivity|].
  unfold abs. field. apply Qabs_nonzero. exact Hnz.
Qed.

End GatewayReads.

Lemma get_positions_open_only_witness :
  exists positions,
    get_positions Sample.two_positions Sample.trader
      (Sample.world (Sample.agent "active" 1000))
    = (Ok positions,
       logged (user_state Sample.wallet) (Sample.world (Sample.agent "active" 1000))) /\
    Forall (fun p => ~ (PositionInfo.size p == 0)%Q) positions.
Proof.
  destruct (get_positions_open_only Sample.two_positions Sample.trader
              (Sample.world (Sample.agent "active" 1000))
              {| HL.accountValue := Some 1500%Q;
                 HL.totalMarginUsed := Some 0%Q;
                 HL.withdrawable := Some 1500%Q;
                 HL.assetPositions :=
                   [Sample.position "BTC" (1 # 10); Sample.position "ETH" (-1)]%Q |}
              eq_refl)
    as (positions & Hrun & Hnz & _).
  exists positions. split; [exact Hrun|exact Hnz].
Defined.

(** ** Exchange gateway: orders *)

Section GatewayOrders.

Variable E : Exchange.
Variable round : Q -> Z -> Q.

(** X10. The four operations that wrap their body in [try] always hand
    back an outcome, whatever the exchange answers or raises, and leave the
    ledger as it is. *)
Theorem guarded_operations_return (self : AgentTrader) (symbol side : string)
    (size slippage price : Q) (reduce_only is_cross : bool) (order_id leverage : Z)
    (w : World) :
  (exists r w',
      market_order E round self symbol side size slippage w = (Ok r, w') /\ db w' = db w) /\
  (exists r w',
      limit_order E self symbol side size price reduce_only w = (Ok r, w') /\
      db w' = db w) /\
  (exists ok w', cancel_order E self symbol order_id w = (Ok ok, w') /\ db w' = db w) /\
  (exists ok w',
      set_leverage E self symbol leverage is_cross w = (Ok ok, w') /\ db w' = db w).
Proof.
  repeat split.
  - destruct (market_order_returns E round self symbol side size slippage w) as (r & w' & H).
    exists r, w'. split; [exact H|]. exact (pd_run _ _ _ _ (pd_market_order E round _ _ _ _ _) H).
  - destruct (limit_order_returns E self symbol side size price reduce_only w)
      as (r & w' & H).
    exists r, w'. split; [exact H|].
    exact (pd_run _ _ _ _ (pd_limit_order E _ _ _ _ _ _) H).
  - destruct (cancel_order_returns E self symbol order_id w) as (r & w' & H).
    exists r, w'. split; [exact H|]. exact (pd_run _ _ _ _ (pd_cancel_order E _ _ _) H).
  - destruct (set_leverage_returns E self symbol leverage is_cross w) as (r & w' & H).
    exists r, w'. split; [exact H|]. exact (pd_run _ _ _ _ (pd_set_leverage E _ _ _ _) H).
Qed.

(** X11. When the exchange raises on the order itself, both kinds of order
    report a failure whose message is "Error: " followed by the text of the
    exception; the order was attempted once. *)
Theorem order_error_is_reported (self : AgentTrader) (symbol side : string)
    (size slippage price : Q) (reduce_only : bool) (w : World)
    (mids : list (string * Q)) (mid : Q) (msg : string)
    (Hmids : info_all_mids E (calls w) = Returns mids)
    (Hmid : lookup symbol mids = Some mid)
    (Hdown : forall h sym is_buy sz px tif ro,
        exchange_order E h sym is_buy sz px tif ro = Raises msg) :
  (exists w',
      market_order E round self symbol side size slippage w
      = (Ok {| success := false; order_id := None; message := "Error: " ++ msg;
               filled_size := 0%Q; avg_price := 0%Q |}, w') /\
      exists px, calls w' = order symbol (String.eqb side "buy") size px "Ioc" false
                              :: all_mids :: calls w) /\
  limit_order E self symbol side size price reduce_only w
  = (Ok {| success := false; order_id := None; message := "Error: " ++ msg;
           filled_size := 0%Q; avg_price := 0%Q |},
     logged (order symbol (String.eqb side "buy") size price "Gtc" reduce_only) w).
Proof.
  split.
  - unfold market_order, try_except.
    rewrite (bind_ok _ _ _ _ _ (remote_call_returns _ _ w mids Hmids)), Hmid.
    erewrite bind_raise by (apply remote_call_raises; apply Hdown).
    eexists. split; [reflexivity|]. eexists. reflexivity.
  - unfold limit_order, try_except.
    erewrite bind_raise by (apply remote_call_raises; apply Hdown).
    reflexivity.
Qed.

(** X12. A market order for a symbol that the exchange does not quote
    sends nothing: the only call made is the one for the mid prices, and
    the outcome is the failure "Unknown symbol: <symbol>". *)
Theorem market_order_unknown_symbol (self : AgentTrader) (symbol side : string)
    (size slippage : Q) (w : World) (mids : list (string * Q))
    (Hmids : info_all_mids E (calls w) = Returns mids)
    (Hunknown : lookup symbol mids = None) :
  market_order E round self symbol side size slippage w
  = (Ok {| success := false; order_id := None; message := "Unknown symbol: " ++ symbol;
           filled_size := 0%Q; avg_price := 0%Q |},
     logged all_mids w).
Proof.
  unfold market_order, try_except.
  rewrite (bind_ok _ _ _ _ _ (remote_call_returns _ _ w mids Hmids)), Hunknown.
  reflexivity.
Qed.

(** X13. A limit order makes exactly one call: the order itself, good till
    cancelled, at the price it was given, unrounded, with the reduce-only
    flag as passed, a buy exactly when the side is "buy".  Its outcome is a
    success only if the exchange answered with status "ok", and then it
    carries the order id that the exchange reported. *)
Theorem limit_order_sends (self : AgentTrader) (symbol side : string)
    (size price : Q) (reduce_only : bool) (w : World) :
  exists r,
    limit_order E self symbol side size price reduce_only w
    = (Ok r, logged (order symbol (String.eqb side "buy") size price "Gtc" reduce_only) w) /\
    match exchange_order E (calls w) symbol (String.eqb side "buy") size price
            "Gtc" reduce_only with
    | Returns answer =>
        if success r
        then HL.status answer = Some "ok" /\ exists oid, order_id r = Some oid
        else order_id r = None
    | Raises _ => success r = false /\ order_id r = None
    end.
Proof.
  unfold limit_order, try_except, bind, remote_call, ret.
  destruct (exchange_order E (calls w) symbol (String.eqb side "buy") size price
              "Gtc" reduce_only) as [answer|msg].
  - eexists. split; [reflexivity|]. unfold limit_outcome.
    destruct (HL.status answer) as [s|]; cbn [is_ok]; [|reflexivity].
    destruct (String.eqb_spec s "ok") as [->|]; [|reflexivity].
    destruct (dflt (HL.statuses answer) _) as [|s0 rest]; [reflexivity|].
    destruct (HL.resting s0) as [oid|]; cbn [success order_id].
    + split; [reflexivity|]. eexists. reflexivity.
    + destruct (HL.filled s0); cbn [success order_id failed].
      * split; [reflexivity|]. eexists. reflexivity.
      * reflexivity.
  - eexists. split; [reflexivity|split; reflexivity].
Qed.

Lemma cancel_order_run (self : AgentTrader) (symbol : string) (order_id : Z) (w : World) :
  exists ok,
    cancel_order E self symbol order_id w = (Ok ok, logged (cancel symbol order_id) w).
Proof.
  unfold cancel_order, try_except, bind, remote_call, ret.
  destruct (exchange_cancel E (calls w) symbol order_id); eexists; reflexivity.
Qed.

Lemma cancel_each_run (self : AgentTrader) (orders : list OpenOrderInfo) :
  Forall (fun o => oo_order_id o <> None) orders ->
  forall cancelled w,
  exists n w',
    cancel_each E self orders cancelled w = (Ok n, w') /\
    cancelled <= n <= cancelled + Z.of_nat (List.length orders) /\
    db w' = db w /\
    calls w'
    = (rev (map (fun o => cancel (oo_symbol o) (dflt (oo_order_id o) 0)) orders)
       ++ calls w)%list.
Proof.
  induction 1 as [|o rest Ho _ IH]; intros cancelled w.
  - exists cancelled, w. cbn. repeat split; lia.
  - cbn [cancel_each]. destruct (oo_order_id o) as [oid|] eqn:Hoid; [|congruence].
    destruct (cancel_order_run self (oo_symbol o) oid w) as [ok Hok].
    rewrite (bind_ok _ _ _ _ _ Hok).
    destruct (IH (if ok then cancelled + 1 else cancelled)
                (logged (cancel (oo_symbol o) oid) w))
      as (n & w' & Hrun & Hn & Hdb & Hcalls).
    exists n, w'. split; [exact Hrun|]. split; [|split; [exact Hdb|]].
    + cbn [List.length]. destruct ok; lia.
    + rewrite Hcalls. cbn [map rev logged calls]. rewrite Hoid. cbn [dflt].
      rewrite <- app_assoc. reflexivity.
Qed.

(** X14. [cancel_all_orders] is best effort: it reads the open orders,
    keeps those of the symbol when one is given, and then sends one cancel
    for every order kept, in order, whether or not the earlier ones went
    through; the count it returns lies between 0 and the number of orders
    kept, and the ledger is not touched. *)
Theorem cancel_all_orders_best_effort (self : AgentTrader) (symbol : option string)
    (w : World) (os : list HL.OpenOrder)
    (Hos : info_open_orders E (calls w) (address self) = Returns os)
    (Hoid : Forall (fun o => HL.oid o <> None) os) :
  let kept :=
    match symbol with
    | Some s =>
        if String.eqb s EmptyString then os
        else filter (fun o => String.eqb (dflt (HL.o_coin o) EmptyString) s) os
    | None => os
    end in
  exists n w',
    cancel_all_orders E self symbol w = (Ok n, w') /\
    0 <= n <= Z.of_nat (List.length kept) /\
    db w' = db w /\
    calls w'
    = (rev (map (fun o => cancel (dflt (HL.o_coin o) EmptyString) (dflt (HL.oid o) 0)) kept)
       ++ open_orders (address self) :: calls w)%list.
Proof.
  intro kept. unfold cancel_all_orders, get_open_orders.
  rewrite (bind_ok _ _ w (logged (open_orders (address self)) w) (map open_order_info os))
    by (rewrite (bind_ok _ _ _ _ _ (remote_call_returns _ _ w os Hos)); reflexivity).
  assert (Hkept : match symbol with
                  | Some s =>
                      if String.eqb s EmptyString then map open_order_info os
                      else filter (fun o => String.eqb (oo_symbol o) s)
                             (map open_order_info os)
                  | None => map open_order_info os
                  end = map open_order_info kept).
  { unfold kept. destruct symbol as [s|]; [|reflexivity].
    destruct (String.eqb s EmptyString); [reflexivity|].
    clear. induction os as [|o os IH]; simpl; [reflexivity|].
    destruct (String.eqb (dflt (HL.o_coin o) EmptyString) s); simpl; rewrite IH; reflexivity. }
  rewrite Hkept.
  assert (Hkoid : Forall (fun o => HL.oid o <> None) kept).
  { unfold kept. destruct symbol as [s|]; [|exact Hoid].
    destruct (String.eqb s EmptyString); [exact Hoid|].
    apply Forall_forall. intros o Ho. apply filter_In in Ho.
    exact (proj1 (Forall_forall _ _) Hoid o (proj1 Ho)). }
  assert (Hinfo : Forall (fun o => oo_order_id o <> None) (map open_order_info kept))
    by (apply Forall_map; exact Hkoid).
  destruct (cancel_each_run self (map open_order_info kept) Hinfo 0
              (logged (open_orders (address self)) w))
    as (n & w' & Hrun & Hn & Hdb & Hcalls).
  exists n, w'. split; [exact Hrun|]. rewrite length_map in Hn.
  split; [lia|]. split; [exact Hdb|].
  rewrite Hcalls, map_map. reflexivity.
Qed.

End GatewayOrders.

Lemma order_error_is_reported_witness :
  limit_order Sample.refusing Sample.trader "BTC" "buy" 1 (7 # 10) false
    (Sample.world (Sample.agent "active" 1000))
  = (Ok {| success := false; order_id := None;
           message := "Error: insufficient margin";
           filled_size := 0%Q; avg_price := 0%Q |},
     logged (order "BTC" true 1 (7 # 10) "Gtc" false)
       (Sample.world (Sample.agent "active" 1000))).
Proof.
  apply (order_error_is_reported Sample.refusing Sample.round Sample.trader "BTC" "buy" 1 (5 # 100)
           (7 # 10) false (Sample.world (Sample.agent "active" 1000))
           [("BTC", 3 # 4); ("SOL", 200 # 1)]%Q (3 # 4)%Q "insufficient margin").
  - reflexivity.
  - reflexivity.
  - intros. reflexivity.
Defined.

Lemma market_order_unknown_symbol_witness :
  market_order (Sample.flat 1500) Sample.round Sample.trader "DOGE" "buy" 1 (5 # 100)
    (Sample.world (Sample.agent "active" 1000))
  = (Ok {| success := false; order_id := None; message := "Unknown symbol: DOGE";
           filled_size := 0%Q; avg_price := 0%Q |},
     logged all_mids (Sample.world (Sample.agent "active" 1000))).
Proof.
  apply (market_order_unknown_symbol (Sample.flat 1500) Sample.round Sample.trader "DOGE" "buy" 1
           (5 # 100) (Sample.world (Sample.agent "active" 1000))
           [("BTC", 3 # 4); ("SOL", 200 # 1)]%Q).
  - reflexivity.
  - reflexivity.
Defined.

Lemma cancel_all_orders_best_effort_witness :
  exists n w',
    cancel_all_orders Sample.resting Sample.trader None
      (Sample.world (Sample.agent "active" 1000)) = (Ok n, w') /\
    calls w' = [cancel "BTC" 2; cancel "ETH" 1; open_orders Sample.wallet].
Proof.
  destruct (cancel_all_orders_best_effort Sample.resting Sample.trader None
              (Sample.world (Sample.agent "active" 1000))
              [Sample.open_order 1 "ETH"; Sample.open_order 2 "BTC"])
    as (n & w' & Hrun & _ & _ & Hcalls).
  - reflexivity.
  - repeat constructor; discriminate.
  - exists n, w'. split; [exact Hrun|exact Hcalls].
Defined.

(** The failed cancel of the first order does not stop the second. *)
Example cancel_all_orders_sample :
  fst (cancel_all_orders Sample.resting Sample.trader None
         (Sample.world (Sample.agent "active" 1000))) = Ok 1.
Proof. reflexivity. Qed.

(** ** Registration and authentication *)

Section AppMore.

Variable E : Exchange.
Variable address_of_key : string -> option string.
Variable sha256_hexdigest : string -> string.
Variable round : Q -> Z -> Q.
Variable float_of_string : string -> option Q.

(** X15. Authentication reads only: the world is left as it is.  It
    succeeds only with a stored agent whose credential hash is the hash of
    the key presented, a key that starts with "rc_"; every failure is a
    401, and a key of the right form is never answered with the format
    message. *)
Theorem authentication_sound (x_api_key : option string) (w : World) :
  snd (get_agent_from_api_key sha256_hexdigest x_api_key w) = w /\
  match fst (get_agent_from_api_key sha256_hexdigest x_api_key w) with
  | Ok agent =>
      exists k,
        x_api_key = Some k /\
        String.prefix "rc_" k = true /\
        In agent (agents (db w)) /\
        Agent.api_key_hash agent = sha256_hexdigest k
  | Raise e =>
      match x_api_key with
      | Some k =>
          if String.prefix "rc_" k
          then e = HTTPException 401 "Invalid API key"
          else e = HTTPException 401 "Invalid API key format"
      | None => e = HTTPException 401 "Invalid API key format"
      end
  end.
Proof.
  unfold get_agent_from_api_key. destruct x_api_key as [k|]; [|split; reflexivity].
  destruct (String.prefix "rc_" k) eqn:Hp.
  - rewrite (prefix_nonempty "rc_" k) by (discriminate || exact Hp).
    cbn [negb orb]. unfold bind, query, get_agent_by_api_key_hash.
    destruct (find _ (agents (db w))) as [agent|] eqn:Hfind; cbn; [|split; reflexivity].
    split; [reflexivity|]. exists k. apply find_some in Hfind.
    destruct Hfind as [Hin Hhash]. apply String.eqb_eq in Hhash. auto.
  - rewrite orb_true_r. split; reflexivity.
Qed.

Lemma gtb_le (x y : Q) : (x <= y)%Q -> gtb x y = false.
Proof.
  intro Hle. destruct (gtb x y) eqn:Hg; [|reflexivity].
  apply gtb_spec in Hg. exfalso. exact (Qlt_not_le _ _ Hg Hle).
Qed.

(** X16. Registration stores an agent only when the name has 3 to 32
    characters, the deposit lies between 10 and 100 and the name is free;
    the agent it stores is pending its deposit, keeps the hash of the key
    "rc_<token>" handed out and not the key, and is the one statement
    committed.  Every other outcome, a form error or a refused insert,
    leaves the world as it was; the exchange is never called. *)
Theorem register_agent_checks (name : string) (deposit_amount : Q)
    (withdrawal_address : string) (fresh : Fresh) (now : datetime) (w : World) :
  match register_agent sha256_hexdigest name deposit_amount withdrawal_address fresh now w
  with
  | (Ok (Registered agent api_key), w') =>
      (3 <= len name <= 32)%nat /\
      (10 <= deposit_amount)%Q /\ (deposit_amount <= 100)%Q /\
      get_agent_by_name name (db w) = None /\
      Agent.status agent = "pending_deposit" /\
      Agent.name agent = name /\
      Agent.deposit_amount agent = deposit_amount /\
      Agent.withdrawal_address agent = Some withdrawal_address /\
      api_key = "rc_" ++ token_urlsafe fresh /\
      Agent.api_key_hash agent = sha256_hexdigest api_key /\
      committed (db w') = InsertAgent agent :: committed (db w) /\
      trades (db w') = trades (db w) /\
      calls w' = calls w
  | (_, w') => w' = w
  end.
Proof.
  unfold register_agent.
  destruct (len name <? 3)%nat eqn:Hshort; [reflexivity|].
  destruct (32 <? len name)%nat eqn:Hlong; [reflexivity|].
  cbn [orb].
  destruct (gtb 10 deposit_amount) eqn:Hlow; [reflexivity|].
  destruct (gtb deposit_amount 100) eqn:Hhigh; [reflexivity|].
  cbn [orb]. unfold bind at 1. unfold query at 1.
  destruct (get_agent_by_name name (db w)) eqn:Hfree; [reflexivity|].
  unfold bind, execute, create_agent.
  destruct (existsb _ (agents (db w))); cbn.
  - destruct w. reflexivity.
  - apply Nat.ltb_ge in Hshort. apply Nat.ltb_ge in Hlong.
    apply gtb_false in Hlow. apply gtb_false in Hhigh.
    repeat split; assumption.
Qed.

Lemma rc_prefix (token : string) : String.prefix "rc_" ("rc_" ++ token) = true.
Proof. apply prefix_correct. cbn. destruct token; reflexivity. Qed.

Lemma find_hash_snoc (h : string) (rows : list Agent.t) (row : Agent.t) :
  find (fun r => String.eqb (Agent.api_key_hash r) h) rows = None ->
  Agent.api_key_hash row = h ->
  find (fun r => String.eqb (Agent.api_key_hash r) h) (rows ++ [row]) = Some row.
Proof.
  intros Hnone Hrow. rewrite find_snoc, Hnone, Hrow, String.eqb_refl. reflexivity.
Qed.

(** X17. The key handed out at registration opens the account that was
    registered: once a registration is accepted (valid name and deposit,
    free name, fresh id, wallet and credential hash), authentication with
    the returned key yields the stored agent, which is pending its deposit;
    and with that key an order is refused, naming the status, before
    anything reaches the exchange. *)
Theorem register_then_authenticate (name : string) (deposit_amount : Q)
    (withdrawal_address : string) (fresh : Fresh) (now : datetime) (w : World)
    (body : OrderBody)
    (Hname : (3 <= len name <= 32)%nat)
    (Hlow : (10 <= deposit_amount)%Q) (Hhigh : (deposit_amount <= 100)%Q)
    (Hfree : get_agent_by_name name (db w) = None)
    (Hid : get_agent (uuid4 fresh) (db w) = None)
    (Hwallet : forall r, In r (agents (db w)) ->
               Agent.wallet_address r <> account_address fresh)
    (Hhash : get_agent_by_api_key_hash
               (sha256_hexdigest ("rc_" ++ token_urlsafe fresh)) (db w) = None) :
  exists agent w' row,
    register_agent sha256_hexdigest name deposit_amount withdrawal_address fresh now w
    = (Ok (Registered agent ("rc_" ++ token_urlsafe fresh)), w') /\
    get_agent_from_api_key sha256_hexdigest (Some ("rc_" ++ token_urlsafe fresh)) w'
    = (Ok row, w') /\
    Agent.id row = uuid4 fresh /\
    Agent.name row = name /\
    Agent.deposit_amount row = deposit_amount /\
    Agent.status row = "pending_deposit" /\
    api_place_order E address_of_key sha256_hexdigest round float_of_string
      (Some ("rc_" ++ token_urlsafe fresh)) body w'
    = (Raise (HTTPException 400 "Agent is pending_deposit, not active. Cannot trade."),
       w').
Proof.
  set (agent :=
         {| Agent.id := uuid4 fresh; Agent.name := name;
            Agent.wallet_address := account_address fresh;
            Agent.private_key_encrypted := account_key_hex fresh;
            Agent.api_key_hash := sha256_hexdigest ("rc_" ++ token_urlsafe fresh);
            Agent.deposit_amount := deposit_amount;
            Agent.deposit_tx := None; Agent.created_at := now;
            Agent.status := "pending_deposit"; Agent.closed_at := None;
            Agent.final_equity := None; Agent.final_pnl := None;
            Agent.final_pnl_pct := None; Agent.withdrawal_tx := None;
            Agent.withdrawal_address := Some withdrawal_address |}).
  set (w' := {| db := commit (InsertAgent agent) (db w)
                        (agents (db w) ++ [agent]) (trades (db w));
                calls := calls w |}).
  assert (Hrun : register_agent sha256_hexdigest name deposit_amount
                   withdrawal_address fresh now w
                 = (Ok (Registered agent ("rc_" ++ token_urlsafe fresh)), w')).
  { unfold register_agent.
    replace (len name <? 3)%nat with false
      by (symmetry; apply Nat.ltb_ge; lia).
    replace (32 <? len name)%nat with false
      by (symmetry; apply Nat.ltb_ge; lia).
    rewrite (gtb_le _ _ Hlow), (gtb_le _ _ Hhigh). cbn [orb].
    unfold bind at 1. unfold query at 1. rewrite Hfree.
    fold agent. unfold bind, execute, create_agent.
    rewrite (no_duplicate_key agent (db w) Hid Hwallet). reflexivity. }
  assert (Hauth : authenticates sha256_hexdigest (Some ("rc_" ++ token_urlsafe fresh))
                    (db w') agent).
  { eexists. split; [reflexivity|]. split; [apply rc_prefix|].
    unfold get_agent_by_api_key_hash in *. cbn [db agents w' commit].
    apply find_hash_snoc; [exact Hhash|reflexivity]. }
  exists agent, w', agent. split; [exact Hrun|].
  split; [apply authenticated; exact Hauth|]. repeat split.
  rewrite (place_order_requires_active E address_of_key sha256_hexdigest
        round float_of_string _ body _ agent
             Hauth) by discriminate.
  reflexivity.
Qed.

End AppMore.

(** The length of a name is counted in characters, not in bytes: a name of
    two accented letters, four bytes long, is too short, and one of
    seventeen, thirty-four bytes long, is accepted. *)
Example register_agent_counts_characters :
  len (Sample.repeated Sample.e_acute 2) = 2%nat /\
  String.length (Sample.repeated Sample.e_acute 2) = 4%nat /\
  register_agent Sample.sha256 (Sample.repeated Sample.e_acute 2) 50 "0xw"
    {| uuid4 := "id-2"; account_address := "0xnew"; account_key_hex := "0xkey";
       token_urlsafe := "tok" |}
    Sample.now (Sample.world (Sample.agent "active" 1000))
  = (Ok (RegisterForm "Agent name must be 3-32 characters."),
     Sample.world (Sample.agent "active" 1000)) /\
  String.length (Sample.repeated Sample.e_acute 17) = 34%nat /\
  exists agent w',
    register_agent Sample.sha256 (Sample.repeated Sample.e_acute 17) 50 "0xw"
      {| uuid4 := "id-2"; account_address := "0xnew"; account_key_hex := "0xkey";
         token_urlsafe := "tok" |}
      Sample.now (Sample.world (Sample.agent "active" 1000))
    = (Ok (Registered agent "rc_tok"), w').
Proof.
  split; [reflexivity|]. split; [reflexivity|]. split; [reflexivity|].
  split; [reflexivity|]. do 2 eexists. vm_compute. reflexivity.
Qed.

Lemma register_then_authenticate_witness :
  exists agent w' row,
    register_agent Sample.sha256 "Newcomer" 50 "0xw"
      {| uuid4 := "id-2"; account_address := "0xnew"; account_key_hex := "0xkey";
         token_urlsafe := "tok" |}
      Sample.now (Sample.world (Sample.agent "active" 1000))
    = (Ok (Registered agent "rc_tok"), w') /\
    get_agent_from_api_key Sample.sha256 (Some "rc_tok") w' = (Ok row, w') /\
    Agent.status row = "pending_deposit".
Proof.
  destruct (register_then_authenticate (Sample.flat 1500) Sample.from_key Sample.sha256
        Sample.round Sample.float_of_string
              "Newcomer" 50 "0xw"
              {| uuid4 := "id-2"; account_address := "0xnew"; account_key_hex := "0xkey";
                 token_urlsafe := "tok" |}
              Sample.now (Sample.world (Sample.agent "active" 1000))
              {| ob_symbol := None; ob_side := None; ob_size := None;
                 ob_price := None; ob_type := None |})
    as (agent & w' & row & Hrun & Hauth & _ & _ & _ & Hstatus & _).
  - cbn. lia.
  - discriminate.
  - discriminate.
  - reflexivity.
  - reflexivity.
  - intros r [<-|[]]. discriminate.
  - reflexivity.
  - exists agent, w', row. repeat split; assumption.
Defined.

(** ** Orders through the API *)

Section AppOrders.

Variable E : Exchange.
Variable address_of_key : string -> option string.
Variable sha256_hexdigest : string -> string.
Variable round : Q -> Z -> Q.
Variable float_of_string : string -> option Q.


Lemma limit_order_run (self : AgentTrader) (symbol side : string) (size price : Q)
    (reduce_only : bool) (w : World) :
  exists r,
    limit_order E self symbol side size price reduce_only w
    = (Ok r, logged (order symbol (String.eqb side "buy") size price "Gtc" reduce_only) w).
Proof.
  unfold limit_order, try_except, bind, remote_call, ret.
  destruct (exchange_order E (calls w) symbol (String.eqb side "buy") size price
              "Gtc" reduce_only); eexists; reflexivity.
Qed.

(** X19. An order request that carries a price and any type other than
    "market" (so "limit", and "stop" as well) is placed as one plain limit
    order: good till cancelled, for the size and at the price that [float]
    reads from the request, not reduce-only; nothing else is sent and the
    ledger is not touched. *)
Theorem place_order_with_price_is_limit
    (x_api_key : option string) (body : OrderBody) (w : World) (agent : Agent.t)
    (symbol side type addr : string) (size price : json) (sz px : Q)
    (Hauth : authenticates sha256_hexdigest x_api_key (db w) agent)
    (Hactive : Agent.status agent = "active")
    (Hsymbol : ob_symbol body = Some symbol) (Hnamed : symbol <> EmptyString)
    (Hside : ob_side body = Some side) (Hbuysell : side = "buy" \/ side = "sell")
    (Hsize : ob_size body = Some size) (Htruthy : truthy size = true)
    (Hsz : float float_of_string size = Some sz)
    (Hprice : ob_price body = Some price)
    (Hpx : float float_of_string price = Some px)
    (Htype : ob_type body = Some type) (Hnotmarket : type <> "market")
    (Hkey : address_of_key (normalized (Agent.private_key_encrypted agent)) = Some addr) :
  exists response,
    api_place_order E address_of_key sha256_hexdigest round float_of_string x_api_key body w
    = (Ok response,
       logged (order symbol (String.eqb side "buy") sz px "Gtc" false) w).
Proof.
  unfold api_place_order.
  rewrite (bind_ok _ _ w w agent) by (apply authenticated; exact Hauth).
  rewrite Hactive, String.eqb_refl, Hsymbol, Hside, Hsize, Hprice, Htype.
  cbn [negb dflt].
  destruct (String.eqb_spec symbol EmptyString); [contradiction|].
  assert (Hs : String.eqb side EmptyString = false)
    by (destruct Hbuysell as [-> | ->]; reflexivity).
  assert (Hbs : String.eqb side "buy" || String.eqb side "sell" = true)
    by (destruct Hbuysell as [-> | ->]; reflexivity).
  rewrite Hs, Hbs, Htruthy, Hsz, Hpx. cbn [orb negb].
  rewrite (bind_ok _ _ w w (sz, Some px)) by (destruct (truthy price); reflexivity).
  rewrite (bind_ok _ _ w w {| address := addr |})
    by (apply create_trader_returns; exact Hkey).
  destruct (String.eqb_spec type "market"); [contradiction|].
  destruct (limit_order_run {| address := addr |} symbol side sz px false w)
    as [r Hr].
  rewrite (bind_ok _ _ _ _ _ Hr).
  destruct (success r); eexists; reflexivity.
Qed.

End AppOrders.


(** A size sent as the string "0" is not missing: the order goes out, for
    the size zero. *)
Example place_order_text_zero :
  exists response limit_price,
    api_place_order (Sample.flat 1500) Sample.from_key Sample.sha256 Sample.round
      Sample.float_of_string (Some Sample.api_key)
      {| ob_symbol := Some "BTC"; ob_side := Some "buy";
         ob_size := Some (JString "0" EmptyString);
         ob_price := None; ob_type := None |}
      (Sample.world (Sample.agent "active" 1000))
    = (Ok response,
       {| db := Sample.ledger (Sample.agent "active" 1000);
          calls := [order "BTC" true 0 limit_price "Ioc" false; all_mids] |}).
Proof. do 2 eexists. vm_compute. reflexivity. Qed.

(** A size or a price that [float] cannot read is refused before the
    gateway is built. *)
Example place_order_invalid_size :
  api_place_order (Sample.flat 1500) Sample.from_key Sample.sha256 Sample.round
    Sample.float_of_string (Some Sample.api_key)
    {| ob_symbol := Some "BTC"; ob_side := Some "buy";
       ob_size := Some (JString "l" "ots");
       ob_price := None; ob_type := None |}
    (Sample.world (Sample.agent "active" 1000))
  = (Raise (HTTPException 400 "Invalid size or price"),
     Sample.world (Sample.agent "active" 1000)).
Proof. reflexivity. Qed.

Lemma place_order_with_price_is_limit_witness :
  exists response,
    api_place_order (Sample.flat 1500) Sample.from_key Sample.sha256 Sample.round
      Sample.float_of_string (Some Sample.api_key)
      {| ob_symbol := Some "BTC"; ob_side := Some "sell"; ob_size := Some (JNumber 2);
         ob_price := Some (JString "0" ".5"); ob_type := Some "stop" |}
      (Sample.world (Sample.agent "active" 1000))
    = (Ok response,
       logged (order "BTC" false 2 (1 # 2) "Gtc" false)
         (Sample.world (Sample.agent "active" 1000))).
Proof.
  apply (place_order_with_price_is_limit (Sample.flat 1500) Sample.from_key
           Sample.sha256 Sample.round Sample.float_of_string (Some Sample.api_key)
           {| ob_symbol := Some "BTC"; ob_side := Some "sell"; ob_size := Some (JNumber 2);
              ob_price := Some (JString "0" ".5"); ob_type := Some "stop" |}
           (Sample.world (Sample.agent "active" 1000)) (Sample.agent "active" 1000)
           "BTC" "sell" "stop" Sample.wallet (JNumber 2) (JString "0" ".5") 2 (1 # 2)%Q).
  - exists Sample.api_key. repeat split.
  - reflexivity.
  - reflexivity.
  - discriminate.
  - reflexivity.
  - right. reflexivity.
  - reflexivity.
  - reflexivity.
  - reflexivity.
  - reflexivity.
  - reflexivity.
  - reflexivity.
  - discriminate.
  - reflexivity.
Defined.

(** ** What the handlers write *)

Section AppWrites.

Variable E : Exchange.
Variable address_of_key : string -> option string.
Variable sha256_hexdigest : string -> string.
Variable round : Q -> Z -> Q.
Variable float_of_string : string -> option Q.

Lemma close_account_write (x_api_key : option string) (now : datetime) (w : World) :
  db (snd (api_close_account E address_of_key sha256_hexdigest round x_api_key now w)) = db w
  \/ exists agent final_balance,
       db (snd (api_close_account E address_of_key sha256_hexdigest round x_api_key now w))
       = snd (update_agent_status (Agent.id agent) "closed"
                (closing_kwargs agent final_balance now) (db w)).
Proof.
  unfold api_close_account.
  destruct (get_agent_from_api_key_cases sha256_hexdigest x_api_key w)
    as [(agent & Hauth & Hrun)|(detail & Hrun)].
  2: { rewrite (bind_raise _ _ _ _ _ Hrun). left. reflexivity. }
  rewrite (bind_ok _ _ _ _ _ Hrun).
  destruct (String.eqb (Agent.status agent) "closed"); [left; reflexivity|].
  set (P := fun d : DB =>
              d = db w \/
              exists final_balance,
                d = snd (update_agent_status (Agent.id agent) "closed"
                           (closing_kwargs agent final_balance now) (db w))).
  assert (HP : P (db w)) by (left; reflexivity).
  match goal with
  | |- db (snd ?run) = _ \/ _ => enough (Hgoal : P (db (snd run)))
  end.
  { destruct Hgoal as [Hsame|[final_balance Hkw]]; [left; exact Hsame|].
    right. exists agent, final_balance. exact Hkw. }
  apply (bind_pd _ _ (db w)); [apply pd_create_trader|reflexivity|exact HP|].
  intros trader w1 Hw1.
  apply (bind_pd _ _ (db w)); [apply pd_get_positions|exact Hw1|exact HP|].
  intros positions w2 Hw2.
  apply (bind_pd _ _ (db w)); [apply pd_close_each|exact Hw2|exact HP|].
  intros [closed errs] w3 Hw3.
  apply (bind_pd _ _ (db w)); [apply pd_cancel_all_orders|exact Hw3|exact HP|].
  intros cancelled_count w4 Hw4.
  apply (bind_pd _ _ (db w)); [apply pd_get_balance|exact Hw4|exact HP|].
  intros balance_info w5 Hw5.
  right. exists (account_value balance_info).
  unfold bind, execute, update_agent_status. cbn. rewrite Hw5.
  destruct errs; reflexivity.
Qed.

Lemma register_agent_write (name : string) (deposit_amount : Q)
    (withdrawal_address : string) (fresh : Fresh) (now : datetime) (w : World) :
  db (snd (register_agent sha256_hexdigest name deposit_amount
             withdrawal_address fresh now w)) = db w
  \/ exists agent,
       Agent.status agent = "pending_deposit" /\
       get_agent_by_name (Agent.name agent) (db w) = None /\
       db (snd (register_agent sha256_hexdigest name deposit_amount
                  withdrawal_address fresh now w))
       = snd (create_agent agent (db w)).
Proof.
  remember (register_agent sha256_hexdigest name deposit_amount
              withdrawal_address fresh now w) as run eqn:Hrun.
  unfold register_agent in Hrun.
  destruct ((len name <? 3)%nat || (32 <? len name)%nat);
    [subst run; left; reflexivity|].
  destruct (gtb 10 deposit_amount || gtb deposit_amount 100);
    [subst run; left; reflexivity|].
  unfold bind, query, execute in Hrun.
  destruct (get_agent_by_name name (db w)) eqn:Hfree; [subst run; left; reflexivity|].
  right. eexists. subst run.
  split; [|split]; [| |destruct (create_agent _ (db w)) as [[a|e] d'] eqn:Hcreate;
                       cbn; rewrite Hcreate; reflexivity].
  - reflexivity.
  - exact Hfree.
Qed.

(** A request commits at most one statement: the closing update of an
    agent, or the insert of a pending agent under a name that is free. *)
Lemma handle_write (request : Request) (w : World) :
  db (snd (handle E address_of_key sha256_hexdigest round float_of_string request w)) = db w
  \/ (exists agent final_balance now,
        db (snd (handle E address_of_key sha256_hexdigest round float_of_string request w))
        = snd (update_agent_status (Agent.id agent) "closed"
                 (closing_kwargs agent final_balance now) (db w)))
  \/ (exists agent,
        Agent.status agent = "pending_deposit" /\
        get_agent_by_name (Agent.name agent) (db w) = None /\
        db (snd (handle E address_of_key sha256_hexdigest round float_of_string request w))
        = snd (create_agent agent (db w))).
Proof.
  destruct request as [name deposit_amount withdrawal_address fresh now
                      | k | k body | k body | k body | k now]; cbn [handle].
  - destruct (register_agent_write name deposit_amount withdrawal_address fresh now w)
      as [H|(agent & H)]; [left; exact H|right; right; exists agent; exact H].
  - left. apply pd_api_account.
  - left. apply pd_api_place_order.
  - left. apply pd_api_close_position.
  - left. apply pd_api_set_leverage.
  - destruct (close_account_write k now w) as [H|(agent & bal & H)];
      [left; exact H|right; left; exists agent, bal, now; exact H].
Qed.

Lemma same_identity_refl (rows : list Agent.t) : Forall2 same_identity rows rows.
Proof. induction rows; constructor; [unfold same_identity; repeat split|assumption]. Qed.

Lemma same_identity_trans (l1 l2 l3 : list Agent.t) :
  Forall2 same_identity l1 l2 -> Forall2 same_identity l2 l3 -> Forall2 same_identity l1 l3.
Proof.
  intro H12. revert l3. induction H12 as [|x y l1 l2 Hxy _ IH]; intros l3 H23.
  - inversion H23. constructor.
  - inversion H23 as [|? z ? l3' Hyz Hrest]; subst.
    constructor; [|apply IH; exact Hrest].
    unfold same_identity in *.
    destruct Hxy as (? & ? & ? & ? & ? & ? & ? & ?).
    destruct Hyz as (? & ? & ? & ? & ? & ? & ? & ?).
    repeat split; congruence.
Qed.

Lemma handle_identity (request : Request) (w : World) :
  exists kept added,
    agents (db (snd (handle E address_of_key sha256_hexdigest round float_of_string request w)))
    = (kept ++ added)%list /\
    Forall2 same_identity (agents (db w)) kept.
Proof.
  destruct (handle_write request w)
    as [H|[(agent & bal & now & H)|(agent & _ & _ & H)]]; rewrite H.
  - exists (agents (db w)), []. rewrite app_nil_r. split; [reflexivity|].
    apply same_identity_refl.
  - eexists. exists []. rewrite app_nil_r. split; [reflexivity|]. cbn.
    generalize (agents (db w)). intro rows.
    induction rows as [|r rows IH]; simpl; constructor; [|exact IH].
    destruct (String.eqb (Agent.id r) (Agent.id agent));
      unfold same_identity; repeat split.
  - unfold create_agent. destruct (existsb _ (agents (db w))).
    + exists (agents (db w)), []. rewrite app_nil_r. split; [reflexivity|].
      apply same_identity_refl.
    + eexists. eexists. split; [reflexivity|]. apply same_identity_refl.
Qed.

(** X20. What is fixed at registration stays fixed: over any sequence of
    requests, every stored agent keeps its id, name, wallet address, key
    material, credential hash, deposit amount, creation time and withdrawal
    address; rows are only added after it, never removed or reordered. *)
Theorem registration_columns_fixed (requests : list Request) (w : World) :
  exists kept added,
    agents (db (serve E address_of_key sha256_hexdigest round float_of_string requests w))
    = (kept ++ added)%list /\
    Forall2 same_identity (agents (db w)) kept.
Proof.
  revert w. induction requests as [|request rest IH]; intro w; cbn [serve].
  - exists (agents (db w)), []. rewrite app_nil_r. split; [reflexivity|].
    apply same_identity_refl.
  - destruct (handle_identity request w) as (kept1 & added1 & Hrows1 & Hsame1).
    destruct (IH (snd (handle E address_of_key sha256_hexdigest round float_of_string request w)))
      as (kept2 & added2 & Hrows2 & Hsame2).
    rewrite Hrows1 in Hsame2. apply Forall2_app_inv_l in Hsame2.
    destruct Hsame2 as (kept & later & Hkept & _ & ->).
    exists kept, (later ++ added2)%list. rewrite Hrows2, app_assoc.
    split; [reflexivity|]. exact (same_identity_trans _ _ _ Hsame1 Hkept).
Qed.

Lemma handle_trades (request : Request) (w : World) :
  trades (db (snd (handle E address_of_key sha256_hexdigest
        round float_of_string request w))) = trades (db w).
Proof.
  destruct (handle_write request w)
    as [H|[(agent & bal & now & H)|(agent & _ & _ & H)]]; rewrite H.
  - reflexivity.
  - reflexivity.
  - unfold create_agent. destruct (existsb _ (agents (db w))); reflexivity.
Qed.

(** X21. No handler records a trade: over any sequence of requests,
    orders, closes and account closures included, the trades of the store
    are what they were, and so are the statistics of every agent, which the
    leaderboard and the account page show. *)
Theorem handlers_never_record_trades (requests : list Request) (w : World) :
  trades (db (serve E address_of_key sha256_hexdigest
        round float_of_string requests w)) = trades (db w) /\
  forall agent_id,
    get_agent_stats agent_id (db (serve E address_of_key sha256_hexdigest
          round float_of_string requests w))
    = get_agent_stats agent_id (db w).
Proof.
  assert (Htrades : trades (db (serve E address_of_key sha256_hexdigest
        round float_of_string requests w))
                    = trades (db w)).
  { revert w. induction requests as [|request rest IH]; intro w; cbn [serve].
    - reflexivity.
    - rewrite IH. apply handle_trades. }
  split; [exact Htrades|].
  intro agent_id. unfold get_agent_stats. rewrite Htrades. reflexivity.
Qed.

Lemma name_free (name : string) (d : DB) :
  get_agent_by_name name d = None -> ~ In name (map Agent.name (agents d)).
Proof.
  unfold get_agent_by_name. intros Hfree Hin.
  apply in_map_iff in Hin. destruct Hin as (r & Hname & Hr).
  pose proof (find_none _ _ Hfree r Hr) as Hne. cbn in Hne.
  rewrite Hname, String.eqb_refl in Hne. discriminate.
Qed.

Lemma updated_names (agent_id status : string) (kw : Kwargs) (rows : list Agent.t) :
  kw_name kw = None ->
  map Agent.name
    (map (fun r => if String.eqb (Agent.id r) agent_id then update_row status kw r else r)
       rows) = map Agent.name rows.
Proof.
  intro Hkw. rewrite map_map. apply map_ext. intro r.
  destruct (String.eqb (Agent.id r) agent_id); [cbn; rewrite Hkw|]; reflexivity.
Qed.

Lemma handle_keys (request : Request) (w : World) :
  unique_ids (db w) /\ unique_wallets (db w) /\ unique_names (db w) ->
  unique_ids (db (snd (handle E address_of_key sha256_hexdigest
        round float_of_string request w))) /\
  unique_wallets (db (snd (handle E address_of_key sha256_hexdigest
        round float_of_string request w))) /\
  unique_names (db (snd (handle E address_of_key sha256_hexdigest
        round float_of_string request w))).
Proof.
  intros (Hids & Hwallets & Hnames).
  destruct (handle_write request w)
    as [H|[(agent & bal & now & H)|(agent & _ & Hfree & H)]]; rewrite H.
  - auto.
  - unfold unique_ids, unique_wallets, unique_names in *. cbn.
    rewrite (proj1 (updated_keys _ _ _ _)), (proj2 (updated_keys _ _ _ _)),
      (updated_names _ _ (closing_kwargs agent bal now) _ eq_refl). auto.
  - unfold create_agent. destruct (existsb _ (agents (db w))) eqn:Hex; [auto|].
    unfold unique_ids, unique_wallets, unique_names in *. cbn.
    rewrite !map_app. cbn.
    destruct (not_stored agent (db w) Hex) as [Hid Hwallet].
    repeat split; apply NoDup_snoc; auto. apply name_free. exact Hfree.
Qed.

(** X22. The keys of the agents table stay unique over any sequence of
    requests: ids and wallet addresses, which the store checks on insert,
    and names, which only the registration handler checks. *)
Theorem keys_stay_unique (requests : list Request) (w : World)
    (Hids : unique_ids (db w)) (Hwallets : unique_wallets (db w))
    (Hnames : unique_names (db w)) :
  unique_ids (db (serve E address_of_key sha256_hexdigest round float_of_string requests w)) /\
  unique_wallets (db (serve E address_of_key sha256_hexdigest round float_of_string requests w)) /\
  unique_names (db (serve E address_of_key sha256_hexdigest round float_of_string requests w)).
Proof.
  assert (H : unique_ids (db w) /\ unique_wallets (db w) /\ unique_names (db w))
    by auto.
  clear Hids Hwallets Hnames. revert w H.
  induction requests as [|request rest IH]; intros w H; cbn [serve]; [exact H|].
  apply IH. apply handle_keys. exact H.
Qed.

Lemma handle_consistent (request : Request) (w : World) :
  Forall closure_consistent (agents (db w)) ->
  Forall closure_consistent
    (agents (db (snd (handle E address_of_key sha256_hexdigest round float_of_string request w)))).
Proof.
  intro Hall.
  destruct (handle_write request w)
    as [H|[(agent & bal & now & H)|(agent & Hpending & _ & H)]]; rewrite H.
  - exact Hall.
  - cbn. apply Forall_map. eapply Forall_impl; [|exact Hall].
    intros r Hr. destruct (String.eqb (Agent.id r) (Agent.id agent)); [|exact Hr].
    unfold closure_consistent. cbn. repeat split; discriminate.
  - unfold create_agent. destruct (existsb _ (agents (db w))); [exact Hall|].
    cbn. apply Forall_app. split; [exact Hall|].
    constructor; [|constructor].
    unfold closure_consistent. cbn. rewrite Hpending. cbn. repeat split.
Qed.

(** X23. Through the handlers the closure columns are all or nothing: if
    every stored agent has its closed timestamp, final equity, final P&L
    and final percentage all set when it is closed and all empty when it is
    not, the same holds after any sequence of requests. *)
Theorem closure_columns_all_or_nothing (requests : list Request) (w : World)
    (Hall : Forall closure_consistent (agents (db w))) :
  Forall closure_consistent
    (agents (db (serve E address_of_key sha256_hexdigest round float_of_string requests w))).
Proof.
  revert w Hall. induction requests as [|request rest IH]; intros w Hall; cbn [serve].
  - exact Hall.
  - apply IH. apply handle_consistent. exact Hall.
Qed.

(** X24. A closure that runs to its end moves the agent from the
    leaderboard to the hall of fame: afterwards the agent's row is among
    the closed agents, holding the final figures, and no active agent has
    its id. *)
Theorem closed_agent_changes_lists
    (x_api_key : option string) (now : datetime) (w : World) (agent : Agent.t)
    (addr : string)
    (Hauth : authenticates sha256_hexdigest x_api_key (db w) agent)
    (Hopen : Agent.status agent <> "closed")
    (Hkey : address_of_key (normalized (Agent.private_key_encrypted agent)) = Some addr)
    (Hreads : reads_succeed E) :
  exists response w' row,
    api_close_account E address_of_key sha256_hexdigest round x_api_key now w
    = (Ok response, w') /\
    In row (get_closed_agents (db w')) /\
    Agent.id row = Agent.id agent /\
    Agent.name row = Agent.name agent /\
    Agent.closed_at row = Some now /\
    Agent.final_pnl_pct row <> None /\
    forall r, In r (get_active_agents (db w')) -> Agent.id r <> Agent.id agent.
Proof.
  destruct (close_account_run E address_of_key sha256_hexdigest round x_api_key now w agent
              addr Hauth Hopen Hkey Hreads)
    as (st0 & closed & errs & cancelled & st & w3 & _ & _ & _ & _ & Hrun).
  rewrite Hrun. eexists. eexists.
  exists (update_row "closed"
            (closing_kwargs agent (dflt (HL.accountValue st) 0%Q) now) agent).
  split; [reflexivity|]. cbn [db snd update_agent_status commit agents].
  split; [|split; [reflexivity|split; [reflexivity|split; [reflexivity|split]]]].
  - unfold get_closed_agents.
    apply (Permutation_in _ (Permutation_sym (sort_desc_perm _ _))).
    apply filter_In. split; [|reflexivity]. cbn [agents].
    apply in_map_iff. exists agent. rewrite String.eqb_refl.
    split; [reflexivity|]. exact (authenticated_row _ _ _ _ Hauth).
  - discriminate.
  - intros r Hr Hid. unfold get_active_agents in Hr.
    apply (Permutation_in _ (sort_desc_perm _ _)) in Hr.
    apply filter_In in Hr. destruct Hr as [Hin Hactive]. cbn [agents] in Hin.
    apply in_map_iff in Hin. destruct Hin as (r0 & Hr0 & _).
    destruct (String.eqb_spec (Agent.id r0) (Agent.id agent)) as [|Hne].
    + subst r. discriminate Hactive.
    + subst r. contradiction.
Qed.

End AppWrites.

(** An order that fills leaves the statistics of the agent at zero. *)
Example filled_order_leaves_stats :
  exists response w',
    api_place_order (Sample.flat 1500) Sample.from_key Sample.sha256
          Sample.round Sample.float_of_string
      (Some Sample.api_key)
      {| ob_symbol := Some "BTC"; ob_side := Some "buy"; ob_size := Some (JNumber 1);
         ob_price := None; ob_type := None |}
      (Sample.world (Sample.agent "active" 1000))
    = (Ok response, w') /\
    (exists oid message, response = OrderOk oid message 1 (79 # 100)) /\
    get_agent_stats "test-agent-123" (db w') = no_stats.
Proof.
  do 2 eexists. split; [vm_compute; reflexivity|].
  split; [do 2 eexists; reflexivity|reflexivity].
Qed.

Lemma keys_stay_unique_witness :
  unique_names
    (db (serve (Sample.flat 1500) Sample.from_key Sample.sha256 Sample.round Sample.float_of_string
           [POST_register "Newcomer" 50 "0xw"
              {| uuid4 := "id-2"; account_address := "0xnew";
                 account_key_hex := "0xkey"; token_urlsafe := "tok" |} Sample.now;
            POST_register "Newcomer" 60 "0xv"
              {| uuid4 := "id-3"; account_address := "0xnew3";
                 account_key_hex := "0xkey3"; token_urlsafe := "tok3" |} Sample.now]
           (Sample.world (Sample.agent "active" 1000)))).
Proof.
  apply (keys_stay_unique (Sample.flat 1500) Sample.from_key Sample.sha256
        Sample.round Sample.float_of_string
           [POST_register "Newcomer" 50 "0xw"
              {| uuid4 := "id-2"; account_address := "0xnew";
                 account_key_hex := "0xkey"; token_urlsafe := "tok" |} Sample.now;
            POST_register "Newcomer" 60 "0xv"
              {| uuid4 := "id-3"; account_address := "0xnew3";
                 account_key_hex := "0xkey3"; token_urlsafe := "tok3" |} Sample.now]
           (Sample.world (Sample.agent "active" 1000))).
  - unfold unique_ids. cbn. constructor; [intros []|constructor].
  - unfold unique_wallets. cbn. constructor; [intros []|constructor].
  - unfold unique_names. cbn. constructor; [intros []|constructor].
Defined.

Lemma closure_columns_all_or_nothing_witness :
  Forall closure_consistent
    (agents (db (serve (Sample.flat 1500) Sample.from_key Sample.sha256
          Sample.round Sample.float_of_string
                   [POST_api_close_account (Some Sample.api_key) Sample.now]
                   (Sample.world (Sample.agent "active" 1000))))).
Proof.
  apply (closure_columns_all_or_nothing (Sample.flat 1500) Sample.from_key Sample.sha256
        Sample.round Sample.float_of_string
           [POST_api_close_account (Some Sample.api_key) Sample.now]
           (Sample.world (Sample.agent "active" 1000))).
  constructor; [|constructor]. unfold closure_consistent. cbn. repeat split.
Defined.

Lemma closed_agent_changes_lists_witness :
  exists response w' row,
    api_close_account (Sample.flat 1500) Sample.from_key Sample.sha256 Sample.round
      (Some Sample.api_key) Sample.now (Sample.world (Sample.agent "active" 1000))
    = (Ok response, w') /\
    In row (get_closed_agents (db w')) /\
    Agent.name row = "TestAgent".
Proof.
  assert (Hreads : reads_succeed (Sample.flat 1500)).
  { split; intros h a; eexists; [reflexivity|split; [reflexivity|constructor]]. }
  destruct (closed_agent_changes_lists (Sample.flat 1500) Sample.from_key Sample.sha256 Sample.round
              (Some Sample.api_key) Sample.now
              (Sample.world (Sample.agent "active" 1000))
              (Sample.agent "active" 1000) Sample.wallet)
    as (response & w' & row & Hrun & Hin & _ & Hname & _).
  - exists Sample.api_key. repeat split.
  - discriminate.
  - reflexivity.
  - exact Hreads.
  - exists response, w', row. repeat split; assumption.
Defined.
